(** * base_model.py: UNet and UResNet as compositions of tensor-framework layers

    The program is written against a tensor framework (torch.nn): every
    primitive it calls (convolution, batch normalisation, pooling,
    interpolation, padding, concatenation, addition) is the framework's.
    The embedding keeps that split.  The module classes of base_model.py
    become records and their [__init__] and [forward] methods become
    functions over an interface [TensorOps] of primitives; the instance
    [SizeOps] gives the primitives their documented effect on a tensor's
    size (torch.Size) and the conditions under which they raise.

    [forward] mutates the module it is called on only through batch
    normalisation (the running statistics of a layer in training mode), so
    every [forward] returns the result together with the module after the
    call; an exception is [None]. *)

From Stdlib Require Import ZArith QArith List Bool Lia.
Import ListNotations.
Open Scope Z_scope.

(** ** Exceptions *)

Definition bind {A B : Type} (m : option A) (k : A -> option B) : option B :=
  match m with
  | Some a => k a
  | None => None
  end.

Notation "x <- m ;; k" := (bind m (fun x => k))
  (at level 61, m at next level, right associativity).
Notation "' p <- m ;; k" := (bind m (fun x => match x with p => k end))
  (at level 61, p pattern, m at next level, right associativity).

(** The tensor a call returns, without the module state after the call. *)
Definition output {T S : Type} (r : option (T * S)) : option T := option_map fst r.

(** ** Sizes *)

(** [x.size()] of a 4-d tensor: [x.size()[0]] .. [x.size()[3]]. *)
Record Size : Type := mkSize { batch : Z; channels : Z; height : Z; width : Z }.

(** ** Leaf layers of torch.nn, as base_model.py instantiates them

    [P] is the type of a parameter tensor. *)

Set Implicit Arguments.

Record Conv2d (P : Type) : Type := mkConv2d {
  in_channels : Z;
  out_channels : Z;
  kernel_size : Z * Z;
  stride : Z;
  padding : Z;
  weight : P;
  bias : option P }.

Record ConvTranspose2d (P : Type) : Type := mkConvTranspose2d {
  ct_in_channels : Z;
  ct_out_channels : Z;
  ct_kernel_size : Z * Z;
  ct_stride : Z;
  ct_padding : Z;
  ct_weight : P;
  ct_bias : option P }.

(** [weight] and [bias] are learned; [running_mean], [running_var] and
    [num_batches_tracked] are buffers that a forward call in training mode
    overwrites; [training] is [nn.Module.training]. *)
Record BatchNorm2d (P : Type) : Type := mkBatchNorm2d {
  num_features : Z;
  bn_weight : P;
  bn_bias : P;
  running_mean : P;
  running_var : P;
  num_batches_tracked : Z;
  training : bool }.

Record MaxPool2d : Type := mkMaxPool2d { pool_kernel_size : Z }.

Record Upsample : Type := mkUpsample { scale_factor : Z }.

(** ** The module classes of base_model.py

    One record per class; a field per submodule that [__init__] registers.
    The layers of an [nn.Sequential] are named by their index in it
    ([conv_0] is [self.conv[0]]).  [nn.ReLU] layers have no state and are
    calls of [relu] in [forward]. *)

Record double_conv (P : Type) : Type := mk_double_conv {
  conv_0 : Conv2d P;
  conv_1 : BatchNorm2d P;
  conv_3 : Conv2d P;
  conv_4 : BatchNorm2d P }.

Record inconv (P : Type) : Type := mk_inconv { inconv_conv : double_conv P }.

Record down (P : Type) : Type := mk_down {
  mpconv_0 : MaxPool2d;
  mpconv_1 : double_conv P }.

(** [up.up] is an [nn.Upsample] or an [nn.ConvTranspose2d]. *)
Inductive upsampler (P : Type) : Type :=
| Bilinear (u : Upsample)
| Learned (c : ConvTranspose2d P).

Record up (P : Type) : Type := mk_up {
  up_up : upsampler P;
  up_conv : double_conv P }.

Record outconv (P : Type) : Type := mk_outconv { outconv_conv : Conv2d P }.

Record UNet (P : Type) : Type := mk_UNet {
  inc : inconv P;
  down1 : down P;
  down2 : down P;
  down3 : down P;
  down4 : down P;
  up1 : up P;
  up2 : up P;
  up3 : up P;
  up4 : up P;
  outc : outconv P }.

Record Bottleneck (P : Type) : Type := mk_Bottleneck {
  b_conv1 : Conv2d P;
  b_bn1 : BatchNorm2d P;
  b_conv2 : Conv2d P;
  b_bn2 : BatchNorm2d P;
  b_conv3 : Conv2d P;
  b_bn3 : BatchNorm2d P;
  b_stride : Z;
  b_shortcut : option (Conv2d P) }.

Record DoubleResNet (P : Type) : Type := mk_DoubleResNet {
  res1 : Bottleneck P;
  res2 : Bottleneck P }.

Record ConvTransposeLayer (P : Type) : Type := mk_ConvTransposeLayer {
  res : Bottleneck P;
  deconv : ConvTranspose2d P }.

Record UResNet (P : Type) : Type := mk_UResNet {
  inplanes : Z;
  showsizes : bool;
  conv1 : Conv2d P;
  bn1 : BatchNorm2d P;
  conv2 : Conv2d P;
  bn2 : BatchNorm2d P;
  conv3 : Conv2d P;
  bn3 : BatchNorm2d P;
  enc_layer1 : DoubleResNet P;
  enc_layer2 : DoubleResNet P;
  enc_layer3 : DoubleResNet P;
  enc_layer4 : DoubleResNet P;
  dec_layer4 : ConvTransposeLayer P;
  dec_layer3 : ConvTransposeLayer P;
  dec_layer2 : ConvTransposeLayer P;
  dec_layer1 : ConvTransposeLayer P;
  nkernels : Z;
  conv10 : Conv2d P;
  bn10 : BatchNorm2d P;
  conv11 : Conv2d P;
  bn11 : BatchNorm2d P;
  conv12 : Conv2d P;
  bn12 : BatchNorm2d P;
  conv13 : Conv2d P }.

(** ** Walking a module tree

    [for m in self.modules()] visits every layer of a module; the layers
    that the [isinstance] tests of base_model.py tell apart are these. *)
Inductive layer (P : Type) : Type :=
| Conv2d_layer (m : Conv2d P)
| ConvTranspose2d_layer (m : ConvTranspose2d P)
| BatchNorm2d_layer (m : BatchNorm2d P).

(** What a walk does to each kind of layer. *)
Record visitor (P : Type) : Type := mk_visitor {
  on_conv : Conv2d P -> Conv2d P;
  on_deconv : ConvTranspose2d P -> ConvTranspose2d P;
  on_bn : BatchNorm2d P -> BatchNorm2d P }.

Unset Implicit Arguments.

Arguments Bilinear {P}.
Arguments Learned {P}.
Arguments Conv2d_layer {P}.
Arguments ConvTranspose2d_layer {P}.
Arguments BatchNorm2d_layer {P}.

(** ** The framework's primitives *)

(** What creating and initialising a parameter tensor needs. *)
Class ParamOps (P : Type) : Type := {
  (** the tensor a layer's own constructor leaves in a parameter *)
  default_init : P;
  (** [t.normal_(mean, math.sqrt(num / den))] *)
  normal_ : P -> Z -> Z -> Z -> P;
  (** [t.fill_(v)] *)
  fill_ : P -> Z -> P;
  (** [t.zero_()] *)
  zero_ : P -> P }.

(** What [forward] needs, on activations [T] with parameters [P].  A
    primitive that can raise returns an option. *)
Class TensorOps (T P : Type) : Type := {
  size : T -> Size;
  conv2d : Conv2d P -> T -> option T;
  (** [deconv(x, output_size=...)]; [None] when no output size is passed *)
  conv_transpose2d : ConvTranspose2d P -> option Size -> T -> option T;
  (** [F.batch_norm] with [training=True]: normalises with the statistics
      of the batch; arguments are num_features, weight, bias *)
  batch_norm_train : Z -> P -> P -> T -> option T;
  (** [F.batch_norm] with [training=False]: normalises with the running
      statistics; arguments are num_features, running_mean, running_var,
      weight, bias *)
  batch_norm_eval : Z -> P -> P -> P -> P -> T -> option T;
  (** the running mean and variance after a training-mode batch *)
  update_running_mean : P -> T -> P;
  update_running_var : P -> T -> P;
  relu : T -> T;
  max_pool2d : MaxPool2d -> T -> option T;
  upsample : Upsample -> T -> option T;
  (** [F.pad(x, (left, right, top, bottom))] *)
  pad : T -> Z * Z * Z * Z -> option T;
  (** [torch.cat([a, b], dim=1)] *)
  cat : T -> T -> option T;
  (** [a + b], with broadcasting *)
  add : T -> T -> option T }.

(** ** Leaf layers: construction and forward *)

Section Leaves.
Context {T P : Type} {PO : ParamOps P} {TO : TensorOps T P}.

(** [nn.Conv2d(in_ch, out_ch, kernel_size=k, stride=s, padding=p, bias=b)] *)
Definition nn_Conv2d (in_ch out_ch k s p : Z) (b : bool) : Conv2d P :=
  {| in_channels := in_ch; out_channels := out_ch; kernel_size := (k, k);
     stride := s; padding := p;
     weight := default_init;
     bias := if b then Some default_init else None |}.

(** [nn.ConvTranspose2d(in_ch, out_ch, kernel_size=k, stride=s, padding=p, bias=b)] *)
Definition nn_ConvTranspose2d (in_ch out_ch k s p : Z) (b : bool) : ConvTranspose2d P :=
  {| ct_in_channels := in_ch; ct_out_channels := out_ch; ct_kernel_size := (k, k);
     ct_stride := s; ct_padding := p;
     ct_weight := default_init;
     ct_bias := if b then Some default_init else None |}.

(** [nn.BatchNorm2d(n)]: running mean zero, running variance one, no batch
    seen, and the mode every new module is in. *)
Definition nn_BatchNorm2d (n : Z) : BatchNorm2d P :=
  {| num_features := n;
     bn_weight := default_init;
     bn_bias := default_init;
     running_mean := fill_ default_init 0;
     running_var := fill_ default_init 1;
     num_batches_tracked := 0;
     training := true |}.

(** [num_batches_tracked] is a 64-bit integer tensor. *)
Definition wrap_int64 (z : Z) : Z := (z + 2 ^ 63) mod 2 ^ 64 - 2 ^ 63.

Definition BatchNorm2d_forward (m : BatchNorm2d P) (x : T) : option (T * BatchNorm2d P) :=
  if training m then
    y <- batch_norm_train (num_features m) (bn_weight m) (bn_bias m) x ;;
    Some (y, {| num_features := num_features m;
                bn_weight := bn_weight m;
                bn_bias := bn_bias m;
                running_mean := update_running_mean (running_mean m) x;
                running_var := update_running_var (running_var m) x;
                num_batches_tracked := wrap_int64 (num_batches_tracked m + 1);
                training := training m |})
  else
    y <- batch_norm_eval (num_features m) (running_mean m) (running_var m)
                         (bn_weight m) (bn_bias m) x ;;
    Some (y, m).

End Leaves.

(** ** Construction: the [__init__] methods *)

Section Construction.
Context {P : Type} {PO : ParamOps P}.

Definition double_conv_init (in_ch out_ch : Z) : double_conv P :=
  {| conv_0 := nn_Conv2d in_ch out_ch 3 1 1 true;
     conv_1 := nn_BatchNorm2d out_ch;
     conv_3 := nn_Conv2d out_ch out_ch 3 1 1 true;
     conv_4 := nn_BatchNorm2d out_ch |}.

Definition inconv_init (in_ch out_ch : Z) : inconv P :=
  {| inconv_conv := double_conv_init in_ch out_ch |}.

Definition down_init (in_ch out_ch : Z) : down P :=
  {| mpconv_0 := {| pool_kernel_size := 2 |};
     mpconv_1 := double_conv_init in_ch out_ch |}.

Definition up_init (in_ch out_ch : Z) (bilinear : bool) : up P :=
  {| up_up := if bilinear
              then Bilinear {| scale_factor := 2 |}
              else Learned (nn_ConvTranspose2d (in_ch / 2) (in_ch / 2) 2 2 0 true);
     up_conv := double_conv_init in_ch out_ch |}.

Definition outconv_init (in_ch out_ch : Z) : outconv P :=
  {| outconv_conv := nn_Conv2d in_ch out_ch 1 1 0 true |}.

Definition UNet_init (n_channels n_classes : Z) : UNet P :=
  {| inc := inconv_init n_channels 64;
     down1 := down_init 64 128;
     down2 := down_init 128 256;
     down3 := down_init 256 512;
     down4 := down_init 512 512;
     up1 := up_init 1024 256 true;
     up2 := up_init 512 128 true;
     up3 := up_init 256 64 true;
     up4 := up_init 128 64 true;
     outc := outconv_init 64 n_classes |}.

Definition Bottleneck_init (inplanes planes stride : Z) : Bottleneck P :=
  {| b_conv1 := nn_Conv2d inplanes planes 1 1 0 false;
     b_bn1 := nn_BatchNorm2d planes;
     b_conv2 := nn_Conv2d planes planes 3 stride 1 false;
     b_bn2 := nn_BatchNorm2d planes;
     b_conv3 := nn_Conv2d planes planes 1 1 0 false;
     b_bn3 := nn_BatchNorm2d planes;
     b_stride := stride;
     b_shortcut := if 1 <? stride
                   then Some (nn_Conv2d inplanes planes 1 stride 0 false)
                   else None |}.

Definition DoubleResNet_init (inplanes planes stride : Z) : DoubleResNet P :=
  {| res1 := Bottleneck_init inplanes planes stride;
     res2 := Bottleneck_init planes planes 1 |}.

(** The [stride] argument is accepted and not used: the transposed
    convolution is built with stride 2. *)
Definition ConvTransposeLayer_init (inplanes outplanes stride : Z) : ConvTransposeLayer P :=
  {| res := Bottleneck_init inplanes inplanes 1;
     deconv := nn_ConvTranspose2d inplanes outplanes 3 2 1 false |}.

Definition _make_encoding_layer (inplanes planes stride : Z) : DoubleResNet P :=
  DoubleResNet_init inplanes planes stride.

Definition _make_decoding_layer (inplanes planes stride : Z) : ConvTransposeLayer P :=
  ConvTransposeLayer_init inplanes planes stride.

(** The layers [UResNet.__init__] registers, before its initialisation loop. *)
Definition UResNet_layers (num_classes input_channels inplanes : Z) (showsizes : bool)
  : UResNet P :=
  let nkernels := 16 in
  {| inplanes := inplanes;
     showsizes := showsizes;
     conv1 := nn_Conv2d input_channels inplanes 3 1 1 true;
     bn1 := nn_BatchNorm2d inplanes;
     conv2 := nn_Conv2d inplanes inplanes 3 1 1 true;
     bn2 := nn_BatchNorm2d inplanes;
     conv3 := nn_Conv2d inplanes inplanes 3 1 1 true;
     bn3 := nn_BatchNorm2d inplanes;
     enc_layer1 := _make_encoding_layer (inplanes * 1) (inplanes * 2) 2;
     enc_layer2 := _make_encoding_layer (inplanes * 2) (inplanes * 4) 2;
     enc_layer3 := _make_encoding_layer (inplanes * 4) (inplanes * 8) 2;
     enc_layer4 := _make_encoding_layer (inplanes * 8) (inplanes * 16) 2;
     dec_layer4 := _make_decoding_layer (inplanes * 16) (inplanes * 8) 2;
     dec_layer3 := _make_decoding_layer (inplanes * 8 * 2) (inplanes * 4) 2;
     dec_layer2 := _make_decoding_layer (inplanes * 4 * 2) (inplanes * 2) 2;
     dec_layer1 := _make_decoding_layer (inplanes * 2 * 2) (inplanes * 1) 2;
     nkernels := nkernels;
     conv10 := nn_Conv2d inplanes nkernels 3 1 1 true;
     bn10 := nn_BatchNorm2d nkernels;
     conv11 := nn_Conv2d nkernels (nkernels * 2) 3 1 1 true;
     bn11 := nn_BatchNorm2d (nkernels * 2);
     conv12 := nn_Conv2d (nkernels * 2) nkernels 3 1 1 true;
     bn12 := nn_BatchNorm2d nkernels;
     conv13 := nn_Conv2d nkernels num_classes 1 1 0 true |}.

(** The body of the initialisation loop of [UResNet.__init__]:
    [n = m.kernel_size[0] * m.kernel_size[1] * m.out_channels] and
    [m.weight.data.normal_(0, math.sqrt(2. / n))] for a convolution or a
    transposed convolution, [m.weight.data.fill_(1)] and
    [m.bias.data.zero_()] for a batch normalisation. *)
Definition initialization : visitor P :=
  {| on_conv := fun m =>
       let n := fst (kernel_size m) * snd (kernel_size m) * out_channels m in
       {| in_channels := in_channels m; out_channels := out_channels m;
          kernel_size := kernel_size m; stride := stride m; padding := padding m;
          weight := normal_ (weight m) 0 2 n;
          bias := bias m |};
     on_deconv := fun m =>
       let n := fst (ct_kernel_size m) * snd (ct_kernel_size m) * ct_out_channels m in
       {| ct_in_channels := ct_in_channels m; ct_out_channels := ct_out_channels m;
          ct_kernel_size := ct_kernel_size m; ct_stride := ct_stride m;
          ct_padding := ct_padding m;
          ct_weight := normal_ (ct_weight m) 0 2 n;
          ct_bias := ct_bias m |};
     on_bn := fun m =>
       {| num_features := num_features m;
          bn_weight := fill_ (bn_weight m) 1;
          bn_bias := zero_ (bn_bias m);
          running_mean := running_mean m;
          running_var := running_var m;
          num_batches_tracked := num_batches_tracked m;
          training := training m |} |}.

End Construction.

(** ** Walks *)

Section Walk.
Context {P : Type}.
Variable v : visitor P.

Definition visit (l : layer P) : layer P :=
  match l with
  | Conv2d_layer m => Conv2d_layer (on_conv v m)
  | ConvTranspose2d_layer m => ConvTranspose2d_layer (on_deconv v m)
  | BatchNorm2d_layer m => BatchNorm2d_layer (on_bn v m)
  end.

Definition double_conv_apply (m : double_conv P) : double_conv P :=
  {| conv_0 := on_conv v (conv_0 m);
     conv_1 := on_bn v (conv_1 m);
     conv_3 := on_conv v (conv_3 m);
     conv_4 := on_bn v (conv_4 m) |}.

Definition inconv_apply (m : inconv P) : inconv P :=
  {| inconv_conv := double_conv_apply (inconv_conv m) |}.

Definition down_apply (m : down P) : down P :=
  {| mpconv_0 := mpconv_0 m;
     mpconv_1 := double_conv_apply (mpconv_1 m) |}.

Definition upsampler_apply (u : upsampler P) : upsampler P :=
  match u with
  | Bilinear u => Bilinear u
  | Learned c => Learned (on_deconv v c)
  end.

Definition up_apply (m : up P) : up P :=
  {| up_up := upsampler_apply (up_up m);
     up_conv := double_conv_apply (up_conv m) |}.

Definition outconv_apply (m : outconv P) : outconv P :=
  {| outconv_conv := on_conv v (outconv_conv m) |}.

Definition UNet_apply (m : UNet P) : UNet P :=
  {| inc := inconv_apply (inc m);
     down1 := down_apply (down1 m);
     down2 := down_apply (down2 m);
     down3 := down_apply (down3 m);
     down4 := down_apply (down4 m);
     up1 := up_apply (up1 m);
     up2 := up_apply (up2 m);
     up3 := up_apply (up3 m);
     up4 := up_apply (up4 m);
     outc := outconv_apply (outc m) |}.

Definition Bottleneck_apply (m : Bottleneck P) : Bottleneck P :=
  {| b_conv1 := on_conv v (b_conv1 m);
     b_bn1 := on_bn v (b_bn1 m);
     b_conv2 := on_conv v (b_conv2 m);
     b_bn2 := on_bn v (b_bn2 m);
     b_conv3 := on_conv v (b_conv3 m);
     b_bn3 := on_bn v (b_bn3 m);
     b_stride := b_stride m;
     b_shortcut := option_map (on_conv v) (b_shortcut m) |}.

Definition DoubleResNet_apply (m : DoubleResNet P) : DoubleResNet P :=
  {| res1 := Bottleneck_apply (res1 m);
     res2 := Bottleneck_apply (res2 m) |}.

Definition ConvTransposeLayer_apply (m : ConvTransposeLayer P) : ConvTransposeLayer P :=
  {| res := Bottleneck_apply (res m);
     deconv := on_deconv v (deconv m) |}.

Definition UResNet_apply (m : UResNet P) : UResNet P :=
  {| inplanes := inplanes m;
     showsizes := showsizes m;
     conv1 := on_conv v (conv1 m);
     bn1 := on_bn v (bn1 m);
     conv2 := on_conv v (conv2 m);
     bn2 := on_bn v (bn2 m);
     conv3 := on_conv v (conv3 m);
     bn3 := on_bn v (bn3 m);
     enc_layer1 := DoubleResNet_apply (enc_layer1 m);
     enc_layer2 := DoubleResNet_apply (enc_layer2 m);
     enc_layer3 := DoubleResNet_apply (enc_layer3 m);
     enc_layer4 := DoubleResNet_apply (enc_layer4 m);
     dec_layer4 := ConvTransposeLayer_apply (dec_layer4 m);
     dec_layer3 := ConvTransposeLayer_apply (dec_layer3 m);
     dec_layer2 := ConvTransposeLayer_apply (dec_layer2 m);
     dec_layer1 := ConvTransposeLayer_apply (dec_layer1 m);
     nkernels := nkernels m;
     conv10 := on_conv v (conv10 m);
     bn10 := on_bn v (bn10 m);
     conv11 := on_conv v (conv11 m);
     bn11 := on_bn v (bn11 m);
     conv12 := on_conv v (conv12 m);
     bn12 := on_bn v (bn12 m);
     conv13 := on_conv v (conv13 m) |}.

End Walk.

(** The layers of a module, in the order [modules()] yields them. *)

Section Modules.
Context {P : Type}.

Definition double_conv_modules (m : double_conv P) : list (layer P) :=
  [ Conv2d_layer (conv_0 m); BatchNorm2d_layer (conv_1 m);
    Conv2d_layer (conv_3 m); BatchNorm2d_layer (conv_4 m) ].

Definition inconv_modules (m : inconv P) : list (layer P) :=
  double_conv_modules (inconv_conv m).

Definition down_modules (m : down P) : list (layer P) :=
  double_conv_modules (mpconv_1 m).

Definition upsampler_modules (u : upsampler P) : list (layer P) :=
  match u with
  | Bilinear _ => []
  | Learned c => [ ConvTranspose2d_layer c ]
  end.

Definition up_modules (m : up P) : list (layer P) :=
  upsampler_modules (up_up m) ++ double_conv_modules (up_conv m).

Definition outconv_modules (m : outconv P) : list (layer P) :=
  [ Conv2d_layer (outconv_conv m) ].

Definition UNet_modules (m : UNet P) : list (layer P) :=
  inconv_modules (inc m)
  ++ down_modules (down1 m) ++ down_modules (down2 m)
  ++ down_modules (down3 m) ++ down_modules (down4 m)
  ++ up_modules (up1 m) ++ up_modules (up2 m)
  ++ up_modules (up3 m) ++ up_modules (up4 m)
  ++ outconv_modules (outc m).

Definition Bottleneck_modules (m : Bottleneck P) : list (layer P) :=
  [ Conv2d_layer (b_conv1 m); BatchNorm2d_layer (b_bn1 m);
    Conv2d_layer (b_conv2 m); BatchNorm2d_layer (b_bn2 m);
    Conv2d_layer (b_conv3 m); BatchNorm2d_layer (b_bn3 m) ]
  ++ match b_shortcut m with
     | Some c => [ Conv2d_layer c ]
     | None => []
     end.

Definition DoubleResNet_modules (m : DoubleResNet P) : list (layer P) :=
  Bottleneck_modules (res1 m) ++ Bottleneck_modules (res2 m).

Definition ConvTransposeLayer_modules (m : ConvTransposeLayer P) : list (layer P) :=
  Bottleneck_modules (res m) ++ [ ConvTranspose2d_layer (deconv m) ].

Definition UResNet_modules (m : UResNet P) : list (layer P) :=
  [ Conv2d_layer (conv1 m); BatchNorm2d_layer (bn1 m);
    Conv2d_layer (conv2 m); BatchNorm2d_layer (bn2 m);
    Conv2d_layer (conv3 m); BatchNorm2d_layer (bn3 m) ]
  ++ DoubleResNet_modules (enc_layer1 m) ++ DoubleResNet_modules (enc_layer2 m)
  ++ DoubleResNet_modules (enc_layer3 m) ++ DoubleResNet_modules (enc_layer4 m)
  ++ ConvTransposeLayer_modules (dec_layer4 m)
  ++ ConvTransposeLayer_modules (dec_layer3 m)
  ++ ConvTransposeLayer_modules (dec_layer2 m)
  ++ ConvTransposeLayer_modules (dec_layer1 m)
  ++ [ Conv2d_layer (conv10 m); BatchNorm2d_layer (bn10 m);
       Conv2d_layer (conv11 m); BatchNorm2d_layer (bn11 m);
       Conv2d_layer (conv12 m); BatchNorm2d_layer (bn12 m);
       Conv2d_layer (conv13 m) ].

End Modules.

(** [UResNet.__init__]: register the layers, then run the initialisation
    loop over [self.modules()].  [UNet.__init__] ([UNet_init]) has no such
    loop. *)
Definition UResNet_init {P : Type} {PO : ParamOps P}
  (num_classes input_channels inplanes : Z) (showsizes : bool) : UResNet P :=
  UResNet_apply initialization (UResNet_layers num_classes input_channels inplanes showsizes).

(** ** The [forward] methods *)

Section Forward.
Context {T P : Type} {TO : TensorOps T P}.

Definition double_conv_forward (m : double_conv P) (x : T) : option (T * double_conv P) :=
  x <- conv2d (conv_0 m) x ;;
  '(x, c1) <- BatchNorm2d_forward (conv_1 m) x ;;
  let x := relu x in
  x <- conv2d (conv_3 m) x ;;
  '(x, c4) <- BatchNorm2d_forward (conv_4 m) x ;;
  let x := relu x in
  Some (x, {| conv_0 := conv_0 m; conv_1 := c1; conv_3 := conv_3 m; conv_4 := c4 |}).

Definition inconv_forward (m : inconv P) (x : T) : option (T * inconv P) :=
  '(x, c) <- double_conv_forward (inconv_conv m) x ;;
  Some (x, {| inconv_conv := c |}).

Definition down_forward (m : down P) (x : T) : option (T * down P) :=
  x <- max_pool2d (mpconv_0 m) x ;;
  '(x, c) <- double_conv_forward (mpconv_1 m) x ;;
  Some (x, {| mpconv_0 := mpconv_0 m; mpconv_1 := c |}).

(** The argument of [F.pad] in [up.forward], from the sizes of the skip
    tensor [x2] and of the upsampled tensor [x1]. *)
Definition up_padding (x2 x1 : Size) : Z * Z * Z * Z :=
  let diffY := height x2 - height x1 in
  let diffX := width x2 - width x1 in
  (diffX / 2, diffX - diffX / 2, diffY / 2, diffY - diffY / 2).

(** [x1] of [up.forward] when it reaches [torch.cat]: upsampled, then padded. *)
Definition up_padded (m : up P) (x1 x2 : T) : option T :=
  x1 <- match up_up m with
        | Bilinear u => upsample u x1
        | Learned c => conv_transpose2d c None x1
        end ;;
  pad x1 (up_padding (size x2) (size x1)).

Definition up_forward (m : up P) (x1 x2 : T) : option (T * up P) :=
  x1 <- up_padded m x1 x2 ;;
  x <- cat x2 x1 ;;
  '(x, c) <- double_conv_forward (up_conv m) x ;;
  Some (x, {| up_up := up_up m; up_conv := c |}).

Definition outconv_forward (m : outconv P) (x : T) : option (T * outconv P) :=
  x <- conv2d (outconv_conv m) x ;;
  Some (x, m).

Definition UNet_forward (m : UNet P) (x : T) : option (T * UNet P) :=
  '(x1, inc') <- inconv_forward (inc m) x ;;
  '(x2, down1') <- down_forward (down1 m) x1 ;;
  '(x3, down2') <- down_forward (down2 m) x2 ;;
  '(x4, down3') <- down_forward (down3 m) x3 ;;
  '(x5, down4') <- down_forward (down4 m) x4 ;;
  '(x, up1') <- up_forward (up1 m) x5 x4 ;;
  '(x, up2') <- up_forward (up2 m) x x3 ;;
  '(x, up3') <- up_forward (up3 m) x x2 ;;
  '(x, up4') <- up_forward (up4 m) x x1 ;;
  '(x, outc') <- outconv_forward (outc m) x ;;
  Some (x, {| inc := inc'; down1 := down1'; down2 := down2'; down3 := down3';
              down4 := down4'; up1 := up1'; up2 := up2'; up3 := up3'; up4 := up4';
              outc := outc' |}).

Definition Bottleneck_forward (m : Bottleneck P) (x : T) : option (T * Bottleneck P) :=
  bypass <- match b_shortcut m with
            | None => Some x
            | Some shortcut => conv2d shortcut x
            end ;;
  residual <- conv2d (b_conv1 m) x ;;
  '(residual, bn1') <- BatchNorm2d_forward (b_bn1 m) residual ;;
  let residual := relu residual in
  residual <- conv2d (b_conv2 m) residual ;;
  '(residual, bn2') <- BatchNorm2d_forward (b_bn2 m) residual ;;
  let residual := relu residual in
  residual <- conv2d (b_conv3 m) residual ;;
  '(residual, bn3') <- BatchNorm2d_forward (b_bn3 m) residual ;;
  out <- add bypass residual ;;
  let out := relu out in
  Some (out, {| b_conv1 := b_conv1 m; b_bn1 := bn1'; b_conv2 := b_conv2 m;
                b_bn2 := bn2'; b_conv3 := b_conv3 m; b_bn3 := bn3';
                b_stride := b_stride m; b_shortcut := b_shortcut m |}).

Definition DoubleResNet_forward (m : DoubleResNet P) (x : T) : option (T * DoubleResNet P) :=
  '(out, res1') <- Bottleneck_forward (res1 m) x ;;
  '(out, res2') <- Bottleneck_forward (res2 m) out ;;
  Some (out, {| res1 := res1'; res2 := res2' |}).

Definition ConvTransposeLayer_forward (m : ConvTransposeLayer P) (x : T) (output_size : Size)
  : option (T * ConvTransposeLayer P) :=
  '(out, res') <- Bottleneck_forward (res m) x ;;
  out <- conv_transpose2d (deconv m) (Some output_size) out ;;
  Some (out, {| res := res'; deconv := deconv m |}).

Definition UResNet_forward (m : UResNet P) (x : T) : option (T * UResNet P) :=
  x <- conv2d (conv1 m) x ;;
  '(x, bn1') <- BatchNorm2d_forward (bn1 m) x ;;
  let x := relu x in
  x <- conv2d (conv2 m) x ;;
  '(x, bn2') <- BatchNorm2d_forward (bn2 m) x ;;
  let x := relu x in
  x <- conv2d (conv3 m) x ;;
  '(x, bn3') <- BatchNorm2d_forward (bn3 m) x ;;
  let x0 := relu x in
  '(x1, enc_layer1') <- DoubleResNet_forward (enc_layer1 m) x0 ;;
  '(x2, enc_layer2') <- DoubleResNet_forward (enc_layer2 m) x1 ;;
  '(x3, enc_layer3') <- DoubleResNet_forward (enc_layer3 m) x2 ;;
  '(x4, enc_layer4') <- DoubleResNet_forward (enc_layer4 m) x3 ;;
  '(x, dec_layer4') <- ConvTransposeLayer_forward (dec_layer4 m) x4 (size x3) ;;
  x <- cat x x3 ;;
  '(x, dec_layer3') <- ConvTransposeLayer_forward (dec_layer3 m) x (size x2) ;;
  x <- cat x x2 ;;
  '(x, dec_layer2') <- ConvTransposeLayer_forward (dec_layer2 m) x (size x1) ;;
  x <- cat x x1 ;;
  '(x, dec_layer1') <- ConvTransposeLayer_forward (dec_layer1 m) x (size x0) ;;
  x <- conv2d (conv10 m) x ;;
  '(x, bn10') <- BatchNorm2d_forward (bn10 m) x ;;
  let x := relu x in
  x <- conv2d (conv11 m) x ;;
  '(x, bn11') <- BatchNorm2d_forward (bn11 m) x ;;
  let x := relu x in
  x <- conv2d (conv12 m) x ;;
  '(x, bn12') <- BatchNorm2d_forward (bn12 m) x ;;
  let x := relu x in
  x <- conv2d (conv13 m) x ;;
  Some (x, {| inplanes := inplanes m; showsizes := showsizes m;
              conv1 := conv1 m; bn1 := bn1'; conv2 := conv2 m; bn2 := bn2';
              conv3 := conv3 m; bn3 := bn3';
              enc_layer1 := enc_layer1'; enc_layer2 := enc_layer2';
              enc_layer3 := enc_layer3'; enc_layer4 := enc_layer4';
              dec_layer4 := dec_layer4'; dec_layer3 := dec_layer3';
              dec_layer2 := dec_layer2'; dec_layer1 := dec_layer1';
              nkernels := nkernels m;
              conv10 := conv10 m; bn10 := bn10'; conv11 := conv11 m; bn11 := bn11';
              conv12 := conv12 m; bn12 := bn12'; conv13 := conv13 m |}).

End Forward.

(** ** The primitives on sizes

    The size each primitive of the framework gives its result, and the sizes
    it refuses.  Parameters play no part. *)

Section SizeRules.
Context {P : Type}.

(** Output length of a convolution or pooling window over [len] positions
    (dilation 1, floor rounding). *)
Definition window_out (len k s p : Z) : Z := (len + 2 * p - k) / s + 1.

(** [nn.Conv2d]: the input has [in_channels] channels and the padded input
    is not smaller than the kernel. *)
Definition size_conv2d (m : Conv2d P) (x : Size) : option Size :=
  let '(kh, kw) := kernel_size m in
  if (channels x =? in_channels m) && (0 <? stride m)
     && (kh <=? height x + 2 * padding m) && (kw <=? width x + 2 * padding m)
  then Some {| batch := batch x;
               channels := out_channels m;
               height := window_out (height x) kh (stride m) (padding m);
               width := window_out (width x) kw (stride m) (padding m) |}
  else None.

(** Smallest output length of a transposed convolution (output padding 0). *)
Definition deconv_min (len k s p : Z) : Z := (len - 1) * s - 2 * p + k.

(** [nn.ConvTranspose2d]: without [output_size] the output has the smallest
    length; a requested [output_size] is granted when each of its spatial
    lengths is between the smallest length and that plus [stride - 1], and
    refused otherwise. *)
Definition size_conv_transpose2d (m : ConvTranspose2d P) (output_size : option Size)
  (x : Size) : option Size :=
  let '(kh, kw) := ct_kernel_size m in
  let min_h := deconv_min (height x) kh (ct_stride m) (ct_padding m) in
  let min_w := deconv_min (width x) kw (ct_stride m) (ct_padding m) in
  if (channels x =? ct_in_channels m) && (0 <? ct_stride m)
     && (0 <? height x) && (0 <? width x)
  then
    match output_size with
    | None =>
        Some {| batch := batch x; channels := ct_out_channels m;
                height := min_h; width := min_w |}
    | Some o =>
        if (min_h <=? height o) && (height o <=? min_h + ct_stride m - 1)
           && (min_w <=? width o) && (width o <=? min_w + ct_stride m - 1)
        then Some {| batch := batch x; channels := ct_out_channels m;
                     height := height o; width := width o |}
        else None
    end
  else None.

(** [F.batch_norm]: the input has [num_features] channels; in training mode
    a batch with a single value per channel is refused. *)
Definition size_batch_norm (train : bool) (n : Z) (x : Size) : option Size :=
  if (channels x =? n) && negb (train && (batch x * height x * width x =? 1))
  then Some x
  else None.

(** [nn.MaxPool2d(k)]: stride [k], no padding; an empty output is refused. *)
Definition size_max_pool2d (m : MaxPool2d) (x : Size) : option Size :=
  let k := pool_kernel_size m in
  let h := window_out (height x) k k 0 in
  let w := window_out (width x) k k 0 in
  if (0 <? k) && (1 <=? h) && (1 <=? w)
  then Some {| batch := batch x; channels := channels x; height := h; width := w |}
  else None.

(** [nn.Upsample(scale_factor=s)]; the channel count is not looked at
    (base_model.py upsamples tensors of 64 to 512 channels). *)
Definition size_upsample (m : Upsample) (x : Size) : option Size :=
  if (0 <? height x) && (0 <? width x) && (0 <? scale_factor m)
  then Some {| batch := batch x; channels := channels x;
               height := height x * scale_factor m;
               width := width x * scale_factor m |}
  else None.

(** [t.narrow(dim, start, length)] on a dimension of [len] positions. *)
Definition narrow (len start length : Z) : option Z :=
  if (0 <=? start) && (0 <=? length) && (start + length <=? len)
  then Some length
  else None.

(** One dimension of [F.pad]: a negative amount crops, and the padded
    dimension must be positive. *)
Definition pad_dim (len before after : Z) : option Z :=
  len1 <- (if before <? 0 then narrow len (- before) (len + before) else Some len) ;;
  len2 <- (if after <? 0 then narrow len1 0 (len1 + after) else Some len1) ;;
  if 0 <? len + before + after then Some (len + before + after) else None.

Definition size_pad (x : Size) (p : Z * Z * Z * Z) : option Size :=
  let '(pad_left, pad_right, pad_top, pad_bottom) := p in
  w <- pad_dim (width x) pad_left pad_right ;;
  h <- pad_dim (height x) pad_top pad_bottom ;;
  Some {| batch := batch x; channels := channels x; height := h; width := w |}.

(** [torch.cat([a, b], dim=1)]: all dimensions but the channels agree. *)
Definition size_cat (a b : Size) : option Size :=
  if (batch a =? batch b) && (height a =? height b) && (width a =? width b)
  then Some {| batch := batch a; channels := channels a + channels b;
               height := height a; width := width a |}
  else None.

(** Broadcasting of one dimension. *)
Definition broadcast (a b : Z) : option Z :=
  if a =? b then Some a
  else if a =? 1 then Some b
  else if b =? 1 then Some a
  else None.

Definition size_add (a b : Size) : option Size :=
  n <- broadcast (batch a) (batch b) ;;
  c <- broadcast (channels a) (channels b) ;;
  h <- broadcast (height a) (height b) ;;
  w <- broadcast (width a) (width b) ;;
  Some {| batch := n; channels := c; height := h; width := w |}.

End SizeRules.

#[export] Instance SizeOps (P : Type) : TensorOps Size P :=
  {| size := fun x => x;
     conv2d := size_conv2d;
     conv_transpose2d := size_conv_transpose2d;
     batch_norm_train := fun n _ _ x => size_batch_norm true n x;
     batch_norm_eval := fun n _ _ _ _ x => size_batch_norm false n x;
     update_running_mean := fun r _ => r;
     update_running_var := fun r _ => r;
     relu := fun x => x;
     max_pool2d := size_max_pool2d;
     upsample := size_upsample;
     pad := size_pad;
     cat := size_cat;
     add := size_add |}.

(** Parameters seen only as the initialisation that produced them. *)
Inductive init : Type :=
| FrameworkDefault
| Normal (mean num den : Z)
| Filled (v : Z).

#[export] Instance InitOps : ParamOps init :=
  {| default_init := FrameworkDefault;
     normal_ := fun _ mean num den => Normal mean num den;
     fill_ := fun _ v => Filled v;
     zero_ := fun _ => Filled 0 |}.

(** ** Modes and statistics *)

Section Visitors.
Context {P : Type}.

(** [module.train(mode)] *)
Definition set_training (mode : bool) : visitor P :=
  {| on_conv := fun m => m;
     on_deconv := fun m => m;
     on_bn := fun m =>
       {| num_features := num_features m; bn_weight := bn_weight m; bn_bias := bn_bias m;
          running_mean := running_mean m; running_var := running_var m;
          num_batches_tracked := num_batches_tracked m;
          training := mode |} |}.

(** Overwrites the running statistics of every batch normalisation. *)
Definition set_stats (mean var : P) (count : Z) : visitor P :=
  {| on_conv := fun m => m;
     on_deconv := fun m => m;
     on_bn := fun m =>
       {| num_features := num_features m; bn_weight := bn_weight m; bn_bias := bn_bias m;
          running_mean := mean; running_var := var;
          num_batches_tracked := count;
          training := training m |} |}.

End Visitors.

(** A walk that leaves the configuration of every layer alone, and after
    which the batch normalisations of a new module are in mode [mode]. *)
Record keeps_config {P : Type} (mode : bool) (v : visitor P) : Prop := {
  kc_conv : forall m,
    in_channels (on_conv v m) = in_channels m
    /\ out_channels (on_conv v m) = out_channels m
    /\ kernel_size (on_conv v m) = kernel_size m
    /\ stride (on_conv v m) = stride m
    /\ padding (on_conv v m) = padding m;
  kc_deconv : forall m,
    ct_in_channels (on_deconv v m) = ct_in_channels m
    /\ ct_out_channels (on_deconv v m) = ct_out_channels m
    /\ ct_kernel_size (on_deconv v m) = ct_kernel_size m
    /\ ct_stride (on_deconv v m) = ct_stride m
    /\ ct_padding (on_deconv v m) = ct_padding m;
  kc_bn : forall m,
    num_features (on_bn v m) = num_features m
    /\ (training m = true -> training (on_bn v m) = mode) }.

(** Composition of walks: [w] first, then [v]. *)
Definition then_visit {P : Type} (w v : visitor P) : visitor P :=
  {| on_conv := fun m => on_conv v (on_conv w m);
     on_deconv := fun m => on_deconv v (on_deconv w m);
     on_bn := fun m => on_bn v (on_bn w m) |}.

(** Batch normalisation accepts a tensor of this size in mode [mode]. *)
Definition bn_fits (mode : bool) (n h w : Z) : Prop :=
  mode = true -> n * h * w <> 1.

(** Ceiling of a quotient. *)
Definition ceil_div (a b : Z) : Z := - ((- a) / b).

(** ** What the claims speak of *)

(** The rule of the initialisation loop, read off a layer: the weight of a
    (transposed) convolution was drawn by [normal_(0, sqrt(2 / n))] with
    [n] the kernel area times the output channels; a batch normalisation
    has weight filled with one and bias with zero. *)
Definition initialized (l : layer init) : Prop :=
  match l with
  | Conv2d_layer m =>
      weight m = Normal 0 2 (fst (kernel_size m) * snd (kernel_size m) * out_channels m)
  | ConvTranspose2d_layer m =>
      ct_weight m
      = Normal 0 2 (fst (ct_kernel_size m) * snd (ct_kernel_size m) * ct_out_channels m)
  | BatchNorm2d_layer m => bn_weight m = Filled 1 /\ bn_bias m = Filled 0
  end.

(** No initialisation but the one of the layer's own constructor. *)
Definition untouched (l : layer init) : Prop :=
  match l with
  | Conv2d_layer m => weight m = FrameworkDefault
  | ConvTranspose2d_layer m => ct_weight m = FrameworkDefault
  | BatchNorm2d_layer m => bn_weight m = FrameworkDefault /\ bn_bias m = FrameworkDefault
  end.

(** [up.forward] and [ConvTransposeLayer.forward] take two arguments;
    here the two are one pair, so that every [forward] has one input. *)
Definition up_forward2 {T P : Type} {TO : TensorOps T P} (m : up P) (x : T * T)
  : option (T * up P) :=
  up_forward m (fst x) (snd x).

Definition ConvTransposeLayer_forward2 {T P : Type} {TO : TensorOps T P}
  (m : ConvTransposeLayer P) (x : T * Size) : option (T * ConvTransposeLayer P) :=
  ConvTransposeLayer_forward m (fst x) (snd x).

(** [UResNet.forward] up to [relu12]: all of it but its last call,
    [x = self.conv13(x)]. *)
Definition UResNet_features {T P : Type} {TO : TensorOps T P} (m : UResNet P) (x : T)
  : option (T * UResNet P) :=
  x <- conv2d (conv1 m) x ;;
  '(x, bn1') <- BatchNorm2d_forward (bn1 m) x ;;
  let x := relu x in
  x <- conv2d (conv2 m) x ;;
  '(x, bn2') <- BatchNorm2d_forward (bn2 m) x ;;
  let x := relu x in
  x <- conv2d (conv3 m) x ;;
  '(x, bn3') <- BatchNorm2d_forward (bn3 m) x ;;
  let x0 := relu x in
  '(x1, enc_layer1') <- DoubleResNet_forward (enc_layer1 m) x0 ;;
  '(x2, enc_layer2') <- DoubleResNet_forward (enc_layer2 m) x1 ;;
  '(x3, enc_layer3') <- DoubleResNet_forward (enc_layer3 m) x2 ;;
  '(x4, enc_layer4') <- DoubleResNet_forward (enc_layer4 m) x3 ;;
  '(x, dec_layer4') <- ConvTransposeLayer_forward (dec_layer4 m) x4 (size x3) ;;
  x <- cat x x3 ;;
  '(x, dec_layer3') <- ConvTransposeLayer_forward (dec_layer3 m) x (size x2) ;;
  x <- cat x x2 ;;
  '(x, dec_layer2') <- ConvTransposeLayer_forward (dec_layer2 m) x (size x1) ;;
  x <- cat x x1 ;;
  '(x, dec_layer1') <- ConvTransposeLayer_forward (dec_layer1 m) x (size x0) ;;
  x <- conv2d (conv10 m) x ;;
  '(x, bn10') <- BatchNorm2d_forward (bn10 m) x ;;
  let x := relu x in
  x <- conv2d (conv11 m) x ;;
  '(x, bn11') <- BatchNorm2d_forward (bn11 m) x ;;
  let x := relu x in
  x <- conv2d (conv12 m) x ;;
  '(x, bn12') <- BatchNorm2d_forward (bn12 m) x ;;
  let x := relu x in
  Some (x, {| inplanes := inplanes m; showsizes := showsizes m;
              conv1 := conv1 m; bn1 := bn1'; conv2 := conv2 m; bn2 := bn2';
              conv3 := conv3 m; bn3 := bn3';
              enc_layer1 := enc_layer1'; enc_layer2 := enc_layer2';
              enc_layer3 := enc_layer3'; enc_layer4 := enc_layer4';
              dec_layer4 := dec_layer4'; dec_layer3 := dec_layer3';
              dec_layer2 := dec_layer2'; dec_layer1 := dec_layer1';
              nkernels := nkernels m;
              conv10 := conv10 m; bn10 := bn10'; conv11 := conv11 m; bn11 := bn11';
              conv12 := conv12 m; bn12 := bn12'; conv13 := conv13 m |}).

(** A module class whose [forward] keeps no state, as C8 states it: the
    module after a call is the module before it. *)
Definition stateless {I T X : Type} (forward : X -> I -> option (T * X)) : Prop :=
  forall m x y m', forward m x = Some (y, m') -> m' = m.

(** A module class whose [forward] writes nothing but running statistics:
    the module after a call differs from the module before it at most in
    the running statistics of its batch normalisations, it is in the same
    mode, and in evaluation mode it is the module before the call. *)
Definition writes_only_statistics {I T P X : Type}
  (forward : X -> I -> option (T * X)) (apply : visitor P -> X -> X) : Prop :=
  forall m x y m',
    forward m x = Some (y, m') ->
    (forall mean var count,
        apply (set_stats mean var count) m' = apply (set_stats mean var count) m)
    /\ (forall mode, apply (set_training mode) m = m -> apply (set_training mode) m' = m')
    /\ (apply (set_training false) m = m -> m' = m).

(** A layer before and after a forward call in training mode that ran it
    once: a convolution or a transposed convolution is as it was; a batch
    normalisation has counted one more batch and its running mean and
    variance are the framework's update of what they were with a batch [x],
    the rest of it as it was. *)
Definition trained_once {T P : Type} {TO : TensorOps T P} (l l' : layer P) : Prop :=
  match l, l' with
  | Conv2d_layer a, Conv2d_layer b => b = a
  | ConvTranspose2d_layer a, ConvTranspose2d_layer b => b = a
  | BatchNorm2d_layer a, BatchNorm2d_layer b =>
      num_features b = num_features a
      /\ bn_weight b = bn_weight a /\ bn_bias b = bn_bias a
      /\ training b = training a
      /\ num_batches_tracked b = wrap_int64 (num_batches_tracked a + 1)
      /\ exists x : T,
          running_mean b = update_running_mean (running_mean a) x
          /\ running_var b = update_running_var (running_var a) x
  | _, _ => False
  end.

(** A module class whose [forward], in training mode, updates the running
    statistics of every batch normalisation of the module, once; [modules]
    lists the layers of a module. *)
Definition updates_statistics {I T P X : Type} {TO : TensorOps T P}
  (forward : X -> I -> option (T * X)) (apply : visitor P -> X -> X)
  (modules : X -> list (layer P)) : Prop :=
  forall m x y m',
    apply (set_training true) m = m ->
    forward m x = Some (y, m') ->
    Forall2 (trained_once (T:=T)) (modules m) (modules m').

(** A module class whose [forward], in training mode, reads nothing but
    the input, the configuration and the learned parameters: two modules
    in training mode that differ at most in running statistics return the
    same tensor, or both raise. *)
Definition reads_only_weights {I T P X : Type}
  (forward : X -> I -> option (T * X)) (apply : visitor P -> X -> X) : Prop :=
  forall mean var count m1 m2 x,
    apply (set_stats mean var count) m1 = apply (set_stats mean var count) m2 ->
    apply (set_training true) m1 = m1 ->
    apply (set_training true) m2 = m2 ->
    output (forward m1 x) = output (forward m2 x).

(** C9 as the claim states it: two modules with identical weights, which
    differ at most in the running statistics of their batch
    normalisations, return the same tensor for the same input (or both
    raise). *)
Definition function_of_weights {I T P X : Type}
  (forward : X -> I -> option (T * X)) (apply : visitor P -> X -> X) : Prop :=
  forall mean var count m1 m2 x,
    apply (set_stats mean var count) m1 = apply (set_stats mean var count) m2 ->
    output (forward m1 x) = output (forward m2 x).

(** A module class whose [forward], called again on the module the first
    call left and on the same input, returns the same tensor; the module
    is in training mode or in evaluation mode throughout. *)
Definition repeatable {I T P X : Type}
  (forward : X -> I -> option (T * X)) (apply : visitor P -> X -> X) : Prop :=
  forall mode m x y m',
    apply (set_training mode) m = m ->
    forward m x = Some (y, m') ->
    output (forward m' x) = Some y.

(** ** What the further properties speak of *)

(** A call whose outcome is [r] returns [s] exactly when [C] holds, and
    raises exactly when it does not. *)
Definition returns_exactly_when {A : Type} (r : option A) (s : A) (C : Prop) : Prop :=
  (r = Some s <-> C) /\ (r = None <-> ~ C).

(** The counter of batches seen, of a batch normalisation; the other
    layers have none. *)
Definition batches_tracked {P : Type} (l : layer P) : list Z :=
  match l with
  | BatchNorm2d_layer m => [num_batches_tracked m]
  | _ => []
  end.

(** The counters of the batch normalisations among [ls], in order. *)
Definition counters {P : Type} (ls : list (layer P)) : list Z :=
  flat_map batches_tracked ls.

(** The counter after one more batch. *)
Definition one_more (k : Z) : Z := wrap_int64 (k + 1).

(** Two layers of one kind that differ at most in what the initialisation
    loop of [UResNet.__init__] writes: the weight of a convolution or of a
    transposed convolution, the weight and the bias of a batch
    normalisation. *)
Definition same_but_weights {P : Type} (l l' : layer P) : Prop :=
  match l, l' with
  | Conv2d_layer a, Conv2d_layer b =>
      in_channels a = in_channels b /\ out_channels a = out_channels b
      /\ kernel_size a = kernel_size b /\ stride a = stride b
      /\ padding a = padding b /\ bias a = bias b
  | ConvTranspose2d_layer a, ConvTranspose2d_layer b =>
      ct_in_channels a = ct_in_channels b /\ ct_out_channels a = ct_out_channels b
      /\ ct_kernel_size a = ct_kernel_size b /\ ct_stride a = ct_stride b
      /\ ct_padding a = ct_padding b /\ ct_bias a = ct_bias b
  | BatchNorm2d_layer a, BatchNorm2d_layer b =>
      num_features a = num_features b
      /\ running_mean a = running_mean b /\ running_var a = running_var b
      /\ num_batches_tracked a = num_batches_tracked b
      /\ training a = training b
  | _, _ => False
  end.

(** ** BasicBlock and conv3x3

    base_model.py defines [BasicBlock] and instantiates it nowhere.
    [downsample] is the module passed to [__init__], of a class [D] that
    base_model.py does not fix, or [None]. *)

Set Implicit Arguments.

Record BasicBlock (P D : Type) : Type := mk_BasicBlock {
  bb_conv1 : Conv2d P;
  bb_bn1 : BatchNorm2d P;
  bb_conv2 : Conv2d P;
  bb_bn2 : BatchNorm2d P;
  bb_downsample : option D;
  bb_stride : Z }.

Unset Implicit Arguments.

(** [a += b]: the sum is written into [a], whose size cannot change. *)
Class InplaceOps (T : Type) : Type := {
  add_ : T -> T -> option T }.

Section BasicBlocks.
Context {T P D : Type} {PO : ParamOps P} {TO : TensorOps T P} {IO : InplaceOps T}.

Definition conv3x3 (in_planes out_planes stride : Z) : Conv2d P :=
  nn_Conv2d in_planes out_planes 3 stride 1 false.

Definition BasicBlock_init (inplanes planes stride : Z) (downsample : option D)
  : BasicBlock P D :=
  {| bb_conv1 := conv3x3 inplanes planes stride;
     bb_bn1 := nn_BatchNorm2d planes;
     bb_conv2 := conv3x3 planes planes 1;
     bb_bn2 := nn_BatchNorm2d planes;
     bb_downsample := downsample;
     bb_stride := stride |}.

(** A walk over the layers of a block; [on_downsample] is the walk over
    the layers of [downsample]. *)
Definition BasicBlock_apply (v : visitor P) (on_downsample : D -> D) (m : BasicBlock P D)
  : BasicBlock P D :=
  {| bb_conv1 := on_conv v (bb_conv1 m);
     bb_bn1 := on_bn v (bb_bn1 m);
     bb_conv2 := on_conv v (bb_conv2 m);
     bb_bn2 := on_bn v (bb_bn2 m);
     bb_downsample := option_map on_downsample (bb_downsample m);
     bb_stride := bb_stride m |}.

(** [downsample_forward] is the [forward] of the class of [downsample]. *)
Definition BasicBlock_forward (downsample_forward : D -> T -> option (T * D))
  (m : BasicBlock P D) (x : T) : option (T * BasicBlock P D) :=
  let residual := x in
  out <- conv2d (bb_conv1 m) x ;;
  '(out, bn1') <- BatchNorm2d_forward (bb_bn1 m) out ;;
  let out := relu out in
  out <- conv2d (bb_conv2 m) out ;;
  '(out, bn2') <- BatchNorm2d_forward (bb_bn2 m) out ;;
  '(residual, downsample') <- match bb_downsample m with
                              | Some downsample =>
                                  '(r, d) <- downsample_forward downsample x ;;
                                  Some (r, Some d)
                              | None => Some (residual, None)
                              end ;;
  out <- add_ out residual ;;
  let out := relu out in
  Some (out, {| bb_conv1 := bb_conv1 m; bb_bn1 := bn1'; bb_conv2 := bb_conv2 m;
                bb_bn2 := bn2'; bb_downsample := downsample';
                bb_stride := bb_stride m |}).

End BasicBlocks.

Definition Size_eqb (a b : Size) : bool :=
  (batch a =? batch b) && (channels a =? channels b)
  && (height a =? height b) && (width a =? width b).

(** [a += b] on sizes: the two sizes broadcast, and to the size of [a]. *)
Definition size_add_ (a b : Size) : option Size :=
  r <- size_add a b ;;
  if Size_eqb r a then Some a else None.

#[export] Instance SizeInplaceOps : InplaceOps Size := {| add_ := size_add_ |}.

(** A downsample module that is one convolution. *)
Definition Conv2d_forward {T P : Type} {TO : TensorOps T P} (m : Conv2d P) (x : T)
  : option (T * Conv2d P) :=
  y <- conv2d m x ;;
  Some (y, m).

(** ** One-pixel images in exact arithmetic

    A tensor of size (1, c, 1, 1) is the list of its c values, rational
    numbers.  A parameter tensor all of whose entries are one rational
    number [q] is [Some q]; any other parameter tensor is [None].  On such
    tensors the primitives are given where their result is again an image
    of one pixel and rational arithmetic gives it exactly; elsewhere they
    are [None], which then says nothing about the framework. *)

Definition Pixel : Type := list Q.

#[export] Instance FilledOps : ParamOps (option Q) :=
  {| default_init := None;
     normal_ := fun _ _ _ _ => None;
     fill_ := fun _ v => Some (inject_Z v);
     zero_ := fun _ => Some 0%Q |}.

Definition pixel_size (x : Pixel) : Size :=
  {| batch := 1; channels := Z.of_nat (length x); height := 1; width := 1 |}.

Definition pixel_sum (x : Pixel) : Q := fold_right Qplus 0%Q x.

(** The bias of a convolution: none is zero. *)
Definition pixel_bias (b : option (option Q)) : option Q :=
  match b with
  | None => Some 0%Q
  | Some b => b
  end.

(** A convolution with all weights [w] and all biases [b], when it has one
    output pixel and its window holds the pixel of the input: every output
    channel is [b] plus [w] times the sum of the input channels. *)
Definition pixel_conv2d (m : Conv2d (option Q)) (x : Pixel) : option Pixel :=
  s <- size_conv2d m (pixel_size x) ;;
  w <- weight m ;;
  b <- pixel_bias (bias m) ;;
  if (height s =? 1) && (width s =? 1) && (0 <=? padding m)
     && (padding m <? fst (kernel_size m)) && (padding m <? snd (kernel_size m))
  then Some (repeat (b + w * pixel_sum x)%Q (Z.to_nat (channels s)))
  else None.

(** The same for a transposed convolution. *)
Definition pixel_conv_transpose2d (m : ConvTranspose2d (option Q)) (output_size : option Size)
  (x : Pixel) : option Pixel :=
  s <- size_conv_transpose2d m output_size (pixel_size x) ;;
  w <- ct_weight m ;;
  b <- pixel_bias (ct_bias m) ;;
  if (height s =? 1) && (width s =? 1) && (0 <=? ct_padding m)
     && (ct_padding m <? fst (ct_kernel_size m)) && (ct_padding m <? snd (ct_kernel_size m))
  then Some (repeat (b + w * pixel_sum x)%Q (Z.to_nat (channels s)))
  else None.

(** [eps] of [nn.BatchNorm2d]. *)
Definition eps : Q := 1 # 100000.

(** Batch normalisation in evaluation mode,
    [(x - mean) / sqrt(var + eps) * weight + bias], where [var + eps] is 1. *)
Definition pixel_batch_norm_eval (n : Z) (mean var w b : option Q) (x : Pixel)
  : option Pixel :=
  mean <- mean ;; var <- var ;; w <- w ;; b <- b ;;
  if (Z.of_nat (length x) =? n) && Qeq_bool (var + eps) 1
  then Some (map (fun v => (v - mean) * w + b)%Q x)
  else None.

Definition pixel_relu (x : Pixel) : Pixel :=
  map (fun v => if Qle_bool 0 v then v else 0%Q) x.

(** [a + b] with broadcasting over the channels. *)
Definition pixel_add (a b : Pixel) : option Pixel :=
  match a, b with
  | [u], _ => Some (map (Qplus u) b)
  | _, [v] => Some (map (fun u => u + v)%Q a)
  | _, _ => if (length a =? length b)%nat
            then Some (map (fun uv : Q * Q => fst uv + snd uv)%Q (combine a b))
            else None
  end.

#[export] Instance PixelOps : TensorOps Pixel (option Q) :=
  {| size := pixel_size;
     conv2d := pixel_conv2d;
     conv_transpose2d := pixel_conv_transpose2d;
     (* one value per channel: the framework raises *)
     batch_norm_train := fun _ _ _ _ => None;
     batch_norm_eval := pixel_batch_norm_eval;
     update_running_mean := fun r _ => r;
     update_running_var := fun r _ => r;
     relu := pixel_relu;
     max_pool2d := fun m x => if pool_kernel_size m =? 1 then Some x else None;
     upsample := fun m x => if scale_factor m =? 1 then Some x else None;
     pad := fun x p => match p with
                       | (0, 0, 0, 0) => Some x
                       | _ => None
                       end;
     cat := fun a b => Some (a ++ b);
     add := pixel_add |}.

(** Every parameter tensor filled with a constant: the weights of the
    convolutions with [w], their biases with [b], the weights and biases of
    the batch normalisations with [gamma] and [beta], their running means
    and variances with [mean] and [var]. *)
Definition filled_with (w b gamma beta mean var : Q) : visitor (option Q) :=
  {| on_conv := fun m =>
       {| in_channels := in_channels m; out_channels := out_channels m;
          kernel_size := kernel_size m; stride := stride m; padding := padding m;
          weight := Some w;
          bias := option_map (fun _ => Some b) (bias m) |};
     on_deconv := fun m =>
       {| ct_in_channels := ct_in_channels m; ct_out_channels := ct_out_channels m;
          ct_kernel_size := ct_kernel_size m; ct_stride := ct_stride m;
          ct_padding := ct_padding m;
          ct_weight := Some w;
          ct_bias := option_map (fun _ => Some b) (ct_bias m) |};
     on_bn := fun m =>
       {| num_features := num_features m;
          bn_weight := Some gamma;
          bn_bias := Some beta;
          running_mean := Some mean;
          running_var := Some var;
          num_batches_tracked := num_batches_tracked m;
          training := training m |} |}.

(** Modules in evaluation mode with every parameter tensor filled, the
    running variances with 1 - [eps]: a [double_conv] of one channel, and a
    UResNet of two classes, one input channel and [inplanes] 1. *)
Definition filled_double_conv (mean : Q) : double_conv (option Q) :=
  double_conv_apply (filled_with 1 0 1 0 mean (99999 # 100000))
    (double_conv_apply (set_training false) (double_conv_init 1 1)).

Definition filled_UResNet (w b gamma beta mean : Q) : UResNet (option Q) :=
  UResNet_apply (filled_with w b gamma beta mean (99999 # 100000))
    (UResNet_apply (set_training false) (UResNet_init 2 1 1 false)).

(** * Proofs *)

Ltac zdiv := Z.to_euclidean_division_equations; nia.

Lemma bind_some {A B : Type} (m : option A) (k : A -> option B) (b : B) :
  bind m k = Some b -> exists a, m = Some a /\ k a = Some b.
Proof. destruct m as [a|]; [eauto | discriminate]. Qed.

Lemma output_some {T S : Type} (r : option (T * S)) (y : T) :
  output r = Some y -> exists s, r = Some (y, s).
Proof.
  destruct r as [[y' s]|]; simpl; intros H; [|discriminate].
  injection H as ->. now exists s.
Qed.

(** Runs the call whose output lemma [H] gives. *)
Ltac run H :=
  let s := fresh "s" in
  let E := fresh "E" in
  destruct (output_some _ _ H) as [s E]; rewrite E; cbn [bind]; clear E.

Lemma prod3_eq_1 n h w : 1 <= h -> 1 <= w -> n * h * w = 1 -> n = 1 /\ h = 1 /\ w = 1.
Proof.
  intros Hh Hw E.
  destruct (Z.eq_mul_1_nonneg' (n * h) w ltac:(lia) E) as [E1 ->].
  destruct (Z.eq_mul_1_nonneg' n h ltac:(lia) E1) as [-> ->].
  auto.
Qed.

Lemma bn_fits_le mode n h w h' w' :
  1 <= h' <= h -> 1 <= w' <= w -> bn_fits mode n h' w' -> bn_fits mode n h w.
Proof.
  unfold bn_fits. intros Hh Hw H Hm E. apply (H Hm).
  destruct (prod3_eq_1 n h w ltac:(lia) ltac:(lia) E) as (-> & -> & ->).
  assert (h' = 1) as -> by lia. assert (w' = 1) as -> by lia. reflexivity.
Qed.

Lemma bn_fits_big mode n h w : 2 <= h -> 1 <= w -> bn_fits mode n h w.
Proof.
  intros Hh Hw _ E.
  destruct (prod3_eq_1 n h w ltac:(lia) ltac:(lia) E) as (_ & -> & _). lia.
Qed.

Section SizeLemmas.
Context {P : Type} {PO : ParamOps P}.
Variable mode : bool.
Variable v : visitor P.
Hypothesis Hv : keeps_config mode v.

Lemma conv2d_size in_ch out_ch k s p b n c h w :
  c = in_ch -> 0 < s -> k <= h + 2 * p -> k <= w + 2 * p ->
  conv2d (on_conv v (nn_Conv2d in_ch out_ch k s p b)) (mkSize n c h w)
  = Some (mkSize n out_ch (window_out h k s p) (window_out w k s p)).
Proof.
  intros -> Hs Hh Hw.
  destruct (kc_conv mode v Hv (nn_Conv2d in_ch out_ch k s p b)) as (E1 & E2 & E3 & E4 & E5).
  cbn in E1, E2, E3, E4, E5.
  cbn [conv2d SizeOps]. unfold size_conv2d. rewrite E1, E2, E3, E4, E5.
  cbn [batch channels height width].
  rewrite Z.eqb_refl.
  destruct (Z.ltb_spec 0 s); [|lia].
  destruct (Z.leb_spec k (h + 2 * p)); [|lia].
  destruct (Z.leb_spec k (w + 2 * p)); [|lia].
  reflexivity.
Qed.

Lemma BatchNorm2d_size nf n c h w :
  c = nf -> bn_fits mode n h w ->
  output (BatchNorm2d_forward (on_bn v (nn_BatchNorm2d nf)) (mkSize n c h w))
  = Some (mkSize n c h w).
Proof.
  intros -> Hf.
  destruct (kc_bn mode v Hv (nn_BatchNorm2d nf)) as (E1 & E2).
  cbn in E1. specialize (E2 eq_refl).
  unfold BatchNorm2d_forward. rewrite E1, E2.
  destruct mode; cbn [batch_norm_train batch_norm_eval SizeOps];
    unfold size_batch_norm; cbn [batch channels height width];
    rewrite Z.eqb_refl; cbn [andb negb].
  - destruct (Z.eqb_spec (n * h * w) 1) as [E|E]; [now destruct (Hf eq_refl)|].
    reflexivity.
  - reflexivity.
Qed.

Lemma double_conv_size in_ch out_ch n c h w :
  c = in_ch -> 1 <= h -> 1 <= w -> bn_fits mode n h w ->
  output (double_conv_forward (double_conv_apply v (double_conv_init in_ch out_ch))
            (mkSize n c h w))
  = Some (mkSize n out_ch h w).
Proof.
  intros Hc Hh Hw Hf.
  assert (W : forall l, 1 <= l -> window_out l 3 1 1 = l)
    by (intros; unfold window_out; rewrite Z.div_1_r; lia).
  unfold double_conv_forward.
  cbn [double_conv_apply double_conv_init conv_0 conv_1 conv_3 conv_4].
  rewrite (conv2d_size in_ch out_ch 3 1 1 true n c h w) by lia.
  cbn [bind]. rewrite !W by lia.
  run (BatchNorm2d_size out_ch n out_ch h w eq_refl Hf).
  cbn [relu SizeOps].
  rewrite (conv2d_size out_ch out_ch 3 1 1 true n out_ch h w) by lia.
  cbn [bind]. rewrite !W by lia.
  run (BatchNorm2d_size out_ch n out_ch h w eq_refl Hf).
  reflexivity.
Qed.

Lemma inconv_size in_ch out_ch n c h w :
  c = in_ch -> 1 <= h -> 1 <= w -> bn_fits mode n h w ->
  output (inconv_forward (inconv_apply v (inconv_init in_ch out_ch)) (mkSize n c h w))
  = Some (mkSize n out_ch h w).
Proof.
  intros Hc Hh Hw Hf.
  unfold inconv_forward. cbn [inconv_apply inconv_init inconv_conv].
  run (double_conv_size in_ch out_ch n c h w Hc Hh Hw Hf).
  reflexivity.
Qed.

Lemma max_pool2d_size n c h w :
  2 <= h -> 2 <= w ->
  max_pool2d (P:=P) (mkMaxPool2d 2) (mkSize n c h w) = Some (mkSize n c (h / 2) (w / 2)).
Proof.
  intros Hh Hw. cbn [max_pool2d SizeOps]. unfold size_max_pool2d, window_out.
  cbn [pool_kernel_size batch channels height width].
  replace ((h + 2 * 0 - 2) / 2 + 1) with (h / 2) by zdiv.
  replace ((w + 2 * 0 - 2) / 2 + 1) with (w / 2) by zdiv.
  destruct (Z.leb_spec 1 (h / 2)); [|zdiv].
  destruct (Z.leb_spec 1 (w / 2)); [|zdiv].
  reflexivity.
Qed.

Lemma down_size in_ch out_ch n c h w :
  c = in_ch -> 2 <= h -> 2 <= w -> bn_fits mode n (h / 2) (w / 2) ->
  output (down_forward (down_apply v (down_init in_ch out_ch)) (mkSize n c h w))
  = Some (mkSize n out_ch (h / 2) (w / 2)).
Proof.
  intros Hc Hh Hw Hf.
  unfold down_forward. cbn [down_apply down_init mpconv_0 mpconv_1].
  rewrite max_pool2d_size by assumption. cbn [bind].
  run (double_conv_size in_ch out_ch n c (h / 2) (w / 2) Hc ltac:(zdiv) ltac:(zdiv) Hf).
  reflexivity.
Qed.

Lemma pad_dim_fill len d :
  0 <= len -> 1 <= len + d -> pad_dim len (d / 2) (d - d / 2) = Some (len + d).
Proof.
  intros Hl Hd. unfold pad_dim, narrow.
  destruct (Z.ltb_spec (d / 2) 0) as [L|L].
  - destruct (Z.leb_spec 0 (- (d / 2))); [|lia].
    destruct (Z.leb_spec 0 (len + d / 2)); [|zdiv].
    destruct (Z.leb_spec (- (d / 2) + (len + d / 2)) len); [|lia].
    cbn [andb bind].
    destruct (Z.ltb_spec (d - d / 2) 0) as [R|R].
    + rewrite Z.leb_refl.
      destruct (Z.leb_spec 0 (len + d / 2 + (d - d / 2))); [|lia].
      destruct (Z.leb_spec (0 + (len + d / 2 + (d - d / 2))) (len + d / 2)); [|lia].
      cbn [andb bind].
      destruct (Z.ltb_spec 0 (len + d / 2 + (d - d / 2))); [|lia].
      f_equal. lia.
    + cbn [bind].
      destruct (Z.ltb_spec 0 (len + d / 2 + (d - d / 2))); [|lia].
      f_equal. lia.
  - cbn [bind].
    destruct (Z.ltb_spec (d - d / 2) 0) as [R|R]; [zdiv|].
    cbn [bind].
    destruct (Z.ltb_spec 0 (len + d / 2 + (d - d / 2))); [|lia].
    f_equal. lia.
Qed.

Lemma pad_size n c h w x2 :
  0 <= h -> 0 <= w -> 1 <= height x2 -> 1 <= width x2 ->
  pad (P:=P) (mkSize n c h w) (up_padding x2 (mkSize n c h w))
  = Some (mkSize n c (height x2) (width x2)).
Proof.
  intros Hh Hw Hh2 Hw2.
  cbn [pad SizeOps]. unfold size_pad, up_padding.
  cbn [batch channels height width].
  rewrite (pad_dim_fill w (width x2 - w)) by lia.
  rewrite (pad_dim_fill h (height x2 - h)) by lia.
  cbn [bind]. do 2 f_equal; lia.
Qed.

Lemma up_padded_size in_ch out_ch bilinear n c1 h1 w1 x2 :
  (bilinear = false -> c1 = in_ch / 2) ->
  1 <= h1 -> 1 <= w1 -> 1 <= height x2 -> 1 <= width x2 ->
  up_padded (up_apply v (up_init in_ch out_ch bilinear)) (mkSize n c1 h1 w1) x2
  = Some (mkSize n c1 (height x2) (width x2)).
Proof.
  intros Hc Hh1 Hw1 Hh2 Hw2.
  unfold up_padded, up_init. cbn [up_apply up_up].
  destruct bilinear; cbn [upsampler_apply].
  - cbn [upsample SizeOps]. unfold size_upsample.
    cbn [scale_factor batch channels height width].
    destruct (Z.ltb_spec 0 h1); [|lia]. destruct (Z.ltb_spec 0 w1); [|lia].
    cbn [andb Z.ltb Z.compare bind size SizeOps].
    apply pad_size; lia.
  - destruct (kc_deconv mode v Hv (nn_ConvTranspose2d (in_ch / 2) (in_ch / 2) 2 2 0 true))
      as (E1 & E2 & E3 & E4 & E5).
    cbn in E1, E2, E3, E4, E5.
    cbn [conv_transpose2d SizeOps]. unfold size_conv_transpose2d.
    rewrite E1, E2, E3, E4, E5. cbn [batch channels height width].
    rewrite <- (Hc eq_refl), Z.eqb_refl.
    destruct (Z.ltb_spec 0 h1); [|lia]. destruct (Z.ltb_spec 0 w1); [|lia].
    cbn [andb Z.ltb Z.compare bind size SizeOps].
    apply pad_size; unfold deconv_min; lia.
Qed.

Lemma up_size in_ch out_ch bilinear n c1 h1 w1 c2 h2 w2 :
  c2 + c1 = in_ch -> (bilinear = false -> c1 = in_ch / 2) ->
  1 <= h1 -> 1 <= w1 -> 1 <= h2 -> 1 <= w2 -> bn_fits mode n h2 w2 ->
  output (up_forward (up_apply v (up_init in_ch out_ch bilinear))
            (mkSize n c1 h1 w1) (mkSize n c2 h2 w2))
  = Some (mkSize n out_ch h2 w2).
Proof.
  intros Hc Hb Hh1 Hw1 Hh2 Hw2 Hf.
  unfold up_forward.
  rewrite (up_padded_size in_ch out_ch bilinear n c1 h1 w1 (mkSize n c2 h2 w2))
    by assumption.
  cbn [bind cat SizeOps]. unfold size_cat. cbn [batch channels height width].
  rewrite !Z.eqb_refl. cbn [andb bind].
  unfold up_init. cbn [up_apply up_conv].
  run (double_conv_size in_ch out_ch n _ h2 w2 Hc Hh2 Hw2 Hf).
  reflexivity.
Qed.

Lemma outconv_size in_ch out_ch n c h w :
  c = in_ch -> 1 <= h -> 1 <= w ->
  output (outconv_forward (outconv_apply v (outconv_init in_ch out_ch)) (mkSize n c h w))
  = Some (mkSize n out_ch h w).
Proof.
  intros Hc Hh Hw.
  unfold outconv_forward. cbn [outconv_apply outconv_init outconv_conv].
  rewrite (conv2d_size in_ch out_ch 1 1 0 true n c h w) by lia.
  cbn [bind output option_map fst]. unfold window_out.
  rewrite !Z.div_1_r. do 2 f_equal; lia.
Qed.

Lemma UNet_size n_channels n_classes n c h w :
  c = n_channels -> 16 <= h -> 16 <= w -> bn_fits mode n (h / 16) (w / 16) ->
  output (UNet_forward (UNet_apply v (UNet_init n_channels n_classes)) (mkSize n c h w))
  = Some (mkSize n n_classes h w).
Proof.
  intros Hc Hh Hw Hf.
  assert (F1 : bn_fits mode n h w) by (apply bn_fits_big; lia).
  assert (F2 : bn_fits mode n (h / 2) (w / 2)) by (apply bn_fits_big; zdiv).
  assert (F3 : bn_fits mode n (h / 2 / 2) (w / 2 / 2)) by (apply bn_fits_big; zdiv).
  assert (F4 : bn_fits mode n (h / 2 / 2 / 2) (w / 2 / 2 / 2)) by (apply bn_fits_big; zdiv).
  assert (F5 : bn_fits mode n (h / 2 / 2 / 2 / 2) (w / 2 / 2 / 2 / 2)).
  { replace (h / 2 / 2 / 2 / 2) with (h / 16) by zdiv.
    replace (w / 2 / 2 / 2 / 2) with (w / 16) by zdiv. assumption. }
  unfold UNet_forward.
  cbn [UNet_apply UNet_init inc down1 down2 down3 down4 up1 up2 up3 up4 outc].
  run (inconv_size n_channels 64 n c h w Hc ltac:(lia) ltac:(lia) F1).
  run (down_size 64 128 n 64 h w eq_refl ltac:(lia) ltac:(lia) F2).
  run (down_size 128 256 n 128 (h / 2) (w / 2) eq_refl ltac:(zdiv) ltac:(zdiv) F3).
  run (down_size 256 512 n 256 (h / 2 / 2) (w / 2 / 2) eq_refl ltac:(zdiv) ltac:(zdiv) F4).
  run (down_size 512 512 n 512 (h / 2 / 2 / 2) (w / 2 / 2 / 2) eq_refl
         ltac:(zdiv) ltac:(zdiv) F5).
  run (up_size 1024 256 true n 512 (h / 2 / 2 / 2 / 2) (w / 2 / 2 / 2 / 2)
         512 (h / 2 / 2 / 2) (w / 2 / 2 / 2) eq_refl ltac:(discriminate)
         ltac:(zdiv) ltac:(zdiv) ltac:(zdiv) ltac:(zdiv) F4).
  run (up_size 512 128 true n 256 (h / 2 / 2 / 2) (w / 2 / 2 / 2)
         256 (h / 2 / 2) (w / 2 / 2) eq_refl ltac:(discriminate)
         ltac:(zdiv) ltac:(zdiv) ltac:(zdiv) ltac:(zdiv) F3).
  run (up_size 256 64 true n 128 (h / 2 / 2) (w / 2 / 2)
         128 (h / 2) (w / 2) eq_refl ltac:(discriminate)
         ltac:(zdiv) ltac:(zdiv) ltac:(zdiv) ltac:(zdiv) F2).
  run (up_size 128 64 true n 64 (h / 2) (w / 2)
         64 h w eq_refl ltac:(discriminate)
         ltac:(zdiv) ltac:(zdiv) ltac:(lia) ltac:(lia) F1).
  run (outconv_size 64 n_classes n 64 h w eq_refl ltac:(lia) ltac:(lia)).
  reflexivity.
Qed.

Lemma window_1 l : window_out l 1 1 0 = l.
Proof. unfold window_out. rewrite Z.div_1_r. lia. Qed.

Lemma window_3 l s : window_out l 3 s 1 = (l - 1) / s + 1.
Proof. unfold window_out. do 2 f_equal. lia. Qed.

Lemma window_s l s : window_out l 1 s 0 = (l - 1) / s + 1.
Proof. unfold window_out. do 2 f_equal. lia. Qed.

Lemma strided_bounds l s : 1 <= s -> 1 <= l -> 1 <= (l - 1) / s + 1 <= l.
Proof. intros. zdiv. Qed.

Lemma add_same (x : Size) : add (P:=P) x x = Some x.
Proof.
  cbn [add SizeOps]. unfold size_add, broadcast. rewrite !Z.eqb_refl.
  cbn [bind]. now destruct x.
Qed.

Lemma Bottleneck_size inplanes planes stride n c h w :
  c = inplanes -> 1 <= stride -> 1 < stride \/ inplanes = planes ->
  1 <= h -> 1 <= w ->
  bn_fits mode n ((h - 1) / stride + 1) ((w - 1) / stride + 1) ->
  output (Bottleneck_forward (Bottleneck_apply v (Bottleneck_init inplanes planes stride))
            (mkSize n c h w))
  = Some (mkSize n planes ((h - 1) / stride + 1) ((w - 1) / stride + 1)).
Proof.
  intros Hc Hs Hp Hh Hw Hf.
  pose proof (strided_bounds h stride Hs Hh) as Bh.
  pose proof (strided_bounds w stride Hs Hw) as Bw.
  assert (F1 : bn_fits mode n h w) by (apply (bn_fits_le mode n h w _ _ Bh Bw Hf)).
  unfold Bottleneck_forward.
  cbn [Bottleneck_apply Bottleneck_init b_conv1 b_bn1 b_conv2 b_bn2 b_conv3 b_bn3
       b_stride b_shortcut].
  assert (E : (bypass <- match option_map (on_conv v)
                                 (if 1 <? stride
                                  then Some (nn_Conv2d inplanes planes 1 stride 0 false)
                                  else None)
                         with
                         | None => Some (mkSize n c h w)
                         | Some shortcut => conv2d shortcut (mkSize n c h w)
                         end ;; Some bypass)
              = Some (mkSize n planes ((h - 1) / stride + 1) ((w - 1) / stride + 1))).
  { destruct (Z.ltb_spec 1 stride) as [L|L]; cbn [option_map].
    - rewrite (conv2d_size inplanes planes 1 stride 0 false n c h w) by lia.
      cbn [bind]. now rewrite !window_s.
    - assert (stride = 1) as -> by lia. destruct Hp as [Hp|Hp]; [lia|].
      cbn [bind]. rewrite !Z.div_1_r. do 2 f_equal; lia. }
  destruct (match option_map (on_conv v) _ with
            | None => Some (mkSize n c h w)
            | Some shortcut => conv2d shortcut (mkSize n c h w)
            end) as [bypass|]; cbn [bind] in E |- *; [|discriminate].
  injection E as ->.
  rewrite (conv2d_size inplanes planes 1 1 0 false n c h w) by lia.
  cbn [bind]. rewrite !window_1.
  run (BatchNorm2d_size planes n planes h w eq_refl F1).
  cbn [relu SizeOps].
  rewrite (conv2d_size planes planes 3 stride 1 false n planes h w) by lia.
  cbn [bind]. rewrite !window_3.
  run (BatchNorm2d_size planes n planes _ _ eq_refl Hf).
  rewrite (conv2d_size planes planes 1 1 0 false n planes) by lia.
  cbn [bind]. rewrite !window_1.
  run (BatchNorm2d_size planes n planes _ _ eq_refl Hf).
  rewrite add_same. reflexivity.
Qed.

Lemma DoubleResNet_size inplanes planes stride n c h w :
  c = inplanes -> 1 <= stride -> 1 < stride \/ inplanes = planes ->
  1 <= h -> 1 <= w ->
  bn_fits mode n ((h - 1) / stride + 1) ((w - 1) / stride + 1) ->
  output (DoubleResNet_forward
            (DoubleResNet_apply v (DoubleResNet_init inplanes planes stride))
            (mkSize n c h w))
  = Some (mkSize n planes ((h - 1) / stride + 1) ((w - 1) / stride + 1)).
Proof.
  intros Hc Hs Hp Hh Hw Hf.
  pose proof (strided_bounds h stride Hs Hh) as Bh.
  pose proof (strided_bounds w stride Hs Hw) as Bw.
  unfold DoubleResNet_forward. cbn [DoubleResNet_apply DoubleResNet_init res1 res2].
  run (Bottleneck_size inplanes planes stride n c h w Hc Hs Hp Hh Hw Hf).
  assert (Hf' : bn_fits mode n (((h - 1) / stride + 1 - 1) / 1 + 1)
                               (((w - 1) / stride + 1 - 1) / 1 + 1)).
  { rewrite !Z.div_1_r.
    replace ((h - 1) / stride + 1 - 1 + 1) with ((h - 1) / stride + 1) by lia.
    replace ((w - 1) / stride + 1 - 1 + 1) with ((w - 1) / stride + 1) by lia.
    assumption. }
  run (Bottleneck_size planes planes 1 n planes _ _ eq_refl ltac:(lia)
         (or_intror eq_refl) (proj1 Bh) (proj1 Bw) Hf').
  cbn [output option_map fst]. rewrite !Z.div_1_r. do 2 f_equal; lia.
Qed.

Lemma ConvTransposeLayer_size inplanes outplanes stride n c h w o :
  c = inplanes -> 1 <= h -> 1 <= w ->
  2 * h - 1 <= height o <= 2 * h -> 2 * w - 1 <= width o <= 2 * w ->
  bn_fits mode n h w ->
  output (ConvTransposeLayer_forward
            (ConvTransposeLayer_apply v (ConvTransposeLayer_init inplanes outplanes stride))
            (mkSize n c h w) o)
  = Some (mkSize n outplanes (height o) (width o)).
Proof.
  intros Hc Hh Hw Ho Hq Hf.
  unfold ConvTransposeLayer_forward.
  cbn [ConvTransposeLayer_apply ConvTransposeLayer_init res deconv].
  assert (Hf' : bn_fits mode n ((h - 1) / 1 + 1) ((w - 1) / 1 + 1)).
  { rewrite !Z.div_1_r. replace (h - 1 + 1) with h by lia.
    replace (w - 1 + 1) with w by lia. assumption. }
  run (Bottleneck_size inplanes inplanes 1 n c h w Hc ltac:(lia) (or_intror eq_refl)
         Hh Hw Hf').
  rewrite !Z.div_1_r. replace (h - 1 + 1) with h by lia. replace (w - 1 + 1) with w by lia.
  destruct (kc_deconv mode v Hv (nn_ConvTranspose2d inplanes outplanes 3 2 1 false))
    as (E1 & E2 & E3 & E4 & E5).
  cbn in E1, E2, E3, E4, E5.
  cbn [conv_transpose2d SizeOps]. unfold size_conv_transpose2d, deconv_min.
  rewrite E1, E2, E3, E4, E5. cbn [batch channels height width].
  rewrite Z.eqb_refl.
  destruct (Z.ltb_spec 0 h); [|lia]. destruct (Z.ltb_spec 0 w); [|lia].
  cbn [andb Z.ltb Z.compare].
  destruct (Z.leb_spec ((h - 1) * 2 - 2 * 1 + 3) (height o)); [|lia].
  destruct (Z.leb_spec (height o) ((h - 1) * 2 - 2 * 1 + 3 + 2 - 1)); [|lia].
  destruct (Z.leb_spec ((w - 1) * 2 - 2 * 1 + 3) (width o)); [|lia].
  destruct (Z.leb_spec (width o) ((w - 1) * 2 - 2 * 1 + 3 + 2 - 1)); [|lia].
  reflexivity.
Qed.

Lemma halving_bounds l : 1 <= l -> 1 <= (l - 1) / 2 + 1 <= l.
Proof. intros. zdiv. Qed.

Lemma halving_target l : 1 <= l -> 2 * ((l - 1) / 2 + 1) - 1 <= l <= 2 * ((l - 1) / 2 + 1).
Proof. intros. zdiv. Qed.

Lemma halving_four_times l :
  1 <= l -> ((((l - 1) / 2 + 1 - 1) / 2 + 1 - 1) / 2 + 1 - 1) / 2 + 1 = ceil_div l 16.
Proof. intros. unfold ceil_div. zdiv. Qed.

Lemma UResNet_size num_classes input_channels inplanes showsizes n c h w :
  c = input_channels -> 1 <= h -> 1 <= w ->
  bn_fits mode n (ceil_div h 16) (ceil_div w 16) ->
  output (UResNet_forward
            (UResNet_apply v (UResNet_layers num_classes input_channels inplanes showsizes))
            (mkSize n c h w))
  = Some (mkSize n num_classes h w).
Proof.
  intros Hc Hh Hw Hf.
  rewrite <- (halving_four_times h Hh), <- (halving_four_times w Hw) in Hf.
  set (h1 := (h - 1) / 2 + 1) in *. set (w1 := (w - 1) / 2 + 1) in *.
  set (h2 := (h1 - 1) / 2 + 1) in *. set (w2 := (w1 - 1) / 2 + 1) in *.
  set (h3 := (h2 - 1) / 2 + 1) in *. set (w3 := (w2 - 1) / 2 + 1) in *.
  set (h4 := (h3 - 1) / 2 + 1) in *. set (w4 := (w3 - 1) / 2 + 1) in *.
  pose proof (halving_bounds h Hh) as Bh1. fold h1 in Bh1.
  pose proof (halving_bounds w Hw) as Bw1. fold w1 in Bw1.
  pose proof (halving_bounds h1 (proj1 Bh1)) as Bh2. fold h2 in Bh2.
  pose proof (halving_bounds w1 (proj1 Bw1)) as Bw2. fold w2 in Bw2.
  pose proof (halving_bounds h2 (proj1 Bh2)) as Bh3. fold h3 in Bh3.
  pose proof (halving_bounds w2 (proj1 Bw2)) as Bw3. fold w3 in Bw3.
  pose proof (halving_bounds h3 (proj1 Bh3)) as Bh4. fold h4 in Bh4.
  pose proof (halving_bounds w3 (proj1 Bw3)) as Bw4. fold w4 in Bw4.
  assert (F3 : bn_fits mode n h3 w3) by (apply (bn_fits_le mode n h3 w3 h4 w4); auto).
  assert (F2 : bn_fits mode n h2 w2) by (apply (bn_fits_le mode n h2 w2 h3 w3); auto).
  assert (F1 : bn_fits mode n h1 w1) by (apply (bn_fits_le mode n h1 w1 h2 w2); auto).
  assert (F0 : bn_fits mode n h w) by (apply (bn_fits_le mode n h w h1 w1); auto).
  assert (W : forall l, (l - 1) / 1 + 1 = l) by (intros; rewrite Z.div_1_r; lia).
  unfold UResNet_forward, UResNet_layers, _make_encoding_layer, _make_decoding_layer.
  cbn [UResNet_apply conv1 bn1 conv2 bn2 conv3 bn3
       enc_layer1 enc_layer2 enc_layer3 enc_layer4
       dec_layer4 dec_layer3 dec_layer2 dec_layer1
       nkernels conv10 bn10 conv11 bn11 conv12 bn12 conv13].
  (* stem *)
  rewrite (conv2d_size input_channels inplanes 3 1 1 true n c h w) by lia.
  cbn [bind]. rewrite !window_3, !W.
  run (BatchNorm2d_size inplanes n inplanes h w eq_refl F0). cbn [relu SizeOps].
  rewrite (conv2d_size inplanes inplanes 3 1 1 true n inplanes h w) by lia.
  cbn [bind]. rewrite !window_3, !W.
  run (BatchNorm2d_size inplanes n inplanes h w eq_refl F0). cbn [relu SizeOps].
  rewrite (conv2d_size inplanes inplanes 3 1 1 true n inplanes h w) by lia.
  cbn [bind]. rewrite !window_3, !W.
  run (BatchNorm2d_size inplanes n inplanes h w eq_refl F0). cbn [relu SizeOps].
  (* encoder *)
  run (DoubleResNet_size (inplanes * 1) (inplanes * 2) 2 n inplanes h w
         ltac:(lia) ltac:(lia) (or_introl (eq_refl : 1 < 2)) Hh Hw F1).
  fold h1 w1.
  run (DoubleResNet_size (inplanes * 2) (inplanes * 4) 2 n (inplanes * 2) h1 w1
         eq_refl ltac:(lia) (or_introl (eq_refl : 1 < 2)) (proj1 Bh1) (proj1 Bw1) F2).
  fold h2 w2.
  run (DoubleResNet_size (inplanes * 4) (inplanes * 8) 2 n (inplanes * 4) h2 w2
         eq_refl ltac:(lia) (or_introl (eq_refl : 1 < 2)) (proj1 Bh2) (proj1 Bw2) F3).
  fold h3 w3.
  run (DoubleResNet_size (inplanes * 8) (inplanes * 16) 2 n (inplanes * 8) h3 w3
         eq_refl ltac:(lia) (or_introl (eq_refl : 1 < 2)) (proj1 Bh3) (proj1 Bw3) Hf).
  fold h4 w4.
  (* decoder *)
  cbn [size SizeOps].
  run (ConvTransposeLayer_size (inplanes * 16) (inplanes * 8) 2 n (inplanes * 16) h4 w4
         (mkSize n (inplanes * 8) h3 w3) eq_refl (proj1 Bh4) (proj1 Bw4)
         (halving_target h3 (proj1 Bh3)) (halving_target w3 (proj1 Bw3)) Hf).
  cbn [cat SizeOps height width]. unfold size_cat. cbn [batch channels height width].
  rewrite !Z.eqb_refl. cbn [andb bind].
  run (ConvTransposeLayer_size (inplanes * 8 * 2) (inplanes * 4) 2 n
         (inplanes * 8 + inplanes * 8) h3 w3
         (mkSize n (inplanes * 4) h2 w2) ltac:(lia) (proj1 Bh3) (proj1 Bw3)
         (halving_target h2 (proj1 Bh2)) (halving_target w2 (proj1 Bw2)) F3).
  cbn [height width]. unfold size_cat. cbn [batch channels height width].
  rewrite !Z.eqb_refl. cbn [andb bind].
  run (ConvTransposeLayer_size (inplanes * 4 * 2) (inplanes * 2) 2 n
         (inplanes * 4 + inplanes * 4) h2 w2
         (mkSize n (inplanes * 2) h1 w1) ltac:(lia) (proj1 Bh2) (proj1 Bw2)
         (halving_target h1 (proj1 Bh1)) (halving_target w1 (proj1 Bw1)) F2).
  cbn [height width]. unfold size_cat. cbn [batch channels height width].
  rewrite !Z.eqb_refl. cbn [andb bind].
  run (ConvTransposeLayer_size (inplanes * 2 * 2) (inplanes * 1) 2 n
         (inplanes * 2 + inplanes * 2) h1 w1
         (mkSize n inplanes h w) ltac:(lia) (proj1 Bh1) (proj1 Bw1)
         (halving_target h Hh) (halving_target w Hw) F1).
  cbn [height width].
  (* output stem *)
  rewrite (conv2d_size inplanes 16 3 1 1 true n (inplanes * 1) h w) by lia.
  cbn [bind]. rewrite !window_3, !W.
  run (BatchNorm2d_size 16 n 16 h w eq_refl F0). cbn [relu SizeOps].
  rewrite (conv2d_size 16 (16 * 2) 3 1 1 true n 16 h w) by lia.
  cbn [bind]. rewrite !window_3, !W.
  run (BatchNorm2d_size (16 * 2) n (16 * 2) h w eq_refl F0). cbn [relu SizeOps].
  rewrite (conv2d_size (16 * 2) 16 3 1 1 true n (16 * 2) h w) by lia.
  cbn [bind]. rewrite !window_3, !W.
  run (BatchNorm2d_size 16 n 16 h w eq_refl F0). cbn [relu SizeOps].
  rewrite (conv2d_size 16 num_classes 1 1 0 true n 16 h w) by lia.
  cbn [bind output option_map fst]. now rewrite !window_1.
Qed.

End SizeLemmas.

(** ** Walks that keep the configuration *)

Lemma set_training_keeps_config {P : Type} (mode : bool) :
  keeps_config mode (set_training (P:=P) mode).
Proof. constructor; intros m; cbn; auto 6. Qed.

Lemma initialization_keeps_config {P : Type} {PO : ParamOps P} :
  keeps_config true (initialization (P:=P)).
Proof. constructor; intros m; cbn; auto 6. Qed.

Lemma then_visit_keeps_config {P : Type} (mode : bool) (w v : visitor P) :
  keeps_config true w -> keeps_config mode v -> keeps_config mode (then_visit w v).
Proof.
  intros Hw Hv. constructor; intros m; cbn.
  - destruct (kc_conv _ _ Hv (on_conv w m)) as (-> & -> & -> & -> & ->).
    apply (kc_conv _ _ Hw).
  - destruct (kc_deconv _ _ Hv (on_deconv w m)) as (-> & -> & -> & -> & ->).
    apply (kc_deconv _ _ Hw).
  - destruct (kc_bn _ _ Hv (on_bn w m)) as (-> & E).
    destruct (kc_bn _ _ Hw m) as (-> & E').
    auto.
Qed.

Section Fusion.
Context {P : Type}.
Variables w v : visitor P.

Lemma Bottleneck_apply_apply m :
  Bottleneck_apply v (Bottleneck_apply w m) = Bottleneck_apply (then_visit w v) m.
Proof. destruct m as [? ? ? ? ? ? ? [?|]]; reflexivity. Qed.

Lemma DoubleResNet_apply_apply m :
  DoubleResNet_apply v (DoubleResNet_apply w m) = DoubleResNet_apply (then_visit w v) m.
Proof.
  unfold DoubleResNet_apply. cbn [res1 res2]. now rewrite !Bottleneck_apply_apply.
Qed.

Lemma ConvTransposeLayer_apply_apply m :
  ConvTransposeLayer_apply v (ConvTransposeLayer_apply w m)
  = ConvTransposeLayer_apply (then_visit w v) m.
Proof.
  unfold ConvTransposeLayer_apply. cbn [res deconv]. now rewrite !Bottleneck_apply_apply.
Qed.

Lemma UResNet_apply_apply m :
  UResNet_apply v (UResNet_apply w m) = UResNet_apply (then_visit w v) m.
Proof.
  unfold UResNet_apply.
  cbn [inplanes showsizes conv1 bn1 conv2 bn2 conv3 bn3
       enc_layer1 enc_layer2 enc_layer3 enc_layer4
       dec_layer4 dec_layer3 dec_layer2 dec_layer1
       nkernels conv10 bn10 conv11 bn11 conv12 bn12 conv13].
  now rewrite !DoubleResNet_apply_apply, !ConvTransposeLayer_apply_apply.
Qed.

End Fusion.

(** ** The size of what the networks return *)

Section Networks.
Context {P : Type} {PO : ParamOps P}.

Lemma UNet_forward_size mode n_channels n_classes n h w :
  16 <= h -> 16 <= w -> bn_fits mode n (h / 16) (w / 16) ->
  output (UNet_forward (UNet_apply (set_training mode) (UNet_init n_channels n_classes))
            (mkSize n n_channels h w))
  = Some (mkSize n n_classes h w).
Proof.
  intros. apply (UNet_size mode); auto using set_training_keeps_config.
Qed.

Lemma UResNet_forward_size mode num_classes input_channels inplanes showsizes n h w :
  1 <= h -> 1 <= w -> bn_fits mode n (ceil_div h 16) (ceil_div w 16) ->
  output (UResNet_forward
            (UResNet_apply (set_training mode)
               (UResNet_init num_classes input_channels inplanes showsizes))
            (mkSize n input_channels h w))
  = Some (mkSize n num_classes h w).
Proof.
  intros. unfold UResNet_init. rewrite UResNet_apply_apply.
  apply (UResNet_size mode); auto.
  apply then_visit_keeps_config;
    auto using set_training_keeps_config, initialization_keeps_config.
Qed.

Lemma UNet_train_init n_channels n_classes :
  UNet_apply (set_training true) (UNet_init (P:=P) n_channels n_classes)
  = UNet_init n_channels n_classes.
Proof. reflexivity. Qed.

Lemma UResNet_train_init num_classes input_channels inplanes showsizes :
  UResNet_apply (set_training true)
    (UResNet_init (P:=P) num_classes input_channels inplanes showsizes)
  = UResNet_init num_classes input_channels inplanes showsizes.
Proof. reflexivity. Qed.

End Networks.

Lemma ceil_div_exact a b : 0 < b -> (b | a) -> ceil_div a b = a / b.
Proof.
  intros Hb [q ->]. unfold ceil_div.
  rewrite <- Z.mul_opp_l, !Z.div_mul by lia. lia.
Qed.

(** C1, as the claim states it, at batch 1 and 16x16, a size the four
    halvings of UNet divide exactly: the model as constructed raises. *)
Lemma UNet_forward_batch1_16x16_raises :
  output (UNet_forward (UNet_init (P:=init) 3 5) (mkSize 1 3 16 16)) = None.
Proof. reflexivity. Qed.

(** C1 (amended): for an input of size (batch, in_channels, H, W) with
    batch >= 1 and H, W positive multiples of 16, and, when the model is in
    training mode (as constructed), more than one value per channel left at
    the deepest stage (batch * H/16 * W/16 <> 1), UNet.forward returns a
    tensor of size (batch, n_classes, H, W) and UResNet.forward one of size
    (batch, num_classes, H, W). *)
Theorem forward_restores_input_size {P : Type} {PO : ParamOps P} (mode : bool)
  (n_channels n_classes num_classes input_channels inplanes : Z) (showsizes : bool)
  (n h w : Z) :
  0 < n_channels -> 0 < n_classes ->
  0 < num_classes -> 0 < input_channels -> 0 < inplanes ->
  1 <= n -> 0 < h -> 0 < w -> (16 | h) -> (16 | w) ->
  (mode = true -> n * (h / 16) * (w / 16) <> 1) ->
  output (UNet_forward (UNet_apply (set_training mode) (UNet_init n_channels n_classes))
            (mkSize n n_channels h w))
  = Some (mkSize n n_classes h w)
  /\ output (UResNet_forward
               (UResNet_apply (set_training mode)
                  (UResNet_init num_classes input_channels inplanes showsizes))
               (mkSize n input_channels h w))
     = Some (mkSize n num_classes h w).
Proof.
  intros _ _ _ _ _ Hn Hh Hw Dh Dw Hf.
  assert (16 <= h) by (destruct Dh as [q ->]; lia).
  assert (16 <= w) by (destruct Dw as [q ->]; lia).
  split.
  - apply UNet_forward_size; auto.
  - apply UResNet_forward_size; try lia.
    rewrite !ceil_div_exact by (auto; lia). exact Hf.
Qed.

Lemma forward_restores_input_size_witness :
  output (UNet_forward (UNet_apply (set_training true) (UNet_init (P:=init) 3 5))
            (mkSize 2 3 64 64))
  = Some (mkSize 2 5 64 64)
  /\ output (UResNet_forward
               (UResNet_apply (set_training true) (UResNet_init (P:=init) 2 1 16 false))
               (mkSize 2 1 64 64))
     = Some (mkSize 2 2 64 64).
Proof.
  apply (forward_restores_input_size true 3 5 2 1 16 false 2 64 64); try lia.
  - exists 4. reflexivity.
  - exists 4. reflexivity.
Defined.

(** The two end-to-end examples of the specification. *)
Example UResNet_forward_2_1_64_64 :
  output (UResNet_forward (UResNet_init (P:=init) 2 1 16 false) (mkSize 2 1 64 64))
  = Some (mkSize 2 2 64 64).
Proof. reflexivity. Qed.

Example UNet_forward_1_3_128_128 :
  output (UNet_forward (UNet_init (P:=init) 3 5) (mkSize 1 3 128 128))
  = Some (mkSize 1 5 128 128).
Proof. reflexivity. Qed.

(** C2: every decoder stage returns a tensor with the height and width of
    the skip tensor it is paired with, whatever the parity of that height
    and width.  In UNet, [up.forward] pads the upsampled [x1] to the size
    of the skip tensor [x2] before concatenating them, and returns a tensor
    of that height and width; this holds for every height and width of [x1]
    and [x2].  In UResNet, a decoding layer fed a tensor that an encoding
    layer made from one of height [h] and width [w] (height
    [(h - 1) / 2 + 1], the halving rounded up), and given the size of that
    tensor as [output_size], returns a tensor of height [h] and width [w].
    In training mode the batch normalisations must see more than one value
    per channel. *)
Theorem decoder_matches_skip {P : Type} {PO : ParamOps P} (mode : bool) :
  (forall in_ch out_ch bilinear n c1 h1 w1 c2 h2 w2,
      c2 + c1 = in_ch -> (bilinear = false -> c1 = in_ch / 2) ->
      1 <= h1 -> 1 <= w1 -> 1 <= h2 -> 1 <= w2 -> bn_fits mode n h2 w2 ->
      let m := up_apply (set_training mode) (up_init in_ch out_ch bilinear) in
      let x1 := mkSize n c1 h1 w1 in
      let x2 := mkSize n c2 h2 w2 in
      up_padded m x1 x2 = Some (mkSize n c1 h2 w2)
      /\ output (up_forward m x1 x2) = Some (mkSize n out_ch h2 w2))
  /\ (forall inplanes outplanes stride n c h w,
        1 <= h -> 1 <= w ->
        bn_fits mode n ((h - 1) / 2 + 1) ((w - 1) / 2 + 1) ->
        let m := ConvTransposeLayer_apply (set_training mode)
                   (ConvTransposeLayer_apply initialization
                      (ConvTransposeLayer_init inplanes outplanes stride)) in
        let skip := mkSize n c h w in
        output (ConvTransposeLayer_forward m
                  (mkSize n inplanes ((h - 1) / 2 + 1) ((w - 1) / 2 + 1)) skip)
        = Some (mkSize n outplanes h w))
  /\ (forall n_channels n_classes n h w,
        16 <= h -> 16 <= w -> bn_fits mode n (h / 16) (w / 16) ->
        output (UNet_forward
                  (UNet_apply (set_training mode) (UNet_init n_channels n_classes))
                  (mkSize n n_channels h w))
        = Some (mkSize n n_classes h w))
  /\ (forall num_classes input_channels inplanes showsizes n h w,
        1 <= h -> 1 <= w -> bn_fits mode n (ceil_div h 16) (ceil_div w 16) ->
        output (UResNet_forward
                  (UResNet_apply (set_training mode)
                     (UResNet_init num_classes input_channels inplanes showsizes))
                  (mkSize n input_channels h w))
        = Some (mkSize n num_classes h w)).
Proof.
  split; [|split; [|split]].
  - intros in_ch out_ch bilinear n c1 h1 w1 c2 h2 w2 Hc Hb Hh1 Hw1 Hh2 Hw2 Hf m x1 x2.
    pose proof (set_training_keeps_config (P:=P) mode) as Hv.
    split.
    + apply (up_padded_size mode _ Hv in_ch out_ch bilinear n c1 h1 w1 x2); assumption.
    + apply (up_size mode _ Hv); assumption.
  - intros inplanes outplanes stride n c h w Hh Hw Hf m skip.
    subst m. rewrite ConvTransposeLayer_apply_apply.
    apply (ConvTransposeLayer_size mode (then_visit initialization (set_training mode))).
    + apply then_visit_keeps_config;
        auto using set_training_keeps_config, initialization_keeps_config.
    + reflexivity.
    + apply halving_bounds; assumption.
    + apply halving_bounds; assumption.
    + apply halving_target; assumption.
    + apply halving_target; assumption.
    + assumption.
  - intros. now apply UNet_forward_size.
  - intros. now apply UResNet_forward_size.
Qed.

Lemma decoder_matches_skip_witness :
  (up_padded (up_apply (set_training true) (up_init (P:=init) 128 64 true))
     (mkSize 2 64 8 8) (mkSize 2 64 17 17)
   = Some (mkSize 2 64 17 17)
   /\ output (up_forward (up_apply (set_training true) (up_init (P:=init) 128 64 true))
                (mkSize 2 64 8 8) (mkSize 2 64 17 17))
      = Some (mkSize 2 64 17 17))
  /\ output (ConvTransposeLayer_forward
               (ConvTransposeLayer_apply (set_training true)
                  (ConvTransposeLayer_apply initialization
                     (ConvTransposeLayer_init (P:=init) 64 16 2)))
               (mkSize 2 64 9 9) (mkSize 2 16 17 17))
     = Some (mkSize 2 16 17 17)
  /\ output (UNet_forward (UNet_apply (set_training true) (UNet_init (P:=init) 3 5))
               (mkSize 2 3 17 31))
     = Some (mkSize 2 5 17 31)
  /\ output (UResNet_forward
               (UResNet_apply (set_training true) (UResNet_init (P:=init) 2 1 16 false))
               (mkSize 2 1 63 37))
     = Some (mkSize 2 2 63 37).
Proof.
  split; [|split; [|split]].
  - apply (proj1 (decoder_matches_skip (P:=init) true) 128 64 true 2 64 8 8 64 17 17);
      try lia; discriminate.
  - apply (proj1 (proj2 (decoder_matches_skip (P:=init) true)) 64 16 2 2 16 17 17);
      try lia; discriminate.
  - apply (proj1 (proj2 (proj2 (decoder_matches_skip (P:=init) true))) 3 5 2 17 31);
      try lia; discriminate.
  - apply (proj2 (proj2 (proj2 (decoder_matches_skip (P:=init) true))) 2 1 16 false 2 63 37);
      try lia; discriminate.
Defined.

(** ** Initialisation *)

Section WalkModules.
Context {P : Type}.
Variable v : visitor P.

Lemma double_conv_modules_apply m :
  double_conv_modules (double_conv_apply v m) = map (visit v) (double_conv_modules m).
Proof. reflexivity. Qed.

Lemma up_modules_apply m :
  up_modules (up_apply v m) = map (visit v) (up_modules m).
Proof.
  unfold up_modules. rewrite map_app. cbn [up_apply up_up up_conv].
  now destruct (up_up m).
Qed.

Lemma UNet_modules_apply m :
  UNet_modules (UNet_apply v m) = map (visit v) (UNet_modules m).
Proof.
  unfold UNet_modules. rewrite !map_app.
  cbn [UNet_apply inc down1 down2 down3 down4 up1 up2 up3 up4 outc].
  now rewrite !up_modules_apply.
Qed.

Lemma Bottleneck_modules_apply m :
  Bottleneck_modules (Bottleneck_apply v m) = map (visit v) (Bottleneck_modules m).
Proof.
  unfold Bottleneck_modules. rewrite map_app. cbn [Bottleneck_apply b_shortcut].
  now destruct (b_shortcut m).
Qed.

Lemma DoubleResNet_modules_apply m :
  DoubleResNet_modules (DoubleResNet_apply v m) = map (visit v) (DoubleResNet_modules m).
Proof.
  unfold DoubleResNet_modules. rewrite map_app. cbn [DoubleResNet_apply res1 res2].
  now rewrite !Bottleneck_modules_apply.
Qed.

Lemma ConvTransposeLayer_modules_apply m :
  ConvTransposeLayer_modules (ConvTransposeLayer_apply v m)
  = map (visit v) (ConvTransposeLayer_modules m).
Proof.
  unfold ConvTransposeLayer_modules. rewrite map_app.
  cbn [ConvTransposeLayer_apply res deconv].
  now rewrite !Bottleneck_modules_apply.
Qed.

Lemma UResNet_modules_apply m :
  UResNet_modules (UResNet_apply v m) = map (visit v) (UResNet_modules m).
Proof.
  unfold UResNet_modules. rewrite !map_app.
  cbn [UResNet_apply conv1 bn1 conv2 bn2 conv3 bn3
       enc_layer1 enc_layer2 enc_layer3 enc_layer4
       dec_layer4 dec_layer3 dec_layer2 dec_layer1
       conv10 bn10 conv11 bn11 conv12 bn12 conv13].
  now rewrite !DoubleResNet_modules_apply, !ConvTransposeLayer_modules_apply.
Qed.

End WalkModules.

Lemma visit_initialization (l : layer init) : initialized (visit initialization l).
Proof. destruct l; cbn; auto. Qed.

(** C3, as the claim states it, on a UNet: its first convolution has the
    weight its own constructor left, which the rule of the claim does not
    describe. *)
Lemma UNet_init_not_initialized :
  ~ Forall initialized (UNet_modules (UNet_init (P:=init) 3 5)).
Proof.
  intros H. inversion H as [|l ls H1 _]. cbn in H1. discriminate H1.
Qed.

(** C3 (amended): when a UResNet is constructed, every convolution and
    transposed-convolution weight is drawn by [normal_(0, sqrt(2 / n))]
    with [n] the kernel area times the output channels, and every batch
    normalisation has weight filled with one and bias with zero.  A UNet is
    constructed without an initialisation of its own: every layer keeps
    what its constructor left. *)
Theorem UResNet_init_initialized
  (num_classes input_channels inplanes n_channels n_classes : Z) (showsizes : bool) :
  0 < num_classes -> 0 < input_channels -> 0 < inplanes ->
  0 < n_channels -> 0 < n_classes ->
  Forall initialized
    (UResNet_modules (UResNet_init num_classes input_channels inplanes showsizes))
  /\ Forall untouched (UNet_modules (UNet_init n_channels n_classes)).
Proof.
  intros _ _ _ _ _. split.
  - unfold UResNet_init. rewrite UResNet_modules_apply.
    apply Forall_forall. intros l Hl. apply in_map_iff in Hl.
    destruct Hl as (l0 & <- & _). apply visit_initialization.
  - cbn. repeat constructor.
Qed.

Lemma UResNet_init_initialized_witness :
  Forall initialized (UResNet_modules (UResNet_init 2 1 16 false))
  /\ Forall untouched (UNet_modules (UNet_init 3 5)).
Proof. apply (UResNet_init_initialized 2 1 16 3 5 false); lia. Defined.

(** ** Residual blocks and encoder stages *)

(** C4, as the claim states it, at Bottleneck(16, 32, stride=1) and an
    input with 16 channels: there is no shortcut, and adding the 16-channel
    input to the 32-channel residual raises. *)
Lemma Bottleneck_16_32_stride1_raises :
  b_shortcut (Bottleneck_init (P:=init) 16 32 1) = None
  /\ output (Bottleneck_forward (Bottleneck_init (P:=init) 16 32 1) (mkSize 2 16 8 8))
     = None.
Proof. split; reflexivity. Qed.

(** C4 (amended): for Bottleneck(inplanes, planes, stride) with stride >= 1
    and either stride > 1 or inplanes = planes, and every input with
    inplanes channels, height and width at least 1 and, in training mode,
    more than one value per channel after the stride, the forward pass
    succeeds and returns planes channels, with height (H - 1) / stride + 1
    and width (W - 1) / stride + 1; the 1x1 shortcut with that stride is
    there exactly when stride > 1. *)
Theorem Bottleneck_forward_size {P : Type} {PO : ParamOps P} (mode : bool)
  (inplanes planes stride n h w : Z) :
  0 < inplanes -> 0 < planes -> 1 <= stride ->
  1 < stride \/ inplanes = planes ->
  1 <= h -> 1 <= w ->
  (mode = true -> n * ((h - 1) / stride + 1) * ((w - 1) / stride + 1) <> 1) ->
  output (Bottleneck_forward
            (Bottleneck_apply (set_training mode) (Bottleneck_init inplanes planes stride))
            (mkSize n inplanes h w))
  = Some (mkSize n planes ((h - 1) / stride + 1) ((w - 1) / stride + 1))
  /\ (b_shortcut (Bottleneck_init (P:=P) inplanes planes stride)
      = if 1 <? stride then Some (nn_Conv2d inplanes planes 1 stride 0 false) else None).
Proof.
  intros _ _ Hs Hp Hh Hw Hf. split.
  - apply (Bottleneck_size mode); auto using set_training_keeps_config.
  - reflexivity.
Qed.

Lemma Bottleneck_forward_size_witness :
  output (Bottleneck_forward
            (Bottleneck_apply (set_training true) (Bottleneck_init (P:=init) 16 32 2))
            (mkSize 2 16 9 8))
  = Some (mkSize 2 32 5 4)
  /\ b_shortcut (Bottleneck_init (P:=init) 16 32 2)
     = Some (nn_Conv2d 16 32 1 2 0 false).
Proof.
  apply (Bottleneck_forward_size (P:=init) true 16 32 2 2 9 8); lia.
Defined.

(** C5, as the claim states it, at the fourth down stage of a UNet: a
    tensor with 512 channels comes out with 512 channels, not 1024. *)
Lemma UNet_down4_keeps_512_channels :
  output (down_forward (down4 (UNet_init (P:=init) 3 5)) (mkSize 2 512 4 4))
  = Some (mkSize 2 512 2 2).
Proof. reflexivity. Qed.

(** C5 (amended): the first three down stages of UNet (64 to 128, 128 to
    256, 256 to 512) and the four encoding layers of UResNet (inplanes
    times 1, 2, 4, 8 to twice that) double the channel count of their
    input; the fourth down stage of UNet keeps it at 512. *)
Theorem encoder_channel_schedule {P : Type} {PO : ParamOps P} (mode : bool)
  (n_channels n_classes num_classes input_channels inplanes : Z) (showsizes : bool)
  (n h w : Z) :
  0 < n_channels -> 0 < n_classes ->
  0 < num_classes -> 0 < input_channels -> 0 < inplanes ->
  2 <= h -> 2 <= w -> (mode = true -> n * (h / 2) * (w / 2) <> 1) ->
  let unet := UNet_apply (set_training mode) (UNet_init n_channels n_classes) in
  let uresnet := UResNet_apply (set_training mode)
                   (UResNet_init num_classes input_channels inplanes showsizes) in
  let down_to m c := option_map channels (output (down_forward m (mkSize n c h w))) in
  let enc_to m c := option_map channels (output (DoubleResNet_forward m (mkSize n c h w))) in
  down_to (down1 unet) 64 = Some (2 * 64)
  /\ down_to (down2 unet) 128 = Some (2 * 128)
  /\ down_to (down3 unet) 256 = Some (2 * 256)
  /\ down_to (down4 unet) 512 = Some 512
  /\ enc_to (enc_layer1 uresnet) inplanes = Some (2 * inplanes)
  /\ enc_to (enc_layer2 uresnet) (inplanes * 2) = Some (2 * (inplanes * 2))
  /\ enc_to (enc_layer3 uresnet) (inplanes * 4) = Some (2 * (inplanes * 4))
  /\ enc_to (enc_layer4 uresnet) (inplanes * 8) = Some (2 * (inplanes * 8)).
Proof.
  intros _ _ _ _ _ Hh Hw Hf unet uresnet down_to enc_to.
  pose proof (set_training_keeps_config (P:=P) mode) as Hv.
  assert (Hv' : keeps_config mode (then_visit (initialization (P:=P)) (set_training mode)))
    by (apply then_visit_keeps_config; auto using initialization_keeps_config).
  assert (Hf' : bn_fits mode n ((h - 1) / 2 + 1) ((w - 1) / 2 + 1)).
  { apply (bn_fits_le mode n _ _ (h / 2) (w / 2)); [zdiv | zdiv | exact Hf]. }
  assert (D : forall i o, output (down_forward (down_apply (set_training mode)
                                                  (down_init i o)) (mkSize n i h w))
                          = Some (mkSize n o (h / 2) (w / 2)))
    by (intros; apply (down_size mode _ Hv); auto).
  assert (E : forall i o, output (DoubleResNet_forward
                                    (DoubleResNet_apply
                                       (then_visit initialization (set_training mode))
                                       (DoubleResNet_init i o 2)) (mkSize n i h w))
                          = Some (mkSize n o ((h - 1) / 2 + 1) ((w - 1) / 2 + 1)))
    by (intros; apply (DoubleResNet_size mode _ Hv'); auto; lia).
  subst down_to enc_to unet uresnet. unfold UResNet_init.
  rewrite UResNet_apply_apply.
  cbn [UNet_apply UNet_init down1 down2 down3 down4
       UResNet_apply UResNet_layers enc_layer1 enc_layer2 enc_layer3 enc_layer4
       _make_encoding_layer].
  rewrite !D.
  replace (mkSize n inplanes h w) with (mkSize n (inplanes * 1) h w) by (f_equal; lia).
  rewrite !E. cbn [option_map channels].
  repeat split; f_equal; lia.
Qed.

Lemma encoder_channel_schedule_witness :
  option_map channels
    (output (down_forward (down1 (UNet_apply (set_training true) (UNet_init (P:=init) 3 5)))
               (mkSize 2 64 8 8)))
  = Some (2 * 64).
Proof.
  apply (encoder_channel_schedule (P:=init) true 3 5 2 1 16 false 2 8 8); lia.
Defined.

(** C6, as the claim states it, at the first down stage of a UNet and a
    1x1 input: max-pooling raises, and the stage returns no tensor. *)
Lemma down_forward_1x1_raises :
  output (down_forward (down_init (P:=init) 64 128) (mkSize 4 64 1 1)) = None.
Proof. reflexivity. Qed.

(** C6 (amended): a down stage of UNet, given a tensor with its input
    channel count and height and width at least 2, returns one of height
    floor(H / 2) and width floor(W / 2); an encoding layer of UResNet,
    given a tensor with its input channel count and height and width at
    least 1, returns one of height ceil(H / 2) and width ceil(W / 2).  In
    training mode the result must hold more than one value per channel. *)
Theorem encoder_halves_resolution {P : Type} {PO : ParamOps P} (mode : bool)
  (in_ch out_ch inplanes planes n h w : Z) :
  0 < in_ch -> 0 < out_ch -> 0 < inplanes -> 0 < planes ->
  (2 <= h -> 2 <= w -> (mode = true -> n * (h / 2) * (w / 2) <> 1) ->
   output (down_forward (down_apply (set_training mode) (down_init in_ch out_ch))
             (mkSize n in_ch h w))
   = Some (mkSize n out_ch (h / 2) (w / 2))
   /\ 2 * (h / 2) <= h < 2 * (h / 2) + 2
   /\ 2 * (w / 2) <= w < 2 * (w / 2) + 2)
  /\ (1 <= h -> 1 <= w -> (mode = true -> n * ceil_div h 2 * ceil_div w 2 <> 1) ->
      output (DoubleResNet_forward
                (DoubleResNet_apply (set_training mode)
                   (DoubleResNet_apply initialization
                      (_make_encoding_layer inplanes planes 2)))
                (mkSize n inplanes h w))
      = Some (mkSize n planes (ceil_div h 2) (ceil_div w 2))
      /\ 2 * ceil_div h 2 - 2 < h <= 2 * ceil_div h 2
      /\ 2 * ceil_div w 2 - 2 < w <= 2 * ceil_div w 2).
Proof.
  intros _ _ _ _.
  pose proof (set_training_keeps_config (P:=P) mode) as Hv.
  assert (Hv' : keeps_config mode (then_visit (initialization (P:=P)) (set_training mode)))
    by (apply then_visit_keeps_config; auto using initialization_keeps_config).
  split.
  - intros Hh Hw Hf. split; [|split].
    + apply (down_size mode _ Hv); auto.
    + zdiv.
    + zdiv.
  - intros Hh Hw Hf.
    assert (Ch : (h - 1) / 2 + 1 = ceil_div h 2) by (unfold ceil_div; zdiv).
    assert (Cw : (w - 1) / 2 + 1 = ceil_div w 2) by (unfold ceil_div; zdiv).
    split; [|split].
    + rewrite DoubleResNet_apply_apply, <- Ch, <- Cw in *. unfold _make_encoding_layer.
      apply (DoubleResNet_size mode _ Hv'); auto; lia.
    + unfold ceil_div. zdiv.
    + unfold ceil_div. zdiv.
Qed.

Lemma encoder_halves_resolution_witness :
  output (down_forward (down_apply (set_training true) (down_init (P:=init) 64 128))
            (mkSize 2 64 9 7))
  = Some (mkSize 2 128 4 3)
  /\ output (DoubleResNet_forward
               (DoubleResNet_apply (set_training true)
                  (DoubleResNet_apply initialization
                     (_make_encoding_layer (P:=init) 16 32 2)))
               (mkSize 2 16 9 7))
     = Some (mkSize 2 32 5 4).
Proof.
  pose proof (encoder_halves_resolution (P:=init) true 64 128 16 32 2 9 7
                ltac:(lia) ltac:(lia) ltac:(lia) ltac:(lia)) as [D E].
  split.
  - apply D; lia.
  - apply E; unfold ceil_div; lia.
Defined.

(** ** Padding in [up.forward] *)

(** The four amounts of [up_padding]: floor(diff/2) on the left (top) and
    diff - floor(diff/2), which is ceil(diff/2), on the right (bottom). *)
Lemma up_padding_floor_ceil (d before after : Z) :
  before = d / 2 /\ after = d - d / 2 <->
  2 * before <= d < 2 * before + 2
  /\ after = d - before
  /\ after = ceil_div d 2
  /\ (Z.odd d = true <-> after = before + 1)
  /\ (Z.even d = true <-> after = before).
Proof.
  unfold ceil_div. rewrite Z.odd_spec, Z.even_spec. split.
  - intros [-> ->]. repeat split; try zdiv.
    + intros [k ->]. zdiv.
    + intros E. exists (d / 2). lia.
    + intros [k ->]. zdiv.
    + intros E. exists (d / 2). lia.
  - intros (B & -> & _). split; [zdiv | f_equal; zdiv].
Qed.

(** C7: in [up.forward] the tensor that reaches [torch.cat] is the
    upsampled [x1], padded: [F.pad] is called on the upsampled tensor with
    the difference [diff] between the size of the skip tensor [x2] and the
    size of the upsampled tensor split as floor(diff/2) on the left (top)
    and diff - floor(diff/2), which is ceil(diff/2), on the right (bottom).
    The two amounts add up to [diff], differ by at most one, and differ by
    exactly one, the larger on the right (bottom), when [diff] is odd.
    [up.forward] then concatenates the skip tensor with that padded tensor
    and runs its convolutions on the result. *)
Theorem up_padding_centres {T P : Type} {TO : TensorOps T P} (m : up P) (x1 x2 : T) :
  (forall y : T,
      up_padded m x1 x2 = Some y <->
      exists u : T,
        match up_up m with
        | Bilinear k => upsample k x1
        | Learned c => conv_transpose2d c None x1
        end = Some u
        /\ exists pad_left pad_right pad_top pad_bottom : Z,
            pad u (pad_left, pad_right, pad_top, pad_bottom) = Some y
            /\ (let diffX := width (size x2) - width (size u) in
                2 * pad_left <= diffX < 2 * pad_left + 2
                /\ pad_right = diffX - pad_left
                /\ pad_right = ceil_div diffX 2
                /\ (Z.odd diffX = true <-> pad_right = pad_left + 1)
                /\ (Z.even diffX = true <-> pad_right = pad_left))
            /\ (let diffY := height (size x2) - height (size u) in
                2 * pad_top <= diffY < 2 * pad_top + 2
                /\ pad_bottom = diffY - pad_top
                /\ pad_bottom = ceil_div diffY 2
                /\ (Z.odd diffY = true <-> pad_bottom = pad_top + 1)
                /\ (Z.even diffY = true <-> pad_bottom = pad_top)))
  /\ (forall (y : T) (m' : up P),
        up_forward m x1 x2 = Some (y, m') <->
        exists (padded x : T) (conv' : double_conv P),
          up_padded m x1 x2 = Some padded
          /\ cat x2 padded = Some x
          /\ double_conv_forward (up_conv m) x = Some (y, conv')
          /\ m' = {| up_up := up_up m; up_conv := conv' |}).
Proof.
  split.
  - intros y. unfold up_padded, up_padding.
    destruct (match up_up m with
              | Bilinear k => upsample k x1
              | Learned c => conv_transpose2d c None x1
              end) as [u|]; cbn [bind].
    + split.
      * intros E. exists u. split; [reflexivity|].
        exists ((width (size x2) - width (size u)) / 2),
          (width (size x2) - width (size u) - (width (size x2) - width (size u)) / 2),
          ((height (size x2) - height (size u)) / 2),
          (height (size x2) - height (size u) - (height (size x2) - height (size u)) / 2).
        split; [exact E|]. cbv zeta.
        split; apply up_padding_floor_ceil; split; reflexivity.
      * intros (u' & Eu & pl & pr & pt & pb & E & HX & HY).
        injection Eu as <-. cbv zeta in HX, HY.
        apply up_padding_floor_ceil in HX. apply up_padding_floor_ceil in HY.
        destruct HX as [-> ->]. destruct HY as [-> ->]. exact E.
    + split; [discriminate|]. intros (u' & Eu & _). discriminate Eu.
  - intros y m'. unfold up_forward. split.
    + intros H.
      apply bind_some in H. destruct H as (padded & E1 & H).
      apply bind_some in H. destruct H as (x & E2 & H).
      apply bind_some in H. destruct H as ([y' conv'] & E3 & H).
      injection H as <- <-. exists padded, x, conv'. auto.
    + intros (padded & x & conv' & E1 & E2 & E3 & ->).
      rewrite E1. cbn [bind]. rewrite E2. cbn [bind]. rewrite E3. reflexivity.
Qed.

Lemma up_padding_centres_witness :
  exists u : Size,
    upsample (P:=init) (mkUpsample 2) (mkSize 2 64 8 8) = Some u
    /\ exists pad_left pad_right pad_top pad_bottom : Z,
        pad (P:=init) u (pad_left, pad_right, pad_top, pad_bottom) = Some (mkSize 2 64 17 15)
        /\ (let diffX := 15 - width u in
            2 * pad_left <= diffX < 2 * pad_left + 2
            /\ pad_right = diffX - pad_left
            /\ pad_right = ceil_div diffX 2
            /\ (Z.odd diffX = true <-> pad_right = pad_left + 1)
            /\ (Z.even diffX = true <-> pad_right = pad_left))
        /\ (let diffY := 17 - height u in
            2 * pad_top <= diffY < 2 * pad_top + 2
            /\ pad_bottom = diffY - pad_top
            /\ pad_bottom = ceil_div diffY 2
            /\ (Z.odd diffY = true <-> pad_bottom = pad_top + 1)
            /\ (Z.even diffY = true <-> pad_bottom = pad_top)).
Proof.
  exact (proj1 (proj1 (up_padding_centres (T:=Size) (up_init (P:=init) 128 64 true)
                         (mkSize 2 64 8 8) (mkSize 2 64 17 15))
                  (mkSize 2 64 17 15))
           eq_refl).
Defined.

(** ** What a forward call reads and writes *)

(** Splits a successful run [H] of a body into its calls. *)
Ltac unbind H :=
  repeat (let a := fresh "r" in
          let E := fresh "E" in
          apply bind_some in H; destruct H as (a & E & H);
          try (destruct a as [? ?]); cbn beta iota zeta in H).

(** The equation [H] between two modules, at the submodule [f]. *)
Tactic Notation "field" hyp(H) uconstr(f) :=
  let H' := fresh H in
  pose proof (f_equal (fun r => f _ r) H) as H';
  cbn beta in H';
  cbn [on_conv on_deconv set_stats set_training option_map
       double_conv_apply inconv_apply down_apply upsampler_apply up_apply
       outconv_apply UNet_apply
       Bottleneck_apply DoubleResNet_apply ConvTransposeLayer_apply UResNet_apply
       conv_0 conv_1 conv_3 conv_4 inconv_conv mpconv_0 mpconv_1 up_up up_conv
       outconv_conv inc down1 down2 down3 down4 up1 up2 up3 up4 outc
       b_conv1 b_bn1 b_conv2 b_bn2 b_conv3 b_bn3 b_stride b_shortcut
       res1 res2 res deconv
       conv1 bn1 conv2 bn2 conv3 bn3 enc_layer1 enc_layer2 enc_layer3 enc_layer4
       dec_layer4 dec_layer3 dec_layer2 dec_layer1
       conv10 bn10 conv11 bn11 conv12 bn12 conv13] in H'.

(** One call on each side of a comparison of two runs: the same call, or
    a call on two modules that the hints show to return the same tensor. *)
Ltac same_call :=
  match goal with
  | |- output (bind ?e1 _) = output (bind ?e2 _) =>
      first
        [ constr_eq e1 e2; destruct e1 as [?|]; cbn [bind]; [|reflexivity]
        | let E := fresh "E" in
          assert (E : e1 = e2) by congruence;
          rewrite E; clear E;
          destruct e2 as [?|]; cbn [bind]; [|reflexivity]
        | let H := fresh "H" in
          assert (H : output e1 = output e2) by (eauto with same_output);
          destruct e1 as [[? ?]|]; destruct e2 as [[? ?]|];
          cbn [output option_map fst] in H; try discriminate H;
          [injection H as -> | ]; cbn [bind]; [|reflexivity] ]
  end.

Create HintDb same_output.
Create HintDb frame.
Create HintDb eval.
Create HintDb mode.

(** After a run split into its calls: every submodule that a call returned
    equals, once its statistics are overwritten, the submodule it was
    called on. *)
Ltac reframe :=
  repeat match goal with
         | E : ?f ?sub ?x = Some (?y, ?s) |- context [?ap (set_stats ?a ?b ?c) ?s] =>
             let H := fresh "H" in
             assert (H : ap (set_stats a b c) s = ap (set_stats a b c) sub)
               by (eauto with frame);
             rewrite H; clear H E
         | E : ?f ?sub ?x ?o = Some (?y, ?s) |- context [?ap (set_stats ?a ?b ?c) ?s] =>
             let H := fresh "H" in
             assert (H : ap (set_stats a b c) s = ap (set_stats a b c) sub)
               by (eauto with frame);
             rewrite H; clear H E
         end;
  reflexivity.

(** And every submodule that a call returned is in the mode of the
    submodule it was called on. *)
Ltac same_mode :=
  cbn [on_conv on_deconv set_training];
  repeat match goal with
         | E : _ = Some (_, ?s) |- context [?ap (set_training ?b) ?s] =>
             let H := fresh "H" in
             assert (H : ap (set_training b) s = s) by (eauto with mode);
             rewrite H; clear H E
         end;
  reflexivity.

(** The same in evaluation mode: the submodule returned is the one called. *)
Ltac unchanged :=
  repeat match goal with
         | E : ?f ?sub ?x = Some (?y, ?s) |- _ =>
             let H := fresh "H" in
             assert (H : s = sub) by (eauto with eval);
             rewrite H; clear H E
         | E : ?f ?sub ?x ?o = Some (?y, ?s) |- _ =>
             let H := fresh "H" in
             assert (H : s = sub) by (eauto with eval);
             rewrite H; clear H E
         end;
  reflexivity.

Section ReadsAndWrites.
Context {T P : Type} {TO : TensorOps T P}.
Variables (mean var : P) (count : Z).

(** *** Batch normalisation *)

Lemma BatchNorm2d_frame m x y m' :
  BatchNorm2d_forward m x = Some (y, m') -> on_bn (set_stats mean var count) m' = on_bn (set_stats mean var count) m.
Proof.
  unfold BatchNorm2d_forward. intros H.
  destruct (training m) eqn:Tr; unbind H; injection H as <- <-; cbn; congruence.
Qed.

Lemma BatchNorm2d_eval m x y m' :
  on_bn (set_training false) m = m -> BatchNorm2d_forward m x = Some (y, m') -> m' = m.
Proof.
  intros Hm. assert (Tr : training m = false) by (rewrite <- Hm; reflexivity).
  unfold BatchNorm2d_forward. rewrite Tr. intros H. unbind H. now injection H.
Qed.

Lemma BatchNorm2d_same_output m1 m2 x :
  on_bn (set_stats mean var count) m1 = on_bn (set_stats mean var count) m2 ->
  on_bn (set_training true) m1 = m1 -> on_bn (set_training true) m2 = m2 ->
  output (BatchNorm2d_forward m1 x) = output (BatchNorm2d_forward m2 x).
Proof.
  intros H T1 T2.
  assert (Tr1 : training m1 = true) by (rewrite <- T1; reflexivity).
  assert (Tr2 : training m2 = true) by (rewrite <- T2; reflexivity).
  unfold BatchNorm2d_forward. rewrite Tr1, Tr2.
  cbn in H. injection H as -> -> -> _.
  destruct (batch_norm_train _ _ _ x); reflexivity.
Qed.

Hint Resolve BatchNorm2d_frame : frame.
Hint Resolve BatchNorm2d_eval : eval.
Hint Resolve BatchNorm2d_same_output : same_output.

(** *** double_conv *)

Lemma double_conv_frame m x y m' :
  double_conv_forward m x = Some (y, m') ->
  double_conv_apply (set_stats mean var count) m' = double_conv_apply (set_stats mean var count) m.
Proof.
  unfold double_conv_forward. intros H. unbind H. injection H as <- <-.
  unfold double_conv_apply. cbn [conv_0 conv_1 conv_3 conv_4].
  reframe.
Qed.

Lemma double_conv_eval m x y m' :
  double_conv_apply (set_training false) m = m ->
  double_conv_forward m x = Some (y, m') -> m' = m.
Proof.
  destruct m as [c0 b1 c3 b4]. unfold double_conv_apply, double_conv_forward.
  cbn [conv_0 conv_1 conv_3 conv_4]. intros Hm H.
  field Hm conv_1. field Hm conv_4.
  unbind H. injection H as <- <-.
  unchanged.
Qed.

Lemma double_conv_same_output m1 m2 x :
  double_conv_apply (set_stats mean var count) m1
  = double_conv_apply (set_stats mean var count) m2 ->
  double_conv_apply (set_training true) m1 = m1 ->
  double_conv_apply (set_training true) m2 = m2 ->
  output (double_conv_forward m1 x) = output (double_conv_forward m2 x).
Proof.
  intros H T1 T2.
  field H conv_0. field H conv_1. field H conv_3. field H conv_4.
  field T1 conv_1. field T1 conv_4. field T2 conv_1. field T2 conv_4.
  unfold double_conv_forward. repeat same_call. reflexivity.
Qed.

Hint Resolve double_conv_frame : frame.
Hint Resolve double_conv_eval : eval.
Hint Resolve double_conv_same_output : same_output.

(** *** inconv, down, up, outconv *)

Lemma inconv_frame m x y m' :
  inconv_forward m x = Some (y, m') ->
  inconv_apply (set_stats mean var count) m' = inconv_apply (set_stats mean var count) m.
Proof.
  unfold inconv_forward. intros H. unbind H. injection H as <- <-.
  unfold inconv_apply. cbn [inconv_conv]. f_equal; eauto with frame.
Qed.

Lemma inconv_eval m x y m' :
  inconv_apply (set_training false) m = m -> inconv_forward m x = Some (y, m') -> m' = m.
Proof.
  destruct m as [c]. unfold inconv_forward. cbn [inconv_conv]. intros Hm H.
  field Hm inconv_conv. unbind H. injection H as <- <-.
  unchanged.
Qed.

Lemma inconv_same_output m1 m2 x :
  inconv_apply (set_stats mean var count) m1 = inconv_apply (set_stats mean var count) m2 ->
  inconv_apply (set_training true) m1 = m1 ->
  inconv_apply (set_training true) m2 = m2 ->
  output (inconv_forward m1 x) = output (inconv_forward m2 x).
Proof.
  intros H T1 T2. field H inconv_conv. field T1 inconv_conv. field T2 inconv_conv.
  unfold inconv_forward. repeat same_call. reflexivity.
Qed.

Lemma down_frame m x y m' :
  down_forward m x = Some (y, m') ->
  down_apply (set_stats mean var count) m' = down_apply (set_stats mean var count) m.
Proof.
  unfold down_forward. intros H. unbind H. injection H as <- <-.
  unfold down_apply. cbn [mpconv_0 mpconv_1]. f_equal; eauto with frame.
Qed.

Lemma down_eval m x y m' :
  down_apply (set_training false) m = m -> down_forward m x = Some (y, m') -> m' = m.
Proof.
  destruct m as [p c]. unfold down_forward. cbn [mpconv_0 mpconv_1]. intros Hm H.
  field Hm mpconv_1. unbind H. injection H as <- <-.
  unchanged.
Qed.

Lemma down_same_output m1 m2 x :
  down_apply (set_stats mean var count) m1 = down_apply (set_stats mean var count) m2 ->
  down_apply (set_training true) m1 = m1 ->
  down_apply (set_training true) m2 = m2 ->
  output (down_forward m1 x) = output (down_forward m2 x).
Proof.
  intros H T1 T2. field H mpconv_0. field H mpconv_1.
  field T1 mpconv_1. field T2 mpconv_1.
  unfold down_forward. repeat same_call. reflexivity.
Qed.

Lemma upsampler_apply_stats (u : upsampler P) :
  upsampler_apply (set_stats mean var count) u = u.
Proof. now destruct u. Qed.

Lemma up_frame m x1 x2 y m' :
  up_forward m x1 x2 = Some (y, m') ->
  up_apply (set_stats mean var count) m' = up_apply (set_stats mean var count) m.
Proof.
  unfold up_forward. intros H. unbind H. injection H as <- <-.
  unfold up_apply. cbn [up_up up_conv]. f_equal; eauto with frame.
Qed.

Lemma up_eval m x1 x2 y m' :
  up_apply (set_training false) m = m -> up_forward m x1 x2 = Some (y, m') -> m' = m.
Proof.
  destruct m as [u c]. unfold up_forward. cbn [up_up up_conv]. intros Hm H.
  field Hm up_conv. unbind H. injection H as <- <-.
  unchanged.
Qed.

Lemma up_same_output m1 m2 x1 x2 :
  up_apply (set_stats mean var count) m1 = up_apply (set_stats mean var count) m2 ->
  up_apply (set_training true) m1 = m1 ->
  up_apply (set_training true) m2 = m2 ->
  output (up_forward m1 x1 x2) = output (up_forward m2 x1 x2).
Proof.
  intros H T1 T2. field H up_up. field H up_conv.
  rewrite !upsampler_apply_stats in H0.
  field T1 up_conv. field T2 up_conv.
  unfold up_forward, up_padded. rewrite H0. repeat same_call. reflexivity.
Qed.

Lemma outconv_frame m x y m' :
  outconv_forward m x = Some (y, m') ->
  outconv_apply (set_stats mean var count) m' = outconv_apply (set_stats mean var count) m.
Proof.
  unfold outconv_forward. intros H. unbind H. now injection H as <- <-.
Qed.

Lemma outconv_eval m x y m' :
  outconv_apply (set_training false) m = m -> outconv_forward m x = Some (y, m') -> m' = m.
Proof.
  unfold outconv_forward. intros _ H. unbind H. now injection H as <- <-.
Qed.

Lemma outconv_same_output m1 m2 x :
  outconv_apply (set_stats mean var count) m1 = outconv_apply (set_stats mean var count) m2 ->
  outconv_apply (set_training true) m1 = m1 ->
  outconv_apply (set_training true) m2 = m2 ->
  output (outconv_forward m1 x) = output (outconv_forward m2 x).
Proof.
  intros H _ _. field H outconv_conv.
  unfold outconv_forward. repeat same_call. reflexivity.
Qed.

Hint Resolve inconv_frame down_frame up_frame outconv_frame : frame.
Hint Resolve inconv_eval down_eval up_eval outconv_eval : eval.
Hint Resolve inconv_same_output down_same_output up_same_output outconv_same_output
  : same_output.

(** *** UNet *)

Lemma UNet_frame m x y m' :
  UNet_forward m x = Some (y, m') ->
  UNet_apply (set_stats mean var count) m' = UNet_apply (set_stats mean var count) m.
Proof.
  unfold UNet_forward. intros H. unbind H. injection H as <- <-.
  unfold UNet_apply. cbn [inc down1 down2 down3 down4 up1 up2 up3 up4 outc].
  reframe.
Qed.

Lemma UNet_eval m x y m' :
  UNet_apply (set_training false) m = m -> UNet_forward m x = Some (y, m') -> m' = m.
Proof.
  destruct m as [i d1 d2 d3 d4 u1 u2 u3 u4 o]. unfold UNet_forward.
  cbn [inc down1 down2 down3 down4 up1 up2 up3 up4 outc]. intros Hm H.
  field Hm inc. field Hm down1. field Hm down2. field Hm down3. field Hm down4.
  field Hm up1. field Hm up2. field Hm up3. field Hm up4. field Hm outc.
  unbind H. injection H as <- <-.
  unchanged.
Qed.

Lemma UNet_same_output m1 m2 x :
  UNet_apply (set_stats mean var count) m1 = UNet_apply (set_stats mean var count) m2 ->
  UNet_apply (set_training true) m1 = m1 ->
  UNet_apply (set_training true) m2 = m2 ->
  output (UNet_forward m1 x) = output (UNet_forward m2 x).
Proof.
  intros H T1 T2.
  field H inc. field H down1. field H down2. field H down3. field H down4.
  field H up1. field H up2. field H up3. field H up4. field H outc.
  field T1 inc. field T1 down1. field T1 down2. field T1 down3. field T1 down4.
  field T1 up1. field T1 up2. field T1 up3. field T1 up4. field T1 outc.
  field T2 inc. field T2 down1. field T2 down2. field T2 down3. field T2 down4.
  field T2 up1. field T2 up2. field T2 up3. field T2 up4. field T2 outc.
  unfold UNet_forward. repeat same_call. reflexivity.
Qed.

Hint Resolve UNet_frame : frame.
Hint Resolve UNet_eval : eval.
Hint Resolve UNet_same_output : same_output.

(** *** Bottleneck, DoubleResNet, ConvTransposeLayer *)

Lemma shortcut_apply_stats (s : option (Conv2d P)) :
  option_map (on_conv (set_stats mean var count)) s = s.
Proof. now destruct s. Qed.

Lemma Bottleneck_frame m x y m' :
  Bottleneck_forward m x = Some (y, m') ->
  Bottleneck_apply (set_stats mean var count) m'
  = Bottleneck_apply (set_stats mean var count) m.
Proof.
  unfold Bottleneck_forward. intros H. unbind H. injection H as <- <-.
  unfold Bottleneck_apply.
  cbn [b_conv1 b_bn1 b_conv2 b_bn2 b_conv3 b_bn3 b_stride b_shortcut].
  reframe.
Qed.

Lemma Bottleneck_eval m x y m' :
  Bottleneck_apply (set_training false) m = m ->
  Bottleneck_forward m x = Some (y, m') -> m' = m.
Proof.
  destruct m as [c1 n1 c2 n2 c3 n3 st sc]. unfold Bottleneck_forward.
  cbn [b_conv1 b_bn1 b_conv2 b_bn2 b_conv3 b_bn3 b_stride b_shortcut]. intros Hm H.
  field Hm b_bn1. field Hm b_bn2. field Hm b_bn3.
  unbind H. injection H as <- <-.
  unchanged.
Qed.

Lemma Bottleneck_same_output m1 m2 x :
  Bottleneck_apply (set_stats mean var count) m1
  = Bottleneck_apply (set_stats mean var count) m2 ->
  Bottleneck_apply (set_training true) m1 = m1 ->
  Bottleneck_apply (set_training true) m2 = m2 ->
  output (Bottleneck_forward m1 x) = output (Bottleneck_forward m2 x).
Proof.
  intros H T1 T2.
  field H b_conv1. field H b_bn1. field H b_conv2. field H b_bn2.
  field H b_conv3. field H b_bn3. field H b_shortcut.
  rewrite !shortcut_apply_stats in H6.
  field T1 b_bn1. field T1 b_bn2. field T1 b_bn3.
  field T2 b_bn1. field T2 b_bn2. field T2 b_bn3.
  unfold Bottleneck_forward. rewrite H6. repeat same_call. reflexivity.
Qed.

Hint Resolve Bottleneck_frame : frame.
Hint Resolve Bottleneck_eval : eval.
Hint Resolve Bottleneck_same_output : same_output.

Lemma DoubleResNet_frame m x y m' :
  DoubleResNet_forward m x = Some (y, m') ->
  DoubleResNet_apply (set_stats mean var count) m'
  = DoubleResNet_apply (set_stats mean var count) m.
Proof.
  unfold DoubleResNet_forward. intros H. unbind H. injection H as <- <-.
  unfold DoubleResNet_apply. cbn [res1 res2]. f_equal; eauto with frame.
Qed.

Lemma DoubleResNet_eval m x y m' :
  DoubleResNet_apply (set_training false) m = m ->
  DoubleResNet_forward m x = Some (y, m') -> m' = m.
Proof.
  destruct m as [r1 r2]. unfold DoubleResNet_forward. cbn [res1 res2]. intros Hm H.
  field Hm res1. field Hm res2. unbind H. injection H as <- <-.
  unchanged.
Qed.

Lemma DoubleResNet_same_output m1 m2 x :
  DoubleResNet_apply (set_stats mean var count) m1
  = DoubleResNet_apply (set_stats mean var count) m2 ->
  DoubleResNet_apply (set_training true) m1 = m1 ->
  DoubleResNet_apply (set_training true) m2 = m2 ->
  output (DoubleResNet_forward m1 x) = output (DoubleResNet_forward m2 x).
Proof.
  intros H T1 T2. field H res1. field H res2.
  field T1 res1. field T1 res2. field T2 res1. field T2 res2.
  unfold DoubleResNet_forward. repeat same_call. reflexivity.
Qed.

Lemma ConvTransposeLayer_frame m x o y m' :
  ConvTransposeLayer_forward m x o = Some (y, m') ->
  ConvTransposeLayer_apply (set_stats mean var count) m'
  = ConvTransposeLayer_apply (set_stats mean var count) m.
Proof.
  unfold ConvTransposeLayer_forward. intros H. unbind H. injection H as <- <-.
  unfold ConvTransposeLayer_apply. cbn [res deconv]. f_equal; eauto with frame.
Qed.

Lemma ConvTransposeLayer_eval m x o y m' :
  ConvTransposeLayer_apply (set_training false) m = m ->
  ConvTransposeLayer_forward m x o = Some (y, m') -> m' = m.
Proof.
  destruct m as [r d]. unfold ConvTransposeLayer_forward. cbn [res deconv]. intros Hm H.
  field Hm res. unbind H. injection H as <- <-.
  unchanged.
Qed.

Lemma ConvTransposeLayer_same_output m1 m2 x o :
  ConvTransposeLayer_apply (set_stats mean var count) m1
  = ConvTransposeLayer_apply (set_stats mean var count) m2 ->
  ConvTransposeLayer_apply (set_training true) m1 = m1 ->
  ConvTransposeLayer_apply (set_training true) m2 = m2 ->
  output (ConvTransposeLayer_forward m1 x o) = output (ConvTransposeLayer_forward m2 x o).
Proof.
  intros H T1 T2. field H res. field H deconv. field T1 res. field T2 res.
  unfold ConvTransposeLayer_forward. repeat same_call. reflexivity.
Qed.

Hint Resolve DoubleResNet_frame ConvTransposeLayer_frame : frame.
Hint Resolve DoubleResNet_eval ConvTransposeLayer_eval : eval.
Hint Resolve DoubleResNet_same_output ConvTransposeLayer_same_output : same_output.

(** *** UResNet *)

Lemma UResNet_frame m x y m' :
  UResNet_forward m x = Some (y, m') ->
  UResNet_apply (set_stats mean var count) m' = UResNet_apply (set_stats mean var count) m.
Proof.
  unfold UResNet_forward. intros H. unbind H. injection H as <- <-.
  unfold UResNet_apply.
  cbn [inplanes showsizes conv1 bn1 conv2 bn2 conv3 bn3
       enc_layer1 enc_layer2 enc_layer3 enc_layer4
       dec_layer4 dec_layer3 dec_layer2 dec_layer1
       nkernels conv10 bn10 conv11 bn11 conv12 bn12 conv13].
  reframe.
Qed.

Lemma UResNet_eval m x y m' :
  UResNet_apply (set_training false) m = m -> UResNet_forward m x = Some (y, m') -> m' = m.
Proof.
  destruct m as [ip ss c1 n1 c2 n2 c3 n3 e1 e2 e3 e4 d4 d3 d2 d1 nk
                 c10 n10 c11 n11 c12 n12 c13].
  unfold UResNet_forward.
  cbn [inplanes showsizes conv1 bn1 conv2 bn2 conv3 bn3
       enc_layer1 enc_layer2 enc_layer3 enc_layer4
       dec_layer4 dec_layer3 dec_layer2 dec_layer1
       nkernels conv10 bn10 conv11 bn11 conv12 bn12 conv13].
  intros Hm H.
  field Hm bn1. field Hm bn2. field Hm bn3.
  field Hm enc_layer1. field Hm enc_layer2. field Hm enc_layer3. field Hm enc_layer4.
  field Hm dec_layer4. field Hm dec_layer3. field Hm dec_layer2. field Hm dec_layer1.
  field Hm bn10. field Hm bn11. field Hm bn12.
  unbind H. injection H as <- <-.
  unchanged.
Qed.

Lemma UResNet_same_output m1 m2 x :
  UResNet_apply (set_stats mean var count) m1 = UResNet_apply (set_stats mean var count) m2 ->
  UResNet_apply (set_training true) m1 = m1 ->
  UResNet_apply (set_training true) m2 = m2 ->
  output (UResNet_forward m1 x) = output (UResNet_forward m2 x).
Proof.
  intros H T1 T2.
  field H conv1. field H bn1. field H conv2. field H bn2. field H conv3. field H bn3.
  field H enc_layer1. field H enc_layer2. field H enc_layer3. field H enc_layer4.
  field H dec_layer4. field H dec_layer3. field H dec_layer2. field H dec_layer1.
  field H conv10. field H bn10. field H conv11. field H bn11.
  field H conv12. field H bn12. field H conv13.
  field T1 bn1. field T1 bn2. field T1 bn3.
  field T1 enc_layer1. field T1 enc_layer2. field T1 enc_layer3. field T1 enc_layer4.
  field T1 dec_layer4. field T1 dec_layer3. field T1 dec_layer2. field T1 dec_layer1.
  field T1 bn10. field T1 bn11. field T1 bn12.
  field T2 bn1. field T2 bn2. field T2 bn3.
  field T2 enc_layer1. field T2 enc_layer2. field T2 enc_layer3. field T2 enc_layer4.
  field T2 dec_layer4. field T2 dec_layer3. field T2 dec_layer2. field T2 dec_layer1.
  field T2 bn10. field T2 bn11. field T2 bn12.
  unfold UResNet_forward. repeat same_call. reflexivity.
Qed.

End ReadsAndWrites.

(** *** A forward call leaves the mode alone *)

Section Modes.
Context {T P : Type} {TO : TensorOps T P}.
Variable mode : bool.

Lemma BatchNorm2d_mode m x y m' :
  on_bn (set_training mode) m = m -> BatchNorm2d_forward m x = Some (y, m') ->
  on_bn (set_training mode) m' = m'.
Proof.
  intros Hm. assert (Tr : training m = mode) by (rewrite <- Hm; reflexivity).
  unfold BatchNorm2d_forward. intros H.
  destruct (training m) eqn:Tr'; unbind H; injection H as <- <-.
  - cbn. now rewrite <- Tr.
  - exact Hm.
Qed.

Hint Resolve BatchNorm2d_mode : mode.

Lemma double_conv_mode m x y m' :
  double_conv_apply (set_training mode) m = m -> double_conv_forward m x = Some (y, m') ->
  double_conv_apply (set_training mode) m' = m'.
Proof.
  unfold double_conv_forward. intros Hm H.
  field Hm conv_1. field Hm conv_4.
  unbind H. injection H as <- <-.
  unfold double_conv_apply. cbn [conv_0 conv_1 conv_3 conv_4]. same_mode.
Qed.

Hint Resolve double_conv_mode : mode.

Lemma inconv_mode m x y m' :
  inconv_apply (set_training mode) m = m -> inconv_forward m x = Some (y, m') ->
  inconv_apply (set_training mode) m' = m'.
Proof.
  unfold inconv_forward. intros Hm H. field Hm inconv_conv.
  unbind H. injection H as <- <-.
  unfold inconv_apply. cbn [inconv_conv]. same_mode.
Qed.

Lemma down_mode m x y m' :
  down_apply (set_training mode) m = m -> down_forward m x = Some (y, m') ->
  down_apply (set_training mode) m' = m'.
Proof.
  unfold down_forward. intros Hm H. field Hm mpconv_1.
  unbind H. injection H as <- <-.
  unfold down_apply. cbn [mpconv_0 mpconv_1]. same_mode.
Qed.

Lemma upsampler_apply_training (u : upsampler P) :
  upsampler_apply (set_training mode) u = u.
Proof. now destruct u. Qed.

Lemma up_mode m x1 x2 y m' :
  up_apply (set_training mode) m = m -> up_forward m x1 x2 = Some (y, m') ->
  up_apply (set_training mode) m' = m'.
Proof.
  unfold up_forward. intros Hm H. field Hm up_conv.
  unbind H. injection H as <- <-.
  unfold up_apply. cbn [up_up up_conv]. rewrite upsampler_apply_training. same_mode.
Qed.

Lemma outconv_mode m x y m' :
  outconv_apply (set_training mode) m = m -> outconv_forward m x = Some (y, m') ->
  outconv_apply (set_training mode) m' = m'.
Proof.
  unfold outconv_forward. intros Hm H. unbind H. now injection H as <- <-.
Qed.

Hint Resolve inconv_mode down_mode up_mode outconv_mode : mode.

Lemma UNet_mode m x y m' :
  UNet_apply (set_training mode) m = m -> UNet_forward m x = Some (y, m') ->
  UNet_apply (set_training mode) m' = m'.
Proof.
  unfold UNet_forward. intros Hm H.
  field Hm inc. field Hm down1. field Hm down2. field Hm down3. field Hm down4.
  field Hm up1. field Hm up2. field Hm up3. field Hm up4. field Hm outc.
  unbind H. injection H as <- <-.
  unfold UNet_apply. cbn [inc down1 down2 down3 down4 up1 up2 up3 up4 outc].
  same_mode.
Qed.

Lemma shortcut_apply_training (s : option (Conv2d P)) :
  option_map (on_conv (set_training mode)) s = s.
Proof. now destruct s. Qed.

Lemma Bottleneck_mode m x y m' :
  Bottleneck_apply (set_training mode) m = m -> Bottleneck_forward m x = Some (y, m') ->
  Bottleneck_apply (set_training mode) m' = m'.
Proof.
  unfold Bottleneck_forward. intros Hm H.
  field Hm b_bn1. field Hm b_bn2. field Hm b_bn3.
  unbind H. injection H as <- <-.
  unfold Bottleneck_apply.
  cbn [b_conv1 b_bn1 b_conv2 b_bn2 b_conv3 b_bn3 b_stride b_shortcut].
  rewrite shortcut_apply_training. same_mode.
Qed.

Hint Resolve Bottleneck_mode : mode.

Lemma DoubleResNet_mode m x y m' :
  DoubleResNet_apply (set_training mode) m = m ->
  DoubleResNet_forward m x = Some (y, m') ->
  DoubleResNet_apply (set_training mode) m' = m'.
Proof.
  unfold DoubleResNet_forward. intros Hm H. field Hm res1. field Hm res2.
  unbind H. injection H as <- <-.
  unfold DoubleResNet_apply. cbn [res1 res2]. same_mode.
Qed.

Lemma ConvTransposeLayer_mode m x o y m' :
  ConvTransposeLayer_apply (set_training mode) m = m ->
  ConvTransposeLayer_forward m x o = Some (y, m') ->
  ConvTransposeLayer_apply (set_training mode) m' = m'.
Proof.
  unfold ConvTransposeLayer_forward. intros Hm H. field Hm res.
  unbind H. injection H as <- <-.
  unfold ConvTransposeLayer_apply. cbn [res deconv]. same_mode.
Qed.

Hint Resolve DoubleResNet_mode ConvTransposeLayer_mode : mode.

Lemma UResNet_mode m x y m' :
  UResNet_apply (set_training mode) m = m -> UResNet_forward m x = Some (y, m') ->
  UResNet_apply (set_training mode) m' = m'.
Proof.
  unfold UResNet_forward. intros Hm H.
  field Hm bn1. field Hm bn2. field Hm bn3.
  field Hm enc_layer1. field Hm enc_layer2. field Hm enc_layer3. field Hm enc_layer4.
  field Hm dec_layer4. field Hm dec_layer3. field Hm dec_layer2. field Hm dec_layer1.
  field Hm bn10. field Hm bn11. field Hm bn12.
  unbind H. injection H as <- <-.
  unfold UResNet_apply.
  cbn [inplanes showsizes conv1 bn1 conv2 bn2 conv3 bn3
       enc_layer1 enc_layer2 enc_layer3 enc_layer4
       dec_layer4 dec_layer3 dec_layer2 dec_layer1
       nkernels conv10 bn10 conv11 bn11 conv12 bn12 conv13].
  same_mode.
Qed.

End Modes.

(** *** A forward call in training mode updates every batch normalisation *)

Create HintDb trained.

Section Updates.
Context {T P : Type} {TO : TensorOps T P}.

Lemma BatchNorm2d_trained m x y m' :
  on_bn (set_training true) m = m -> BatchNorm2d_forward m x = Some (y, m') ->
  trained_once (T:=T) (BatchNorm2d_layer m) (BatchNorm2d_layer m').
Proof.
  intros Hm. assert (Tr : training m = true) by (rewrite <- Hm; reflexivity).
  unfold BatchNorm2d_forward. rewrite Tr. intros H. unbind H.
  injection H as <- <-. cbn. repeat split; auto. exists x. auto.
Qed.

Lemma double_conv_trained m x y m' :
  double_conv_apply (set_training true) m = m -> double_conv_forward m x = Some (y, m') ->
  Forall2 (trained_once (T:=T)) (double_conv_modules m) (double_conv_modules m').
Proof.
  unfold double_conv_forward. intros Hm H.
  field Hm conv_1. field Hm conv_4.
  unbind H. injection H as <- <-.
  unfold double_conv_modules. cbn [conv_0 conv_1 conv_3 conv_4].
  apply Forall2_cons; [reflexivity|].
  apply Forall2_cons; [exact (BatchNorm2d_trained _ _ _ _ Hm0 E0)|].
  apply Forall2_cons; [reflexivity|].
  apply Forall2_cons; [exact (BatchNorm2d_trained _ _ _ _ Hm1 E2)|].
  constructor.
Qed.

Hint Resolve double_conv_trained : trained.

Lemma inconv_trained m x y m' :
  inconv_apply (set_training true) m = m -> inconv_forward m x = Some (y, m') ->
  Forall2 (trained_once (T:=T)) (inconv_modules m) (inconv_modules m').
Proof.
  unfold inconv_forward. intros Hm H. field Hm inconv_conv.
  unbind H. injection H as <- <-.
  unfold inconv_modules. cbn [inconv_conv]. eauto with trained.
Qed.

Lemma down_trained m x y m' :
  down_apply (set_training true) m = m -> down_forward m x = Some (y, m') ->
  Forall2 (trained_once (T:=T)) (down_modules m) (down_modules m').
Proof.
  unfold down_forward. intros Hm H. field Hm mpconv_1.
  unbind H. injection H as <- <-.
  unfold down_modules. cbn [mpconv_0 mpconv_1]. eauto with trained.
Qed.

Lemma upsampler_trained (u : upsampler P) :
  Forall2 (trained_once (T:=T)) (upsampler_modules u) (upsampler_modules u).
Proof. destruct u; cbn; [constructor|]. apply Forall2_cons; [reflexivity|constructor]. Qed.

Lemma up_trained m x1 x2 y m' :
  up_apply (set_training true) m = m -> up_forward m x1 x2 = Some (y, m') ->
  Forall2 (trained_once (T:=T)) (up_modules m) (up_modules m').
Proof.
  unfold up_forward. intros Hm H. field Hm up_conv.
  unbind H. injection H as <- <-.
  unfold up_modules. cbn [up_up up_conv].
  apply Forall2_app; [apply upsampler_trained|]. eauto with trained.
Qed.

Lemma outconv_trained m x y m' :
  outconv_forward m x = Some (y, m') ->
  Forall2 (trained_once (T:=T)) (outconv_modules m) (outconv_modules m').
Proof.
  unfold outconv_forward. intros H. unbind H. injection H as <- <-.
  apply Forall2_cons; [reflexivity|constructor].
Qed.

Hint Resolve inconv_trained down_trained up_trained outconv_trained : trained.

Lemma UNet_trained m x y m' :
  UNet_apply (set_training true) m = m -> UNet_forward m x = Some (y, m') ->
  Forall2 (trained_once (T:=T)) (UNet_modules m) (UNet_modules m').
Proof.
  unfold UNet_forward. intros Hm H.
  field Hm inc. field Hm down1. field Hm down2. field Hm down3. field Hm down4.
  field Hm up1. field Hm up2. field Hm up3. field Hm up4.
  unbind H. injection H as <- <-.
  unfold UNet_modules. cbn [inc down1 down2 down3 down4 up1 up2 up3 up4 outc].
  repeat (apply Forall2_app; [eauto with trained|]).
  eauto with trained.
Qed.

Lemma shortcut_trained (c : option (Conv2d P)) :
  Forall2 (trained_once (T:=T))
    match c with Some c => [Conv2d_layer c] | None => [] end
    match c with Some c => [Conv2d_layer c] | None => [] end.
Proof. destruct c; [|constructor]. apply Forall2_cons; [reflexivity|constructor]. Qed.

Lemma Bottleneck_trained m x y m' :
  Bottleneck_apply (set_training true) m = m -> Bottleneck_forward m x = Some (y, m') ->
  Forall2 (trained_once (T:=T)) (Bottleneck_modules m) (Bottleneck_modules m').
Proof.
  unfold Bottleneck_forward. intros Hm H.
  field Hm b_bn1. field Hm b_bn2. field Hm b_bn3.
  unbind H. injection H as <- <-.
  unfold Bottleneck_modules.
  cbn [b_conv1 b_bn1 b_conv2 b_bn2 b_conv3 b_bn3 b_stride b_shortcut].
  apply Forall2_app; [|apply shortcut_trained].
  apply Forall2_cons; [reflexivity|].
  apply Forall2_cons; [exact (BatchNorm2d_trained _ _ _ _ Hm0 E1)|].
  apply Forall2_cons; [reflexivity|].
  apply Forall2_cons; [exact (BatchNorm2d_trained _ _ _ _ Hm1 E3)|].
  apply Forall2_cons; [reflexivity|].
  apply Forall2_cons; [exact (BatchNorm2d_trained _ _ _ _ Hm2 E5)|].
  constructor.
Qed.

Hint Resolve Bottleneck_trained : trained.

Lemma DoubleResNet_trained m x y m' :
  DoubleResNet_apply (set_training true) m = m ->
  DoubleResNet_forward m x = Some (y, m') ->
  Forall2 (trained_once (T:=T)) (DoubleResNet_modules m) (DoubleResNet_modules m').
Proof.
  unfold DoubleResNet_forward. intros Hm H. field Hm res1. field Hm res2.
  unbind H. injection H as <- <-.
  unfold DoubleResNet_modules. cbn [res1 res2].
  apply Forall2_app; eauto with trained.
Qed.

Lemma ConvTransposeLayer_trained m x o y m' :
  ConvTransposeLayer_apply (set_training true) m = m ->
  ConvTransposeLayer_forward m x o = Some (y, m') ->
  Forall2 (trained_once (T:=T))
    (ConvTransposeLayer_modules m) (ConvTransposeLayer_modules m').
Proof.
  unfold ConvTransposeLayer_forward. intros Hm H. field Hm res.
  unbind H. injection H as <- <-.
  unfold ConvTransposeLayer_modules. cbn [res deconv].
  apply Forall2_app; [eauto with trained|].
  apply Forall2_cons; [reflexivity|constructor].
Qed.

Hint Resolve DoubleResNet_trained ConvTransposeLayer_trained : trained.

Lemma UResNet_trained m x y m' :
  UResNet_apply (set_training true) m = m -> UResNet_forward m x = Some (y, m') ->
  Forall2 (trained_once (T:=T)) (UResNet_modules m) (UResNet_modules m').
Proof.
  unfold UResNet_forward. intros Hm H.
  field Hm bn1. field Hm bn2. field Hm bn3.
  field Hm enc_layer1. field Hm enc_layer2. field Hm enc_layer3. field Hm enc_layer4.
  field Hm dec_layer4. field Hm dec_layer3. field Hm dec_layer2. field Hm dec_layer1.
  field Hm bn10. field Hm bn11. field Hm bn12.
  unbind H. injection H as <- <-.
  unfold UResNet_modules.
  cbn [inplanes showsizes conv1 bn1 conv2 bn2 conv3 bn3
       enc_layer1 enc_layer2 enc_layer3 enc_layer4
       dec_layer4 dec_layer3 dec_layer2 dec_layer1
       nkernels conv10 bn10 conv11 bn11 conv12 bn12 conv13].
  apply Forall2_app.
  { repeat (apply Forall2_cons;
            [first [reflexivity | eapply BatchNorm2d_trained; eassumption]|]).
    constructor. }
  repeat (apply Forall2_app; [solve [eauto with trained]|]).
  repeat (apply Forall2_cons;
          [first [reflexivity | eapply BatchNorm2d_trained; eassumption]|]).
  constructor.
Qed.

End Updates.

(** ** State and determinism of the module classes *)

(** A class that writes only statistics and, in training mode, reads only
    weights returns the same tensor when called again; [p] picks a
    parameter tensor of the module (a module without one has no batch
    normalisation either). *)
Lemma repeatable_from {I T P X : Type}
  (forward : X -> I -> option (T * X)) (apply : visitor P -> X -> X) (p : X -> P) :
  writes_only_statistics forward apply -> reads_only_weights forward apply ->
  repeatable forward apply.
Proof.
  intros W R mode m x y m' Hm H.
  destruct (W m x y m' H) as (Hs & Hk & He).
  destruct mode.
  - rewrite (R (p m) (p m) 0 m' m x (Hs _ _ _) (Hk true Hm) Hm), H. reflexivity.
  - rewrite (He Hm), H. reflexivity.
Qed.

(** C8, as the claim states it, on a UNet as constructed: after a forward
    call its first batch normalisation has counted one batch. *)
Lemma UNet_forward_not_stateless :
  ~ stateless (UNet_forward (T:=Size) (P:=init)).
Proof.
  intros H.
  assert (E : option_map
                (fun r => num_batches_tracked (conv_1 (inconv_conv (inc (snd r)))))
                (UNet_forward (UNet_init (P:=init) 3 5) (mkSize 2 3 16 16))
              = Some 1)
    by (vm_compute; reflexivity).
  remember (UNet_forward (UNet_init (P:=init) 3 5) (mkSize 2 3 16 16)) as r eqn:R.
  destruct r as [[y m']|]; [|discriminate E].
  rewrite (H _ _ _ _ (eq_sym R)) in E. discriminate E.
Qed.

(** *** BasicBlock

    The module passed as [downsample] is of a class that writes only
    statistics and, in training mode, reads only weights. *)

Section BasicBlockState.
Context {T P D : Type} {TO : TensorOps T P} {IO : InplaceOps T}.
Variable downsample_forward : D -> T -> option (T * D).
Variable downsample_apply : visitor P -> D -> D.
Hypothesis downsample_writes : writes_only_statistics downsample_forward downsample_apply.
Hypothesis downsample_reads : reads_only_weights downsample_forward downsample_apply.

Lemma BasicBlock_downsample_run (m : BasicBlock P D) (x residual : T) (d' : option D) :
  match bb_downsample m with
  | Some downsample =>
      ' (r, d) <- downsample_forward downsample x ;; Some (r, Some d)
  | None => Some (x, None)
  end = Some (residual, d') ->
  match bb_downsample m, d' with
  | Some d, Some d' => downsample_forward d x = Some (residual, d')
  | None, None => residual = x
  | _, _ => False
  end.
Proof.
  destruct (bb_downsample m) as [d|].
  - intros H. apply bind_some in H. destruct H as ([r d1] & E & H).
    injection H as <- <-. exact E.
  - intros H. injection H as <- <-. reflexivity.
Qed.

Lemma BasicBlock_writes_only_statistics :
  writes_only_statistics (BasicBlock_forward downsample_forward)
    (fun v => BasicBlock_apply v (downsample_apply v)).
Proof.
  intros m x y m'. unfold BasicBlock_forward. intros H.
  apply bind_some in H. destruct H as (o1 & E1 & H).
  apply bind_some in H. destruct H as ([o2 bn1'] & E2 & H).
  apply bind_some in H. destruct H as (o3 & E3 & H).
  apply bind_some in H. destruct H as ([o4 bn2'] & E4 & H).
  apply bind_some in H. destruct H as ([residual d'] & E5 & H).
  apply bind_some in H. destruct H as (o5 & E6 & H).
  injection H as <- <-.
  apply BasicBlock_downsample_run in E5.
  unfold BasicBlock_apply. cbn [bb_conv1 bb_bn1 bb_conv2 bb_bn2 bb_downsample bb_stride].
  split; [|split].
  - intros mean var count.
    rewrite (BatchNorm2d_frame mean var count _ _ _ _ E2),
      (BatchNorm2d_frame mean var count _ _ _ _ E4).
    destruct (bb_downsample m) as [d|], d' as [d1|]; try contradiction; cbn [option_map].
    + now rewrite (proj1 (downsample_writes _ _ _ _ E5) mean var count).
    + reflexivity.
  - intros mode Hm.
    pose proof (f_equal (@bb_bn1 P D) Hm) as Hm1.
    pose proof (f_equal (@bb_bn2 P D) Hm) as Hm2.
    pose proof (f_equal (@bb_downsample P D) Hm) as Hm3.
    cbn [bb_bn1 bb_bn2 bb_downsample] in Hm1, Hm2, Hm3.
    rewrite (BatchNorm2d_mode mode _ _ _ _ Hm1 E2), (BatchNorm2d_mode mode _ _ _ _ Hm2 E4).
    destruct (bb_downsample m) as [d|], d' as [d1|]; try contradiction; cbn [option_map] in *.
    + injection Hm3 as Hm3.
      now rewrite (proj1 (proj2 (downsample_writes _ _ _ _ E5)) mode Hm3).
    + reflexivity.
  - intros Hm.
    pose proof (f_equal (@bb_bn1 P D) Hm) as Hm1.
    pose proof (f_equal (@bb_bn2 P D) Hm) as Hm2.
    pose proof (f_equal (@bb_downsample P D) Hm) as Hm3.
    cbn [bb_bn1 bb_bn2 bb_downsample] in Hm1, Hm2, Hm3.
    rewrite (BatchNorm2d_eval _ _ _ _ Hm1 E2), (BatchNorm2d_eval _ _ _ _ Hm2 E4).
    destruct m as [c1 n1 c2 n2 ds st]. cbn [bb_conv1 bb_bn1 bb_conv2 bb_bn2 bb_downsample bb_stride] in *.
    destruct ds as [d|], d' as [d1|]; try contradiction; cbn [option_map] in *.
    + injection Hm3 as Hm3.
      now rewrite (proj2 (proj2 (downsample_writes _ _ _ _ E5)) Hm3).
    + reflexivity.
Qed.

Lemma BasicBlock_reads_only_weights :
  reads_only_weights (BasicBlock_forward downsample_forward)
    (fun v => BasicBlock_apply v (downsample_apply v)).
Proof.
  intros mean var count m1 m2 x H T1 T2.
  pose proof (f_equal (@bb_conv1 P D) H) as Hc1.
  pose proof (f_equal (@bb_bn1 P D) H) as Hb1.
  pose proof (f_equal (@bb_conv2 P D) H) as Hc2.
  pose proof (f_equal (@bb_bn2 P D) H) as Hb2.
  pose proof (f_equal (@bb_downsample P D) H) as Hd.
  pose proof (f_equal (@bb_bn1 P D) T1) as T11.
  pose proof (f_equal (@bb_bn2 P D) T1) as T12.
  pose proof (f_equal (@bb_downsample P D) T1) as T1d.
  pose proof (f_equal (@bb_bn1 P D) T2) as T21.
  pose proof (f_equal (@bb_bn2 P D) T2) as T22.
  pose proof (f_equal (@bb_downsample P D) T2) as T2d.
  cbn [BasicBlock_apply bb_conv1 bb_bn1 bb_conv2 bb_bn2 bb_downsample on_conv set_stats]
    in Hc1, Hb1, Hc2, Hb2, Hd, T11, T12, T1d, T21, T22, T2d.
  unfold BasicBlock_forward. rewrite Hc1, Hc2.
  destruct (conv2d (bb_conv1 m2) x) as [o1|]; cbn [bind]; [|reflexivity].
  pose proof (BatchNorm2d_same_output mean var count _ _ o1 Hb1 T11 T21) as B1.
  destruct (BatchNorm2d_forward (bb_bn1 m1) o1) as [[o2 s2]|],
    (BatchNorm2d_forward (bb_bn1 m2) o1) as [[o2' s2']|];
    cbn [output option_map fst] in B1; try discriminate B1; cbn [bind]; [|reflexivity].
  injection B1 as ->.
  destruct (conv2d (bb_conv2 m2) (relu o2')) as [o3|]; cbn [bind]; [|reflexivity].
  pose proof (BatchNorm2d_same_output mean var count _ _ o3 Hb2 T12 T22) as B2.
  destruct (BatchNorm2d_forward (bb_bn2 m1) o3) as [[o4 s4]|],
    (BatchNorm2d_forward (bb_bn2 m2) o3) as [[o4' s4']|];
    cbn [output option_map fst] in B2; try discriminate B2; cbn [bind]; [|reflexivity].
  injection B2 as ->.
  destruct (bb_downsample m1) as [d1|], (bb_downsample m2) as [d2|];
    cbn [option_map] in Hd, T1d, T2d; try discriminate Hd.
  - injection Hd as Hd. injection T1d as T1d. injection T2d as T2d.
    pose proof (downsample_reads mean var count d1 d2 x Hd T1d T2d) as Bd.
    destruct (downsample_forward d1 x) as [[r1 e1]|],
      (downsample_forward d2 x) as [[r2 e2]|];
      cbn [output option_map fst] in Bd; try discriminate Bd; cbn [bind]; [|reflexivity].
    injection Bd as ->.
    destruct (add_ o4' r2); reflexivity.
  - cbn [bind]. destruct (add_ o4' x); reflexivity.
Qed.

Lemma BasicBlock_repeatable :
  repeatable (BasicBlock_forward downsample_forward)
    (fun v => BasicBlock_apply v (downsample_apply v)).
Proof.
  exact (repeatable_from _ _ (fun m => weight (bb_conv1 m))
           BasicBlock_writes_only_statistics BasicBlock_reads_only_weights).
Qed.

End BasicBlockState.

Section Classes.
Context {T P : Type} {TO : TensorOps T P}.

Lemma double_conv_writes_only_statistics : writes_only_statistics (T:=T) double_conv_forward double_conv_apply.
Proof.
  intros m x y m' H. split; [|split].
  - intros mean var count. exact (double_conv_frame mean var count _ _ _ _ H).
  - intros mode Hm. exact (double_conv_mode mode _ _ _ _ Hm H).
  - intros Hm. exact (double_conv_eval _ _ _ _ Hm H).
Qed.

Lemma double_conv_reads_only_weights : reads_only_weights (T:=T) double_conv_forward double_conv_apply.
Proof.
  intros mean var count m1 m2 x. apply double_conv_same_output.
Qed.

Lemma double_conv_repeatable : repeatable (T:=T) double_conv_forward double_conv_apply.
Proof.
  exact (repeatable_from _ _ (fun m => weight (conv_0 m))
           double_conv_writes_only_statistics double_conv_reads_only_weights).
Qed.

Lemma inconv_writes_only_statistics : writes_only_statistics (T:=T) inconv_forward inconv_apply.
Proof.
  intros m x y m' H. split; [|split].
  - intros mean var count. exact (inconv_frame mean var count _ _ _ _ H).
  - intros mode Hm. exact (inconv_mode mode _ _ _ _ Hm H).
  - intros Hm. exact (inconv_eval _ _ _ _ Hm H).
Qed.

Lemma inconv_reads_only_weights : reads_only_weights (T:=T) inconv_forward inconv_apply.
Proof.
  intros mean var count m1 m2 x. apply inconv_same_output.
Qed.

Lemma inconv_repeatable : repeatable (T:=T) inconv_forward inconv_apply.
Proof.
  exact (repeatable_from _ _ (fun m => weight (conv_0 (inconv_conv m)))
           inconv_writes_only_statistics inconv_reads_only_weights).
Qed.

Lemma down_writes_only_statistics : writes_only_statistics (T:=T) down_forward down_apply.
Proof.
  intros m x y m' H. split; [|split].
  - intros mean var count. exact (down_frame mean var count _ _ _ _ H).
  - intros mode Hm. exact (down_mode mode _ _ _ _ Hm H).
  - intros Hm. exact (down_eval _ _ _ _ Hm H).
Qed.

Lemma down_reads_only_weights : reads_only_weights (T:=T) down_forward down_apply.
Proof.
  intros mean var count m1 m2 x. apply down_same_output.
Qed.

Lemma down_repeatable : repeatable (T:=T) down_forward down_apply.
Proof.
  exact (repeatable_from _ _ (fun m => weight (conv_0 (mpconv_1 m)))
           down_writes_only_statistics down_reads_only_weights).
Qed.

Lemma up_writes_only_statistics : writes_only_statistics up_forward2 up_apply.
Proof.
  unfold up_forward2.
  intros m x y m' H. split; [|split].
  - intros mean var count. exact (up_frame mean var count _ _ _ _ _ H).
  - intros mode Hm. exact (up_mode mode _ _ _ _ _ Hm H).
  - intros Hm. exact (up_eval _ _ _ _ _ Hm H).
Qed.

Lemma up_reads_only_weights : reads_only_weights up_forward2 up_apply.
Proof.
  unfold up_forward2.
  intros mean var count m1 m2 x. apply up_same_output.
Qed.

Lemma up_repeatable : repeatable up_forward2 up_apply.
Proof.
  exact (repeatable_from _ _ (fun m => weight (conv_0 (up_conv m)))
           up_writes_only_statistics up_reads_only_weights).
Qed.

Lemma outconv_writes_only_statistics : writes_only_statistics (T:=T) outconv_forward outconv_apply.
Proof.
  intros m x y m' H. split; [|split].
  - intros mean var count. exact (outconv_frame mean var count _ _ _ _ H).
  - intros mode Hm. exact (outconv_mode mode _ _ _ _ Hm H).
  - intros Hm. exact (outconv_eval _ _ _ _ Hm H).
Qed.

Lemma outconv_reads_only_weights : reads_only_weights (T:=T) outconv_forward outconv_apply.
Proof.
  intros mean var count m1 m2 x. apply outconv_same_output.
Qed.

Lemma outconv_repeatable : repeatable (T:=T) outconv_forward outconv_apply.
Proof.
  exact (repeatable_from _ _ (fun m => weight (outconv_conv m))
           outconv_writes_only_statistics outconv_reads_only_weights).
Qed.

Lemma UNet_writes_only_statistics : writes_only_statistics (T:=T) UNet_forward UNet_apply.
Proof.
  intros m x y m' H. split; [|split].
  - intros mean var count. exact (UNet_frame mean var count _ _ _ _ H).
  - intros mode Hm. exact (UNet_mode mode _ _ _ _ Hm H).
  - intros Hm. exact (UNet_eval _ _ _ _ Hm H).
Qed.

Lemma UNet_reads_only_weights : reads_only_weights (T:=T) UNet_forward UNet_apply.
Proof.
  intros mean var count m1 m2 x. apply UNet_same_output.
Qed.

Lemma UNet_repeatable : repeatable (T:=T) UNet_forward UNet_apply.
Proof.
  exact (repeatable_from _ _ (fun m => weight (outconv_conv (outc m)))
           UNet_writes_only_statistics UNet_reads_only_weights).
Qed.

Lemma Bottleneck_writes_only_statistics : writes_only_statistics (T:=T) Bottleneck_forward Bottleneck_apply.
Proof.
  intros m x y m' H. split; [|split].
  - intros mean var count. exact (Bottleneck_frame mean var count _ _ _ _ H).
  - intros mode Hm. exact (Bottleneck_mode mode _ _ _ _ Hm H).
  - intros Hm. exact (Bottleneck_eval _ _ _ _ Hm H).
Qed.

Lemma Bottleneck_reads_only_weights : reads_only_weights (T:=T) Bottleneck_forward Bottleneck_apply.
Proof.
  intros mean var count m1 m2 x. apply Bottleneck_same_output.
Qed.

Lemma Bottleneck_repeatable : repeatable (T:=T) Bottleneck_forward Bottleneck_apply.
Proof.
  exact (repeatable_from _ _ (fun m => weight (b_conv1 m))
           Bottleneck_writes_only_statistics Bottleneck_reads_only_weights).
Qed.

Lemma DoubleResNet_writes_only_statistics : writes_only_statistics (T:=T) DoubleResNet_forward DoubleResNet_apply.
Proof.
  intros m x y m' H. split; [|split].
  - intros mean var count. exact (DoubleResNet_frame mean var count _ _ _ _ H).
  - intros mode Hm. exact (DoubleResNet_mode mode _ _ _ _ Hm H).
  - intros Hm. exact (DoubleResNet_eval _ _ _ _ Hm H).
Qed.

Lemma DoubleResNet_reads_only_weights : reads_only_weights (T:=T) DoubleResNet_forward DoubleResNet_apply.
Proof.
  intros mean var count m1 m2 x. apply DoubleResNet_same_output.
Qed.

Lemma DoubleResNet_repeatable : repeatable (T:=T) DoubleResNet_forward DoubleResNet_apply.
Proof.
  exact (repeatable_from _ _ (fun m => weight (b_conv1 (res1 m)))
           DoubleResNet_writes_only_statistics DoubleResNet_reads_only_weights).
Qed.

Lemma ConvTransposeLayer_writes_only_statistics : writes_only_statistics ConvTransposeLayer_forward2 ConvTransposeLayer_apply.
Proof.
  unfold ConvTransposeLayer_forward2.
  intros m x y m' H. split; [|split].
  - intros mean var count. exact (ConvTransposeLayer_frame mean var count _ _ _ _ _ H).
  - intros mode Hm. exact (ConvTransposeLayer_mode mode _ _ _ _ _ Hm H).
  - intros Hm. exact (ConvTransposeLayer_eval _ _ _ _ _ Hm H).
Qed.

Lemma ConvTransposeLayer_reads_only_weights : reads_only_weights ConvTransposeLayer_forward2 ConvTransposeLayer_apply.
Proof.
  unfold ConvTransposeLayer_forward2.
  intros mean var count m1 m2 x. apply ConvTransposeLayer_same_output.
Qed.

Lemma ConvTransposeLayer_repeatable : repeatable ConvTransposeLayer_forward2 ConvTransposeLayer_apply.
Proof.
  exact (repeatable_from _ _ (fun m => ct_weight (deconv m))
           ConvTransposeLayer_writes_only_statistics ConvTransposeLayer_reads_only_weights).
Qed.

Lemma UResNet_writes_only_statistics : writes_only_statistics (T:=T) UResNet_forward UResNet_apply.
Proof.
  intros m x y m' H. split; [|split].
  - intros mean var count. exact (UResNet_frame mean var count _ _ _ _ H).
  - intros mode Hm. exact (UResNet_mode mode _ _ _ _ Hm H).
  - intros Hm. exact (UResNet_eval _ _ _ _ Hm H).
Qed.

Lemma UResNet_reads_only_weights : reads_only_weights (T:=T) UResNet_forward UResNet_apply.
Proof.
  intros mean var count m1 m2 x. apply UResNet_same_output.
Qed.

Lemma UResNet_repeatable : repeatable (T:=T) UResNet_forward UResNet_apply.
Proof.
  exact (repeatable_from _ _ (fun m => weight (conv13 m))
           UResNet_writes_only_statistics UResNet_reads_only_weights).
Qed.

(** C8 (amended): a forward call of any module class of base_model.py
    leaves the configuration, the learned parameters (convolution weights
    and biases, batch-normalisation weights and biases) and the mode of the
    module as they were; what it overwrites is the running statistics of the
    batch normalisations (running mean, running variance, number of batches
    seen), which persist to the next call.  In evaluation mode a forward
    call leaves the whole module as it was.  In training mode a forward
    call updates the statistics of every batch normalisation of the module,
    once: its number of batches seen is one more than before, and its
    running mean and variance are the framework's update of what they were
    with a batch. *)
Theorem forward_writes_only_statistics :
  (writes_only_statistics (T:=T) double_conv_forward double_conv_apply
   /\ writes_only_statistics (T:=T) inconv_forward inconv_apply
   /\ writes_only_statistics (T:=T) down_forward down_apply
   /\ writes_only_statistics up_forward2 up_apply
   /\ writes_only_statistics (T:=T) outconv_forward outconv_apply
   /\ writes_only_statistics (T:=T) UNet_forward UNet_apply
   /\ writes_only_statistics (T:=T) Bottleneck_forward Bottleneck_apply
   /\ writes_only_statistics (T:=T) DoubleResNet_forward DoubleResNet_apply
   /\ writes_only_statistics ConvTransposeLayer_forward2 ConvTransposeLayer_apply
   /\ writes_only_statistics (T:=T) UResNet_forward UResNet_apply)
  /\ (updates_statistics (T:=T) double_conv_forward double_conv_apply double_conv_modules
      /\ updates_statistics (T:=T) inconv_forward inconv_apply inconv_modules
      /\ updates_statistics (T:=T) down_forward down_apply down_modules
      /\ updates_statistics up_forward2 up_apply up_modules
      /\ updates_statistics (T:=T) outconv_forward outconv_apply outconv_modules
      /\ updates_statistics (T:=T) UNet_forward UNet_apply UNet_modules
      /\ updates_statistics (T:=T) Bottleneck_forward Bottleneck_apply Bottleneck_modules
      /\ updates_statistics (T:=T) DoubleResNet_forward DoubleResNet_apply
           DoubleResNet_modules
      /\ updates_statistics ConvTransposeLayer_forward2 ConvTransposeLayer_apply
           ConvTransposeLayer_modules
      /\ updates_statistics (T:=T) UResNet_forward UResNet_apply UResNet_modules).
Proof.
  split; repeat apply conj.
  - exact double_conv_writes_only_statistics.
  - exact inconv_writes_only_statistics.
  - exact down_writes_only_statistics.
  - exact up_writes_only_statistics.
  - exact outconv_writes_only_statistics.
  - exact UNet_writes_only_statistics.
  - exact Bottleneck_writes_only_statistics.
  - exact DoubleResNet_writes_only_statistics.
  - exact ConvTransposeLayer_writes_only_statistics.
  - exact UResNet_writes_only_statistics.
  - intros m x y m'. apply double_conv_trained.
  - intros m x y m'. apply inconv_trained.
  - intros m x y m'. apply down_trained.
  - intros m x y m'. apply up_trained.
  - intros m x y m' _. apply outconv_trained.
  - intros m x y m'. apply UNet_trained.
  - intros m x y m'. apply Bottleneck_trained.
  - intros m x y m'. apply DoubleResNet_trained.
  - intros m x y m'. apply ConvTransposeLayer_trained.
  - intros m x y m'. apply UResNet_trained.
Qed.

(** C9 (amended): in training mode, the mode every module is constructed
    in, every forward pass is a function of the input, the configuration
    and the learned parameters: two modules of one class that differ at
    most in running statistics return the same tensor for the same input
    (or both raise).  And calling forward again, on the module as the first
    call left it and on the same input, returns the same tensor, in
    training mode and in evaluation mode.  This holds for every building
    block and for both networks; for [BasicBlock] it holds when it holds of
    the class of the module passed as [downsample].  In evaluation mode
    the output also depends on the running statistics. *)
Theorem forward_deterministic :
  (reads_only_weights (T:=T) double_conv_forward double_conv_apply
   /\ reads_only_weights (T:=T) inconv_forward inconv_apply
   /\ reads_only_weights (T:=T) down_forward down_apply
   /\ reads_only_weights up_forward2 up_apply
   /\ reads_only_weights (T:=T) outconv_forward outconv_apply
   /\ reads_only_weights (T:=T) UNet_forward UNet_apply
   /\ reads_only_weights (T:=T) Bottleneck_forward Bottleneck_apply
   /\ reads_only_weights (T:=T) DoubleResNet_forward DoubleResNet_apply
   /\ reads_only_weights ConvTransposeLayer_forward2 ConvTransposeLayer_apply
   /\ reads_only_weights (T:=T) UResNet_forward UResNet_apply)
  /\ (repeatable (T:=T) double_conv_forward double_conv_apply
      /\ repeatable (T:=T) inconv_forward inconv_apply
      /\ repeatable (T:=T) down_forward down_apply
      /\ repeatable up_forward2 up_apply
      /\ repeatable (T:=T) outconv_forward outconv_apply
      /\ repeatable (T:=T) UNet_forward UNet_apply
      /\ repeatable (T:=T) Bottleneck_forward Bottleneck_apply
      /\ repeatable (T:=T) DoubleResNet_forward DoubleResNet_apply
      /\ repeatable ConvTransposeLayer_forward2 ConvTransposeLayer_apply
      /\ repeatable (T:=T) UResNet_forward UResNet_apply)
  /\ (forall (IO : InplaceOps T) (D : Type)
             (downsample_forward : D -> T -> option (T * D))
             (downsample_apply : visitor P -> D -> D),
        writes_only_statistics downsample_forward downsample_apply ->
        reads_only_weights downsample_forward downsample_apply ->
        reads_only_weights (BasicBlock_forward downsample_forward)
          (fun v => BasicBlock_apply v (downsample_apply v))
        /\ repeatable (BasicBlock_forward downsample_forward)
             (fun v => BasicBlock_apply v (downsample_apply v))).
Proof.
  split; [|split]; repeat apply conj.
  - exact double_conv_reads_only_weights.
  - exact inconv_reads_only_weights.
  - exact down_reads_only_weights.
  - exact up_reads_only_weights.
  - exact outconv_reads_only_weights.
  - exact UNet_reads_only_weights.
  - exact Bottleneck_reads_only_weights.
  - exact DoubleResNet_reads_only_weights.
  - exact ConvTransposeLayer_reads_only_weights.
  - exact UResNet_reads_only_weights.
  - exact double_conv_repeatable.
  - exact inconv_repeatable.
  - exact down_repeatable.
  - exact up_repeatable.
  - exact outconv_repeatable.
  - exact UNet_repeatable.
  - exact Bottleneck_repeatable.
  - exact DoubleResNet_repeatable.
  - exact ConvTransposeLayer_repeatable.
  - exact UResNet_repeatable.
  - intros IO D downsample_forward downsample_apply W R. split.
    + now apply BasicBlock_reads_only_weights.
    + now apply BasicBlock_repeatable.
Qed.

(** [UResNet.forward] is its last convolution applied to what the rest of
    it returns. *)
Lemma UResNet_forward_features (m : UResNet P) (x : T) :
  UResNet_forward m x
  = ('(z, m') <- UResNet_features m x ;;
     y <- conv2d (conv13 m) z ;;
     Some (y, m')).
Proof.
  unfold UResNet_forward, UResNet_features.
  repeat match goal with
         | |- bind ?e _ = bind (bind ?e _) _ =>
             destruct e as [?|]; cbn [bind]; [|reflexivity]
         | |- match ?r with (_, _) => _ end = bind (match ?r with (_, _) => _ end) _ =>
             destruct r as [? ?]
         end.
  reflexivity.
Qed.

End Classes.

Lemma forward_writes_only_statistics_witness :
  match UNet_forward (UNet_init (P:=init) 3 5) (mkSize 2 3 16 16) with
  | Some (_, m') =>
      UNet_apply (set_stats (Filled 0) (Filled 1) 0) m' = UNet_init 3 5
      /\ Forall2 (trained_once (T:=Size)) (UNet_modules (UNet_init 3 5)) (UNet_modules m')
  | None => False
  end.
Proof.
  assert (E : output (UNet_forward (UNet_init (P:=init) 3 5) (mkSize 2 3 16 16))
              = Some (mkSize 2 5 16 16)) by (vm_compute; reflexivity).
  remember (UNet_forward (UNet_init (P:=init) 3 5) (mkSize 2 3 16 16)) as r eqn:R.
  destruct r as [[y m']|]; [|discriminate E].
  destruct (forward_writes_only_statistics (T:=Size) (P:=init))
    as ((_ & _ & _ & _ & _ & W & _) & (_ & _ & _ & _ & _ & U & _)).
  split.
  - rewrite (proj1 (W _ _ _ _ (eq_sym R))). reflexivity.
  - exact (U _ _ _ _ eq_refl (eq_sym R)).
Defined.

Lemma forward_deterministic_witness :
  match UNet_forward (UNet_init (P:=init) 3 5) (mkSize 2 3 16 16) with
  | Some (y, m') => output (UNet_forward m' (mkSize 2 3 16 16)) = Some y
  | None => False
  end.
Proof.
  assert (E : output (UNet_forward (UNet_init (P:=init) 3 5) (mkSize 2 3 16 16))
              = Some (mkSize 2 5 16 16)) by (vm_compute; reflexivity).
  remember (UNet_forward (UNet_init (P:=init) 3 5) (mkSize 2 3 16 16)) as r eqn:R.
  destruct r as [[y m']|]; [|discriminate E].
  destruct (forward_deterministic (T:=Size) (P:=init))
    as (_ & (_ & _ & _ & _ & _ & D & _) & _).
  apply (D true (UNet_init 3 5) (mkSize 2 3 16 16) y m' eq_refl (eq_sym R)).
Defined.

(** C9, as the claim states it, in evaluation mode and in exact arithmetic
    on an image of one pixel: two [double_conv] modules with the same
    configuration and the same learned parameters, one with running means
    0 and one with running means 10, return 10 and 0 for the input 10; and
    two UResNets that differ in their running means only, 0 and 1, return
    the scores (16, 16) and (32, 32) for the input 0. *)
Lemma forward_eval_reads_statistics :
  ~ function_of_weights (T:=Pixel) double_conv_forward double_conv_apply
  /\ ~ function_of_weights (T:=Pixel) UResNet_forward UResNet_apply.
Proof.
  split; intros H.
  - assert (E : output (double_conv_forward (filled_double_conv 0) [10%Q]) = Some [10%Q]
                /\ output (double_conv_forward (filled_double_conv 10) [10%Q]) = Some [0%Q])
      by (split; vm_compute; reflexivity).
    destruct E as [E1 E2].
    pose proof (H (Some 0%Q) (Some 0%Q) 0 (filled_double_conv 0) (filled_double_conv 10)
                  [10%Q] eq_refl) as N.
    assert (N' : Some [10%Q] = Some [0%Q])
      by (exact (eq_trans (eq_sym E1) (eq_trans N E2))).
    discriminate N'.
  - assert (E : output (UResNet_forward (filled_UResNet 1 0 (-1) 1 0) [0%Q])
                = Some [16%Q; 16%Q]
                /\ output (UResNet_forward (filled_UResNet 1 0 (-1) 1 1) [0%Q])
                   = Some [32%Q; 32%Q])
      by (split; vm_compute; reflexivity).
    destruct E as [E1 E2].
    assert (S : UResNet_apply (set_stats (Some 0%Q) (Some 0%Q) 0)
                  (filled_UResNet 1 0 (-1) 1 0)
                = UResNet_apply (set_stats (Some 0%Q) (Some 0%Q) 0)
                    (filled_UResNet 1 0 (-1) 1 1))
      by (vm_compute; reflexivity).
    pose proof (H (Some 0%Q) (Some 0%Q) 0
                  (filled_UResNet 1 0 (-1) 1 0) (filled_UResNet 1 0 (-1) 1 1)
                  [0%Q] S) as N.
    assert (N' : Some [16%Q; 16%Q] = Some [32%Q; 32%Q])
      by (exact (eq_trans (eq_sym E1) (eq_trans N E2))).
    discriminate N'.
Qed.

(** C10: what [UResNet.forward] returns is the tensor that its last
    convolution, [conv13], returns for what the rest of the forward pass
    computed from the input, the rectified output of [bn12]; nothing is
    applied to it afterwards.  [conv13] has a 1x1 kernel and one output
    channel per class.  So the scores are not normalised: in exact
    arithmetic on an image of one pixel, a UResNet whose features are all
    1 and whose convolution weights are all -1 returns the scores
    (-16, -16), which are negative and add up to -32; and one whose
    convolution weights are all 1 returns the scores (16, 16) for the
    input 0 and (0, 0) for the input 1. *)
Theorem UResNet_forward_returns_conv13 :
  (forall (T P : Type) (TO : TensorOps T P) (m : UResNet P) (x : T),
      UResNet_forward m x
      = ('(z, m') <- UResNet_features m x ;;
         y <- conv2d (conv13 m) z ;;
         Some (y, m')))
  /\ (forall (P : Type) (PO : ParamOps P)
             (num_classes input_channels inplanes : Z) (showsizes : bool),
        let c := conv13 (UResNet_init (P:=P) num_classes input_channels inplanes showsizes) in
        in_channels c = 16 /\ out_channels c = num_classes /\ kernel_size c = (1, 1)
        /\ stride c = 1 /\ padding c = 0)
  /\ (output (UResNet_features (filled_UResNet (-1) 0 1 1 0) [0%Q]) = Some (repeat 1%Q 16)
      /\ exists scores : Pixel,
          output (UResNet_forward (filled_UResNet (-1) 0 1 1 0) [0%Q]) = Some scores
          /\ scores = [(-16)%Q; (-16)%Q]
          /\ Forall (fun s => (s < 0)%Q) scores
          /\ ~ (pixel_sum scores == 1)%Q)
  /\ (output (UResNet_forward (filled_UResNet 1 0 (-1) 1 0) [0%Q]) = Some [16%Q; 16%Q]
      /\ output (UResNet_forward (filled_UResNet 1 0 (-1) 1 0) [1%Q]) = Some [0%Q; 0%Q]).
Proof.
  split; [|split; [|split]].
  - intros T P TO m x. apply UResNet_forward_features.
  - intros P PO num_classes input_channels inplanes showsizes. cbn. auto.
  - split; [vm_compute; reflexivity|].
    exists [(-16)%Q; (-16)%Q]. split; [vm_compute; reflexivity|].
    split; [reflexivity|]. split.
    + repeat constructor.
    + intros E. vm_compute in E. discriminate E.
  - split; vm_compute; reflexivity.
Qed.

(** * Further properties

    Which inputs each [forward] accepts and which it refuses, what a
    forward call does to the counters of the batch normalisations, what the
    initialisation loop leaves alone, and [BasicBlock]. *)

(** ** Which sizes each module accepts

    For each class, the converse of its size lemma: a forward call that
    returns was given an input that the size lemma covers. *)

(** A result that is [s] under condition [C], and is some result only
    under [C], is [s] exactly under [C] and an exception otherwise. *)
Lemma accepts_exactly {A : Type} (r : option A) (s : A) (C : Prop) :
  (C -> r = Some s) -> (forall y, r = Some y -> C) ->
  (r = Some s <-> C) /\ (r = None <-> ~ C).
Proof.
  intros HC HS. repeat split.
  - intros E. exact (HS s E).
  - exact HC.
  - intros E c. rewrite (HC c) in E. discriminate E.
  - intros N. destruct r as [y|]; [|reflexivity]. destruct (N (HS y eq_refl)).
Qed.

Lemma returns_exactly {A S : Type} (r : option (A * S)) (s : A) (C : Prop) :
  (C -> output r = Some s) -> (forall y st, r = Some (y, st) -> C) ->
  returns_exactly_when (output r) s C.
Proof.
  intros HC HS. apply accepts_exactly; [exact HC|].
  intros y E. destruct (output_some _ _ E) as [st E']. exact (HS y st E').
Qed.

(** Splits off the first call of a successful run [H], leaving sizes whole. *)
Ltac call H :=
  let a := fresh "r" in
  let E := fresh "E" in
  apply bind_some in H; destruct H as (a & E & H);
  try match type of a with
      | (_ * _)%type => destruct a as [? ?]
      end;
  cbn beta iota zeta in H.

(** Splits a successful run [H] into its calls. *)
Ltac calls H := repeat call H.

(** Replaces the tensor that the call [E] returned by the one that the
    size lemma [L] gives for that call. *)
Ltac known E L :=
  let K := fresh "K" in
  pose proof L as K; rewrite E in K; cbn [output option_map fst] in K;
  injection K as ->.

Section SizeInversion.
Context {P : Type} {PO : ParamOps P}.
Variable mode : bool.
Variable v : visitor P.
Hypothesis Hv : keeps_config mode v.

Lemma conv2d_accepts in_ch out_ch k s p b n c h w y :
  conv2d (on_conv v (nn_Conv2d in_ch out_ch k s p b)) (mkSize n c h w) = Some y ->
  c = in_ch /\ 0 < s /\ k <= h + 2 * p /\ k <= w + 2 * p.
Proof.
  destruct (kc_conv mode v Hv (nn_Conv2d in_ch out_ch k s p b)) as (E1 & E2 & E3 & E4 & E5).
  cbn in E1, E2, E3, E4, E5.
  cbn [conv2d SizeOps]. unfold size_conv2d. rewrite E1, E2, E3, E4, E5.
  cbn [batch channels height width].
  destruct (Z.eqb_spec c in_ch); [|discriminate].
  destruct (Z.ltb_spec 0 s); [|discriminate].
  destruct (Z.leb_spec k (h + 2 * p)); [|discriminate].
  destruct (Z.leb_spec k (w + 2 * p)); [|discriminate].
  auto.
Qed.

Lemma BatchNorm2d_accepts nf n c h w y s :
  BatchNorm2d_forward (on_bn v (nn_BatchNorm2d nf)) (mkSize n c h w) = Some (y, s) ->
  c = nf /\ bn_fits mode n h w.
Proof.
  destruct (kc_bn mode v Hv (nn_BatchNorm2d nf)) as (E1 & E2).
  cbn in E1. specialize (E2 eq_refl).
  unfold BatchNorm2d_forward. rewrite E1, E2.
  destruct mode; cbn [batch_norm_train batch_norm_eval SizeOps];
    unfold size_batch_norm; cbn [batch channels height width];
    destruct (Z.eqb_spec c nf); cbn [andb negb bind]; try discriminate.
  - destruct (Z.eqb_spec (n * h * w) 1); cbn [negb bind]; [discriminate|].
    intros _. split; [assumption|]. intros _. assumption.
  - intros _. split; [assumption|]. intros D. discriminate D.
Qed.

Lemma double_conv_accepts in_ch out_ch n c h w y s :
  double_conv_forward (double_conv_apply v (double_conv_init in_ch out_ch))
    (mkSize n c h w) = Some (y, s) ->
  c = in_ch /\ 1 <= h /\ 1 <= w /\ bn_fits mode n h w.
Proof.
  unfold double_conv_forward.
  cbn [double_conv_apply double_conv_init conv_0 conv_1 conv_3 conv_4].
  intros H. calls H.
  destruct (conv2d_accepts _ _ _ _ _ _ _ _ _ _ _ E) as (Hc & _ & Hh & Hw).
  rewrite (conv2d_size mode v Hv in_ch out_ch 3 1 1 true n c h w) in E by lia.
  injection E as <-. rewrite !window_3, !Z.div_1_r in E0.
  replace (h - 1 + 1) with h in E0 by lia. replace (w - 1 + 1) with w in E0 by lia.
  destruct (BatchNorm2d_accepts _ _ _ _ _ _ _ E0) as (_ & Hf).
  repeat split; auto; lia.
Qed.

Lemma inconv_accepts in_ch out_ch n c h w y s :
  inconv_forward (inconv_apply v (inconv_init in_ch out_ch)) (mkSize n c h w)
  = Some (y, s) ->
  c = in_ch /\ 1 <= h /\ 1 <= w /\ bn_fits mode n h w.
Proof.
  unfold inconv_forward. cbn [inconv_apply inconv_init inconv_conv].
  intros H. calls H. exact (double_conv_accepts _ _ _ _ _ _ _ _ E).
Qed.

Lemma max_pool2d_accepts n c h w y :
  max_pool2d (P:=P) (mkMaxPool2d 2) (mkSize n c h w) = Some y -> 2 <= h /\ 2 <= w.
Proof.
  cbn [max_pool2d SizeOps]. unfold size_max_pool2d, window_out.
  cbn [pool_kernel_size batch channels height width].
  destruct (Z.leb_spec 1 ((h + 2 * 0 - 2) / 2 + 1)); [|discriminate].
  destruct (Z.leb_spec 1 ((w + 2 * 0 - 2) / 2 + 1)); [|discriminate].
  intros _. split; zdiv.
Qed.

Lemma down_accepts in_ch out_ch n c h w y s :
  down_forward (down_apply v (down_init in_ch out_ch)) (mkSize n c h w) = Some (y, s) ->
  c = in_ch /\ 2 <= h /\ 2 <= w /\ bn_fits mode n (h / 2) (w / 2).
Proof.
  unfold down_forward. cbn [down_apply down_init mpconv_0 mpconv_1].
  intros H. calls H.
  destruct (max_pool2d_accepts _ _ _ _ _ E) as (Hh & Hw).
  rewrite max_pool2d_size in E by assumption. injection E as <-.
  destruct (double_conv_accepts _ _ _ _ _ _ _ _ E0) as (Hc & _ & _ & Hf).
  auto.
Qed.

Lemma outconv_accepts in_ch out_ch n c h w y s :
  outconv_forward (outconv_apply v (outconv_init in_ch out_ch)) (mkSize n c h w)
  = Some (y, s) ->
  c = in_ch /\ 1 <= h /\ 1 <= w.
Proof.
  unfold outconv_forward. cbn [outconv_apply outconv_init outconv_conv].
  intros H. calls H.
  destruct (conv2d_accepts _ _ _ _ _ _ _ _ _ _ _ E) as (Hc & _ & Hh & Hw).
  repeat split; auto; lia.
Qed.

Lemma pad_dim_accepts len before after r :
  pad_dim len before after = Some r -> 0 < len + before + after.
Proof.
  unfold pad_dim. intros H. calls H.
  destruct (Z.ltb_spec 0 (len + before + after)); [assumption | discriminate].
Qed.

Lemma pad_accepts n c h w x2 r :
  pad (P:=P) (mkSize n c h w) (up_padding x2 (mkSize n c h w)) = Some r ->
  1 <= height x2 /\ 1 <= width x2.
Proof.
  cbn [pad SizeOps]. unfold size_pad, up_padding.
  cbn [batch channels height width]. intros H. calls H.
  apply pad_dim_accepts in E. apply pad_dim_accepts in E0. lia.
Qed.

Lemma up_padded_accepts in_ch out_ch bilinear n c1 h1 w1 x2 r :
  up_padded (up_apply v (up_init in_ch out_ch bilinear)) (mkSize n c1 h1 w1) x2 = Some r ->
  (bilinear = false -> c1 = in_ch / 2)
  /\ 1 <= h1 /\ 1 <= w1 /\ 1 <= height x2 /\ 1 <= width x2.
Proof.
  unfold up_padded, up_init. cbn [up_apply up_up]. intros H. call H.
  destruct bilinear; cbn [upsampler_apply] in E.
  - cbn [upsample SizeOps] in E. unfold size_upsample in E.
    cbn [scale_factor batch channels height width] in E.
    destruct (Z.ltb_spec 0 h1); [|discriminate E].
    destruct (Z.ltb_spec 0 w1); [|discriminate E].
    cbn [andb Z.ltb Z.compare] in E. injection E as <-.
    cbn [size SizeOps] in H. apply pad_accepts in H.
    repeat split; try lia; discriminate.
  - destruct (kc_deconv mode v Hv (nn_ConvTranspose2d (in_ch / 2) (in_ch / 2) 2 2 0 true))
      as (E1 & E2 & E3 & E4 & E5).
    cbn in E1, E2, E3, E4, E5.
    cbn [conv_transpose2d SizeOps] in E. unfold size_conv_transpose2d in E.
    rewrite E1, E2, E3, E4, E5 in E. cbn [batch channels height width] in E.
    destruct (Z.eqb_spec c1 (in_ch / 2)); [|discriminate E].
    destruct (Z.ltb_spec 0 h1); [|discriminate E].
    destruct (Z.ltb_spec 0 w1); [|discriminate E].
    cbn [andb Z.ltb Z.compare] in E. injection E as <-.
    cbn [size SizeOps] in H. apply pad_accepts in H.
    repeat split; auto; lia.
Qed.

Lemma up_accepts in_ch out_ch bilinear n1 c1 h1 w1 n2 c2 h2 w2 y s :
  up_forward (up_apply v (up_init in_ch out_ch bilinear))
    (mkSize n1 c1 h1 w1) (mkSize n2 c2 h2 w2) = Some (y, s) ->
  n1 = n2 /\ c2 + c1 = in_ch /\ (bilinear = false -> c1 = in_ch / 2)
  /\ 1 <= h1 /\ 1 <= w1 /\ 1 <= h2 /\ 1 <= w2 /\ bn_fits mode n2 h2 w2.
Proof.
  unfold up_forward. intros H. calls H.
  destruct (up_padded_accepts _ _ _ _ _ _ _ _ _ E) as (Hb & Hh1 & Hw1 & Hh2 & Hw2).
  cbn [height width] in Hh2, Hw2.
  rewrite (up_padded_size mode v Hv in_ch out_ch bilinear n1 c1 h1 w1 (mkSize n2 c2 h2 w2))
    in E by assumption.
  injection E as <-. cbn [height width] in E0.
  cbn [cat SizeOps] in E0. unfold size_cat in E0. cbn [batch channels height width] in E0.
  rewrite !Z.eqb_refl in E0.
  destruct (Z.eqb_spec n2 n1); [|discriminate E0].
  cbn [andb] in E0. injection E0 as <-.
  unfold up_init in E1. cbn [up_apply up_conv] in E1.
  destruct (double_conv_accepts _ _ _ _ _ _ _ _ E1) as (Hc & _ & _ & Hf).
  repeat split; auto.
Qed.

Lemma UNet_accepts n_channels n_classes n c h w y s :
  UNet_forward (UNet_apply v (UNet_init n_channels n_classes)) (mkSize n c h w)
  = Some (y, s) ->
  c = n_channels /\ 16 <= h /\ 16 <= w /\ bn_fits mode n (h / 16) (w / 16).
Proof.
  unfold UNet_forward.
  cbn [UNet_apply UNet_init inc down1 down2 down3 down4 up1 up2 up3 up4 outc].
  intros H. calls H.
  destruct (inconv_accepts _ _ _ _ _ _ _ _ E) as (Hc & Hh & Hw & F0).
  known E (inconv_size mode v Hv n_channels 64 n c h w Hc Hh Hw F0).
  destruct (down_accepts _ _ _ _ _ _ _ _ E0) as (_ & Hh1 & Hw1 & F1).
  known E0 (down_size mode v Hv 64 128 n 64 h w eq_refl Hh1 Hw1 F1).
  destruct (down_accepts _ _ _ _ _ _ _ _ E1) as (_ & Hh2 & Hw2 & F2).
  known E1 (down_size mode v Hv 128 256 n 128 _ _ eq_refl Hh2 Hw2 F2).
  destruct (down_accepts _ _ _ _ _ _ _ _ E2) as (_ & Hh3 & Hw3 & F3).
  known E2 (down_size mode v Hv 256 512 n 256 _ _ eq_refl Hh3 Hw3 F3).
  destruct (down_accepts _ _ _ _ _ _ _ _ E3) as (_ & Hh4 & Hw4 & F4).
  replace (h / 2 / 2 / 2 / 2) with (h / 16) in F4 by zdiv.
  replace (w / 2 / 2 / 2 / 2) with (w / 16) in F4 by zdiv.
  repeat split; auto; zdiv.
Qed.

Lemma Bottleneck_accepts inplanes planes stride n c h w y s :
  1 <= stride ->
  Bottleneck_forward (Bottleneck_apply v (Bottleneck_init inplanes planes stride))
    (mkSize n c h w) = Some (y, s) ->
  c = inplanes /\ 1 <= h /\ 1 <= w
  /\ bn_fits mode n ((h - 1) / stride + 1) ((w - 1) / stride + 1).
Proof.
  intros Hs. unfold Bottleneck_forward.
  cbn [Bottleneck_apply Bottleneck_init b_conv1 b_bn1 b_conv2 b_bn2 b_conv3 b_bn3
       b_stride b_shortcut].
  intros H. call H. clear E. calls H.
  destruct (conv2d_accepts _ _ _ _ _ _ _ _ _ _ _ E) as (Hc & _ & Hh & Hw).
  rewrite (conv2d_size mode v Hv inplanes planes 1 1 0 false n c h w) in E by lia.
  injection E as <-. rewrite !window_1 in E0.
  destruct (BatchNorm2d_accepts _ _ _ _ _ _ _ E0) as (_ & F1).
  known E0 (BatchNorm2d_size mode v Hv planes n planes h w eq_refl F1).
  cbn [relu SizeOps] in E1.
  rewrite (conv2d_size mode v Hv planes planes 3 stride 1 false n planes h w) in E1 by lia.
  injection E1 as <-. rewrite !window_3 in E2.
  destruct (BatchNorm2d_accepts _ _ _ _ _ _ _ E2) as (_ & F2).
  repeat split; auto; lia.
Qed.

(** Without a shortcut convolution the input itself is added to the
    residual, and the sum broadcasts over the channels. *)
Lemma add_channels n c p h w :
  add (P:=P) (mkSize n c h w) (mkSize n p h w)
  = if (c =? p) || (c =? 1) || (p =? 1)
    then Some (mkSize n (if c =? 1 then p else c) h w)
    else None.
Proof.
  cbn [add SizeOps]. unfold size_add, broadcast. cbn [batch channels height width].
  rewrite !Z.eqb_refl. cbn [bind].
  destruct (Z.eqb_spec c p) as [->|]; cbn [orb bind].
  - destruct (Z.eqb_spec p 1); reflexivity.
  - destruct (Z.eqb_spec c 1); cbn [orb bind]; [reflexivity|].
    destruct (Z.eqb_spec p 1); reflexivity.
Qed.

Lemma Bottleneck_stride1_size inplanes planes n c h w :
  c = inplanes -> inplanes = planes \/ inplanes = 1 \/ planes = 1 ->
  1 <= h -> 1 <= w -> bn_fits mode n h w ->
  output (Bottleneck_forward (Bottleneck_apply v (Bottleneck_init inplanes planes 1))
            (mkSize n c h w))
  = Some (mkSize n (if inplanes =? 1 then planes else inplanes) h w).
Proof.
  intros -> Hp Hh Hw F.
  unfold Bottleneck_forward.
  cbn [Bottleneck_apply Bottleneck_init b_conv1 b_bn1 b_conv2 b_bn2 b_conv3 b_bn3
       b_stride b_shortcut Z.ltb Z.compare Pos.compare Pos.compare_cont option_map bind].
  rewrite (conv2d_size mode v Hv inplanes planes 1 1 0 false n inplanes h w) by lia.
  cbn [bind]. rewrite !window_1.
  run (BatchNorm2d_size mode v Hv planes n planes h w eq_refl F).
  cbn [relu SizeOps].
  rewrite (conv2d_size mode v Hv planes planes 3 1 1 false n planes h w) by lia.
  cbn [bind]. rewrite !window_3, !Z.div_1_r.
  replace (h - 1 + 1) with h by lia. replace (w - 1 + 1) with w by lia.
  run (BatchNorm2d_size mode v Hv planes n planes h w eq_refl F).
  rewrite (conv2d_size mode v Hv planes planes 1 1 0 false n planes h w) by lia.
  cbn [bind]. rewrite !window_1.
  run (BatchNorm2d_size mode v Hv planes n planes h w eq_refl F).
  rewrite add_channels.
  replace ((inplanes =? planes) || (inplanes =? 1) || (planes =? 1)) with true; [reflexivity|].
  symmetry. rewrite !orb_true_iff, !Z.eqb_eq. tauto.
Qed.

Lemma Bottleneck_stride1_accepts inplanes planes n c h w y s :
  Bottleneck_forward (Bottleneck_apply v (Bottleneck_init inplanes planes 1))
    (mkSize n c h w) = Some (y, s) ->
  c = inplanes /\ (inplanes = planes \/ inplanes = 1 \/ planes = 1)
  /\ 1 <= h /\ 1 <= w /\ bn_fits mode n h w.
Proof.
  unfold Bottleneck_forward.
  cbn [Bottleneck_apply Bottleneck_init b_conv1 b_bn1 b_conv2 b_bn2 b_conv3 b_bn3
       b_stride b_shortcut Z.ltb Z.compare Pos.compare Pos.compare_cont option_map bind].
  intros H. calls H.
  destruct (conv2d_accepts _ _ _ _ _ _ _ _ _ _ _ E) as (Hc & _ & Hh & Hw).
  rewrite (conv2d_size mode v Hv inplanes planes 1 1 0 false n c h w) in E by lia.
  injection E as <-. rewrite !window_1 in E0.
  destruct (BatchNorm2d_accepts _ _ _ _ _ _ _ E0) as (_ & F).
  known E0 (BatchNorm2d_size mode v Hv planes n planes h w eq_refl F).
  cbn [relu SizeOps] in E1.
  rewrite (conv2d_size mode v Hv planes planes 3 1 1 false n planes h w) in E1 by lia.
  injection E1 as <-. rewrite !window_3, !Z.div_1_r in E2.
  replace (h - 1 + 1) with h in E2 by lia. replace (w - 1 + 1) with w in E2 by lia.
  known E2 (BatchNorm2d_size mode v Hv planes n planes h w eq_refl F).
  cbn [relu SizeOps] in E3.
  rewrite (conv2d_size mode v Hv planes planes 1 1 0 false n planes h w) in E3 by lia.
  injection E3 as <-. rewrite !window_1 in E4.
  known E4 (BatchNorm2d_size mode v Hv planes n planes h w eq_refl F).
  rewrite add_channels in E5.
  destruct ((c =? planes) || (c =? 1) || (planes =? 1)) eqn:B; [|discriminate E5].
  rewrite !orb_true_iff, !Z.eqb_eq in B. subst c.
  repeat split; try lia; tauto.
Qed.

Lemma DoubleResNet_accepts inplanes planes stride n c h w y s :
  1 <= stride ->
  DoubleResNet_forward (DoubleResNet_apply v (DoubleResNet_init inplanes planes stride))
    (mkSize n c h w) = Some (y, s) ->
  c = inplanes /\ 1 <= h /\ 1 <= w
  /\ bn_fits mode n ((h - 1) / stride + 1) ((w - 1) / stride + 1).
Proof.
  intros Hs. unfold DoubleResNet_forward.
  cbn [DoubleResNet_apply DoubleResNet_init res1 res2].
  intros H. calls H. exact (Bottleneck_accepts _ _ _ _ _ _ _ _ _ Hs E).
Qed.

Lemma conv_transpose2d_accepts in_ch out_ch n c h w o y :
  conv_transpose2d (on_deconv v (nn_ConvTranspose2d in_ch out_ch 3 2 1 false)) (Some o)
    (mkSize n c h w) = Some y ->
  c = in_ch /\ 2 * h - 1 <= height o <= 2 * h /\ 2 * w - 1 <= width o <= 2 * w.
Proof.
  destruct (kc_deconv mode v Hv (nn_ConvTranspose2d in_ch out_ch 3 2 1 false))
    as (E1 & E2 & E3 & E4 & E5).
  cbn in E1, E2, E3, E4, E5.
  cbn [conv_transpose2d SizeOps]. unfold size_conv_transpose2d, deconv_min.
  rewrite E1, E2, E3, E4, E5. cbn [batch channels height width].
  destruct (Z.eqb_spec c in_ch); [|discriminate].
  destruct (Z.ltb_spec 0 h); [|discriminate].
  destruct (Z.ltb_spec 0 w); [|discriminate].
  cbn [andb Z.ltb Z.compare].
  destruct (Z.leb_spec ((h - 1) * 2 - 2 * 1 + 3) (height o)); [|discriminate].
  destruct (Z.leb_spec (height o) ((h - 1) * 2 - 2 * 1 + 3 + 2 - 1)); [|discriminate].
  destruct (Z.leb_spec ((w - 1) * 2 - 2 * 1 + 3) (width o)); [|discriminate].
  destruct (Z.leb_spec (width o) ((w - 1) * 2 - 2 * 1 + 3 + 2 - 1)); [|discriminate].
  intros _. lia.
Qed.

Lemma ConvTransposeLayer_accepts inplanes outplanes stride n c h w o y s :
  ConvTransposeLayer_forward
    (ConvTransposeLayer_apply v (ConvTransposeLayer_init inplanes outplanes stride))
    (mkSize n c h w) o = Some (y, s) ->
  c = inplanes /\ 1 <= h /\ 1 <= w /\ bn_fits mode n h w
  /\ 2 * h - 1 <= height o <= 2 * h /\ 2 * w - 1 <= width o <= 2 * w.
Proof.
  unfold ConvTransposeLayer_forward.
  cbn [ConvTransposeLayer_apply ConvTransposeLayer_init res deconv].
  intros H. calls H.
  destruct (Bottleneck_accepts _ _ 1 _ _ _ _ _ _ ltac:(lia) E) as (Hc & Hh & Hw & F).
  known E (Bottleneck_size mode v Hv inplanes inplanes 1 n c h w Hc ltac:(lia)
             (or_intror eq_refl) Hh Hw F).
  rewrite !Z.div_1_r in E0, F.
  replace (h - 1 + 1) with h in E0, F by lia.
  replace (w - 1 + 1) with w in E0, F by lia.
  destruct (conv_transpose2d_accepts _ _ _ _ _ _ _ _ E0) as (_ & Ho & Hq).
  repeat split; auto; lia.
Qed.

Lemma UResNet_accepts num_classes input_channels inplanes showsizes n c h w y s :
  UResNet_forward
    (UResNet_apply v (UResNet_layers num_classes input_channels inplanes showsizes))
    (mkSize n c h w) = Some (y, s) ->
  c = input_channels /\ 1 <= h /\ 1 <= w
  /\ bn_fits mode n (ceil_div h 16) (ceil_div w 16).
Proof.
  assert (W : forall l, (l - 1) / 1 + 1 = l) by (intros; rewrite Z.div_1_r; lia).
  unfold UResNet_forward, UResNet_layers, _make_encoding_layer, _make_decoding_layer.
  cbn [UResNet_apply conv1 bn1 conv2 bn2 conv3 bn3
       enc_layer1 enc_layer2 enc_layer3 enc_layer4
       dec_layer4 dec_layer3 dec_layer2 dec_layer1
       nkernels conv10 bn10 conv11 bn11 conv12 bn12 conv13].
  intros H. do 10 call H. clear H.
  destruct (conv2d_accepts _ _ _ _ _ _ _ _ _ _ _ E) as (Hc & _ & Hh & Hw).
  assert (Hh' : 1 <= h) by lia. assert (Hw' : 1 <= w) by lia. clear Hh Hw.
  rewrite (conv2d_size mode v Hv input_channels inplanes 3 1 1 true n c h w) in E by lia.
  injection E as <-. rewrite !window_3, !W in E0.
  destruct (BatchNorm2d_accepts _ _ _ _ _ _ _ E0) as (_ & F0).
  known E0 (BatchNorm2d_size mode v Hv inplanes n inplanes h w eq_refl F0).
  cbn [relu SizeOps] in E1.
  rewrite (conv2d_size mode v Hv inplanes inplanes 3 1 1 true n inplanes h w) in E1 by lia.
  injection E1 as <-. rewrite !window_3, !W in E2.
  known E2 (BatchNorm2d_size mode v Hv inplanes n inplanes h w eq_refl F0).
  cbn [relu SizeOps] in E3.
  rewrite (conv2d_size mode v Hv inplanes inplanes 3 1 1 true n inplanes h w) in E3 by lia.
  injection E3 as <-. rewrite !window_3, !W in E4.
  known E4 (BatchNorm2d_size mode v Hv inplanes n inplanes h w eq_refl F0).
  cbn [relu SizeOps] in E5.
  destruct (DoubleResNet_accepts _ _ 2 _ _ _ _ _ _ ltac:(lia) E5) as (_ & _ & _ & F1).
  pose proof (halving_bounds h Hh') as Bh1. pose proof (halving_bounds w Hw') as Bw1.
  known E5 (DoubleResNet_size mode v Hv (inplanes * 1) (inplanes * 2) 2 n inplanes h w
              ltac:(lia) ltac:(lia) (or_introl (eq_refl : 1 < 2)) Hh' Hw' F1).
  destruct (DoubleResNet_accepts _ _ 2 _ _ _ _ _ _ ltac:(lia) E6) as (_ & _ & _ & F2).
  pose proof (halving_bounds _ (proj1 Bh1)) as Bh2.
  pose proof (halving_bounds _ (proj1 Bw1)) as Bw2.
  known E6 (DoubleResNet_size mode v Hv (inplanes * 2) (inplanes * 4) 2 n (inplanes * 2)
              _ _ eq_refl ltac:(lia) (or_introl (eq_refl : 1 < 2))
              (proj1 Bh1) (proj1 Bw1) F2).
  destruct (DoubleResNet_accepts _ _ 2 _ _ _ _ _ _ ltac:(lia) E7) as (_ & _ & _ & F3).
  known E7 (DoubleResNet_size mode v Hv (inplanes * 4) (inplanes * 8) 2 n (inplanes * 4)
              _ _ eq_refl ltac:(lia) (or_introl (eq_refl : 1 < 2))
              (proj1 Bh2) (proj1 Bw2) F3).
  destruct (DoubleResNet_accepts _ _ 2 _ _ _ _ _ _ ltac:(lia) E8) as (_ & _ & _ & F4).
  rewrite (halving_four_times h Hh'), (halving_four_times w Hw') in F4.
  auto.
Qed.

End SizeInversion.

(** ** The inputs each forward accepts and the inputs it refuses *)

Section Domains.
Context {P : Type} {PO : ParamOps P}.
Variable mode : bool.

(** X1: [double_conv.forward], and [inconv.forward] which only calls it,
    return a tensor of size (n, out_ch, h, w) exactly when the input has
    in_ch channels, height and width at least 1 and, in training mode, more
    than one value per channel (n * h * w <> 1); on every other input they
    raise. *)
Theorem double_conv_forward_domain (in_ch out_ch n c h w : Z) :
  1 <= in_ch -> 1 <= out_ch -> 1 <= n ->
  returns_exactly_when
    (output (double_conv_forward
               (double_conv_apply (set_training mode) (double_conv_init in_ch out_ch))
               (mkSize n c h w)))
    (mkSize n out_ch h w)
    (c = in_ch /\ 1 <= h /\ 1 <= w /\ bn_fits mode n h w)
  /\ returns_exactly_when
       (output (inconv_forward
                  (inconv_apply (set_training mode) (inconv_init in_ch out_ch))
                  (mkSize n c h w)))
       (mkSize n out_ch h w)
       (c = in_ch /\ 1 <= h /\ 1 <= w /\ bn_fits mode n h w).
Proof.
  intros _ _ _. split; apply returns_exactly.
  - intros (Hc & Hh & Hw & F). now apply (double_conv_size mode).
  - intros y st E. exact (double_conv_accepts mode _ (set_training_keeps_config mode) _ _ _ _ _ _ _ _ E).
  - intros (Hc & Hh & Hw & F). now apply (inconv_size mode).
  - intros y st E. exact (inconv_accepts mode _ (set_training_keeps_config mode) _ _ _ _ _ _ _ _ E).
Qed.

(** X2: [down.forward] returns a tensor of size (n, out_ch, h // 2, w // 2)
    exactly when the input has in_ch channels, height and width at least 2
    and, in training mode, more than one value per channel after the
    pooling; on every other input it raises. *)
Theorem down_forward_domain (in_ch out_ch n c h w : Z) :
  1 <= in_ch -> 1 <= out_ch -> 1 <= n ->
  returns_exactly_when
    (output (down_forward (down_apply (set_training mode) (down_init in_ch out_ch))
               (mkSize n c h w)))
    (mkSize n out_ch (h / 2) (w / 2))
    (c = in_ch /\ 2 <= h /\ 2 <= w /\ bn_fits mode n (h / 2) (w / 2)).
Proof.
  intros _ _ _. apply returns_exactly.
  - intros (Hc & Hh & Hw & F). now apply (down_size mode).
  - intros y st E. exact (down_accepts mode _ (set_training_keeps_config mode) _ _ _ _ _ _ _ _ E).
Qed.

(** X3: for tensors [x1] and [x2] with at least one channel each,
    [up.forward] returns a tensor of size (n2, out_ch, h2, w2), the batch,
    height and width of the skip tensor [x2], exactly when [x1] and [x2]
    have the same batch size, their channels add up to in_ch, [x1] has
    in_ch // 2 channels if the upsampling is the transposed convolution
    (bilinear = False), all heights and widths are at least 1 and, in
    training mode, [x2] has more than one value per channel; whatever the
    height and width of [x1].  On every other pair of such inputs it
    raises. *)
Theorem up_forward_domain (in_ch out_ch : Z) (bilinear : bool)
  (n1 c1 h1 w1 n2 c2 h2 w2 : Z) :
  1 <= in_ch -> 1 <= out_ch -> 1 <= n1 -> 1 <= n2 -> 1 <= c1 -> 1 <= c2 ->
  returns_exactly_when
    (output (up_forward (up_apply (set_training mode) (up_init in_ch out_ch bilinear))
               (mkSize n1 c1 h1 w1) (mkSize n2 c2 h2 w2)))
    (mkSize n2 out_ch h2 w2)
    (n1 = n2 /\ c2 + c1 = in_ch /\ (bilinear = false -> c1 = in_ch / 2)
     /\ 1 <= h1 /\ 1 <= w1 /\ 1 <= h2 /\ 1 <= w2 /\ bn_fits mode n2 h2 w2).
Proof.
  intros _ _ _ _ _ _. apply returns_exactly.
  - intros (-> & Hc & Hb & Hh1 & Hw1 & Hh2 & Hw2 & F). now apply (up_size mode).
  - intros y st E. exact (up_accepts mode _ (set_training_keeps_config mode) _ _ _ _ _ _ _ _ _ _ _ _ _ E).
Qed.

(** X4: [outconv.forward] returns a tensor of size (n, out_ch, h, w)
    exactly when the input has in_ch channels and height and width at least
    1, in either mode; on every other input it raises. *)
Theorem outconv_forward_domain (in_ch out_ch n c h w : Z) :
  1 <= in_ch -> 1 <= out_ch -> 1 <= n ->
  returns_exactly_when
    (output (outconv_forward (outconv_apply (set_training mode) (outconv_init in_ch out_ch))
               (mkSize n c h w)))
    (mkSize n out_ch h w)
    (c = in_ch /\ 1 <= h /\ 1 <= w).
Proof.
  intros _ _ _. apply returns_exactly.
  - intros (Hc & Hh & Hw). now apply (outconv_size mode).
  - intros y st E. exact (outconv_accepts mode _ (set_training_keeps_config mode) _ _ _ _ _ _ _ _ E).
Qed.

(** X5: [UNet.forward] returns a tensor of size (n, n_classes, h, w)
    exactly when the input has n_channels channels, height and width at
    least 16 and, in training mode, more than one value per channel at the
    deepest stage (n * (h // 16) * (w // 16) <> 1); on every other input it
    raises. *)
Theorem UNet_forward_domain (n_channels n_classes n c h w : Z) :
  1 <= n_channels -> 1 <= n_classes -> 1 <= n ->
  returns_exactly_when
    (output (UNet_forward (UNet_apply (set_training mode) (UNet_init n_channels n_classes))
               (mkSize n c h w)))
    (mkSize n n_classes h w)
    (c = n_channels /\ 16 <= h /\ 16 <= w /\ bn_fits mode n (h / 16) (w / 16)).
Proof.
  intros _ _ _. apply returns_exactly.
  - intros (Hc & Hh & Hw & F). now apply (UNet_size mode).
  - intros y st E. exact (UNet_accepts mode _ (set_training_keeps_config mode) _ _ _ _ _ _ _ _ E).
Qed.

(** X6: a [Bottleneck] with stride > 1, or with inplanes = planes, returns
    a tensor of size (n, planes, (h - 1) // stride + 1, (w - 1) // stride + 1)
    exactly when the input has inplanes channels, height and width at least
    1 and, in training mode, more than one value per channel after the
    stride; on every other input it raises. *)
Theorem Bottleneck_forward_domain (inplanes planes stride n c h w : Z) :
  1 <= inplanes -> 1 <= planes -> 1 <= stride -> 1 <= n ->
  1 < stride \/ inplanes = planes ->
  returns_exactly_when
    (output (Bottleneck_forward
               (Bottleneck_apply (set_training mode) (Bottleneck_init inplanes planes stride))
               (mkSize n c h w)))
    (mkSize n planes ((h - 1) / stride + 1) ((w - 1) / stride + 1))
    (c = inplanes /\ 1 <= h /\ 1 <= w
     /\ bn_fits mode n ((h - 1) / stride + 1) ((w - 1) / stride + 1)).
Proof.
  intros _ _ Hs _ Hp. apply returns_exactly.
  - intros (Hc & Hh & Hw & F). now apply (Bottleneck_size mode).
  - intros y st E. exact (Bottleneck_accepts mode _ (set_training_keeps_config mode) _ _ _ _ _ _ _ _ _ Hs E).
Qed.

(** X7: a [Bottleneck] with stride 1 has no shortcut convolution and adds
    its input to the residual, and the sum broadcasts over the channels.
    Its forward succeeds exactly when the input has inplanes channels,
    height and width at least 1, in training mode more than one value per
    channel, and inplanes = planes or one of the two is 1.  So with
    inplanes <> planes and neither equal to 1 it raises on every input; and
    with planes = 1 it returns inplanes channels, not planes. *)
Theorem Bottleneck_without_shortcut_domain (inplanes planes n c h w : Z) :
  1 <= inplanes -> 1 <= planes -> 1 <= n ->
  returns_exactly_when
    (output (Bottleneck_forward
               (Bottleneck_apply (set_training mode) (Bottleneck_init inplanes planes 1))
               (mkSize n c h w)))
    (mkSize n (if inplanes =? 1 then planes else inplanes) h w)
    (c = inplanes /\ (inplanes = planes \/ inplanes = 1 \/ planes = 1)
     /\ 1 <= h /\ 1 <= w /\ bn_fits mode n h w).
Proof.
  intros _ _ _. apply returns_exactly.
  - intros (Hc & Hp & Hh & Hw & F). now apply (Bottleneck_stride1_size mode).
  - intros y st E. exact (Bottleneck_stride1_accepts mode _ (set_training_keeps_config mode) _ _ _ _ _ _ _ _ E).
Qed.

(** X8: an encoding layer ([_make_encoding_layer], a [DoubleResNet]) with
    stride > 1, or with inplanes = planes, returns a tensor of size
    (n, planes, (h - 1) // stride + 1, (w - 1) // stride + 1) exactly when
    the input has inplanes channels, height and width at least 1 and, in
    training mode, more than one value per channel after the stride; on
    every other input it raises. *)
Theorem DoubleResNet_forward_domain (inplanes planes stride n c h w : Z) :
  1 <= inplanes -> 1 <= planes -> 1 <= stride -> 1 <= n ->
  1 < stride \/ inplanes = planes ->
  returns_exactly_when
    (output (DoubleResNet_forward
               (DoubleResNet_apply (set_training mode)
                  (_make_encoding_layer inplanes planes stride))
               (mkSize n c h w)))
    (mkSize n planes ((h - 1) / stride + 1) ((w - 1) / stride + 1))
    (c = inplanes /\ 1 <= h /\ 1 <= w
     /\ bn_fits mode n ((h - 1) / stride + 1) ((w - 1) / stride + 1)).
Proof.
  intros _ _ Hs _ Hp. unfold _make_encoding_layer. apply returns_exactly.
  - intros (Hc & Hh & Hw & F). now apply (DoubleResNet_size mode).
  - intros y st E. exact (DoubleResNet_accepts mode _ (set_training_keeps_config mode) _ _ _ _ _ _ _ _ _ Hs E).
Qed.

(** X9: a decoding layer ([_make_decoding_layer], a [ConvTransposeLayer])
    returns a tensor of size (n, outplanes, H, W), with H and W the height
    and width of [output_size], exactly when the input has inplanes
    channels, height h and width w at least 1, in training mode more than
    one value per channel, and 2h - 1 <= H <= 2h and 2w - 1 <= W <= 2w; on
    every other input and [output_size] it raises.  The [stride] argument
    of the constructor plays no part. *)
Theorem ConvTransposeLayer_forward_domain (inplanes outplanes stride n c h w : Z)
  (output_size : Size) :
  1 <= inplanes -> 1 <= outplanes -> 1 <= n ->
  returns_exactly_when
    (output (ConvTransposeLayer_forward
               (ConvTransposeLayer_apply (set_training mode)
                  (_make_decoding_layer inplanes outplanes stride))
               (mkSize n c h w) output_size))
    (mkSize n outplanes (height output_size) (width output_size))
    (c = inplanes /\ 1 <= h /\ 1 <= w /\ bn_fits mode n h w
     /\ 2 * h - 1 <= height output_size <= 2 * h
     /\ 2 * w - 1 <= width output_size <= 2 * w).
Proof.
  intros _ _ _. unfold _make_decoding_layer. apply returns_exactly.
  - intros (Hc & Hh & Hw & F & Ho & Hq). now apply (ConvTransposeLayer_size mode).
  - intros y st E.
    exact (ConvTransposeLayer_accepts mode _ (set_training_keeps_config mode) _ _ _ _ _ _ _ _ _ _ E).
Qed.

(** X10: [UResNet.forward] returns a tensor of size (n, num_classes, h, w)
    exactly when the input has input_channels channels, height and width at
    least 1 and, in training mode, more than one value per channel at the
    deepest stage (n * ceil(h / 16) * ceil(w / 16) <> 1); on every other
    input it raises. *)
Theorem UResNet_forward_domain (num_classes input_channels inplanes : Z) (showsizes : bool)
  (n c h w : Z) :
  1 <= num_classes -> 1 <= input_channels -> 1 <= inplanes -> 1 <= n ->
  returns_exactly_when
    (output (UResNet_forward
               (UResNet_apply (set_training mode)
                  (UResNet_init num_classes input_channels inplanes showsizes))
               (mkSize n c h w)))
    (mkSize n num_classes h w)
    (c = input_channels /\ 1 <= h /\ 1 <= w
     /\ bn_fits mode n (ceil_div h 16) (ceil_div w 16)).
Proof.
  intros _ _ _ _. unfold UResNet_init. rewrite UResNet_apply_apply.
  assert (Hv : keeps_config mode (then_visit initialization (set_training (P:=P) mode)))
    by (apply then_visit_keeps_config;
        auto using set_training_keeps_config, initialization_keeps_config).
  apply returns_exactly.
  - intros (Hc & Hh & Hw & F). now apply (UResNet_size mode).
  - intros y st E. exact (UResNet_accepts mode _ Hv _ _ _ _ _ _ _ _ _ _ E).
Qed.

End Domains.

Lemma double_conv_forward_domain_witness :
  returns_exactly_when
    (output (double_conv_forward
               (double_conv_apply (set_training true) (double_conv_init (P:=init) 3 64))
               (mkSize 1 3 1 1)))
    (mkSize 1 64 1 1)
    (3 = 3 /\ 1 <= 1 /\ 1 <= 1 /\ bn_fits true 1 1 1)
  /\ returns_exactly_when
       (output (inconv_forward
                  (inconv_apply (set_training true) (inconv_init (P:=init) 3 64))
                  (mkSize 1 3 1 1)))
       (mkSize 1 64 1 1)
       (3 = 3 /\ 1 <= 1 /\ 1 <= 1 /\ bn_fits true 1 1 1).
Proof. apply (double_conv_forward_domain true 3 64 1 3 1 1); lia. Defined.

Lemma down_forward_domain_witness :
  returns_exactly_when
    (output (down_forward (down_apply (set_training true) (down_init (P:=init) 64 128))
               (mkSize 2 64 5 7)))
    (mkSize 2 128 (5 / 2) (7 / 2))
    (64 = 64 /\ 2 <= 5 /\ 2 <= 7 /\ bn_fits true 2 (5 / 2) (7 / 2)).
Proof. apply (down_forward_domain true 64 128 2 64 5 7); lia. Defined.

Lemma up_forward_domain_witness :
  returns_exactly_when
    (output (up_forward (up_apply (set_training false) (up_init (P:=init) 128 64 false))
               (mkSize 2 64 8 8) (mkSize 2 64 17 15)))
    (mkSize 2 64 17 15)
    (2 = 2 /\ 64 + 64 = 128 /\ (false = false -> 64 = 128 / 2)
     /\ 1 <= 8 /\ 1 <= 8 /\ 1 <= 17 /\ 1 <= 15 /\ bn_fits false 2 17 15).
Proof. apply (up_forward_domain false 128 64 false 2 64 8 8 2 64 17 15); lia. Defined.

Lemma outconv_forward_domain_witness :
  returns_exactly_when
    (output (outconv_forward (outconv_apply (set_training true) (outconv_init (P:=init) 64 5))
               (mkSize 1 64 1 1)))
    (mkSize 1 5 1 1)
    (64 = 64 /\ 1 <= 1 /\ 1 <= 1).
Proof. apply (outconv_forward_domain true 64 5 1 64 1 1); lia. Defined.

Lemma UNet_forward_domain_witness :
  returns_exactly_when
    (output (UNet_forward (UNet_apply (set_training true) (UNet_init (P:=init) 3 5))
               (mkSize 1 3 31 16)))
    (mkSize 1 5 31 16)
    (3 = 3 /\ 16 <= 31 /\ 16 <= 16 /\ bn_fits true 1 (31 / 16) (16 / 16)).
Proof. apply (UNet_forward_domain true 3 5 1 3 31 16); lia. Defined.

Lemma Bottleneck_forward_domain_witness :
  returns_exactly_when
    (output (Bottleneck_forward
               (Bottleneck_apply (set_training true) (Bottleneck_init (P:=init) 16 32 2))
               (mkSize 2 16 9 9)))
    (mkSize 2 32 ((9 - 1) / 2 + 1) ((9 - 1) / 2 + 1))
    (16 = 16 /\ 1 <= 9 /\ 1 <= 9 /\ bn_fits true 2 ((9 - 1) / 2 + 1) ((9 - 1) / 2 + 1)).
Proof. apply (Bottleneck_forward_domain true 16 32 2 2 16 9 9); lia. Defined.

Lemma Bottleneck_without_shortcut_domain_witness :
  returns_exactly_when
    (output (Bottleneck_forward
               (Bottleneck_apply (set_training true) (Bottleneck_init (P:=init) 16 1 1))
               (mkSize 2 16 9 9)))
    (mkSize 2 (if 16 =? 1 then 1 else 16) 9 9)
    (16 = 16 /\ (16 = 1 \/ 16 = 1 \/ 1 = 1) /\ 1 <= 9 /\ 1 <= 9 /\ bn_fits true 2 9 9).
Proof. apply (Bottleneck_without_shortcut_domain true 16 1 2 16 9 9); lia. Defined.

Lemma DoubleResNet_forward_domain_witness :
  returns_exactly_when
    (output (DoubleResNet_forward
               (DoubleResNet_apply (set_training true)
                  (_make_encoding_layer (P:=init) 16 32 2))
               (mkSize 2 16 9 9)))
    (mkSize 2 32 ((9 - 1) / 2 + 1) ((9 - 1) / 2 + 1))
    (16 = 16 /\ 1 <= 9 /\ 1 <= 9 /\ bn_fits true 2 ((9 - 1) / 2 + 1) ((9 - 1) / 2 + 1)).
Proof. apply (DoubleResNet_forward_domain true 16 32 2 2 16 9 9); lia. Defined.

Lemma ConvTransposeLayer_forward_domain_witness :
  returns_exactly_when
    (output (ConvTransposeLayer_forward
               (ConvTransposeLayer_apply (set_training true)
                  (_make_decoding_layer (P:=init) 64 16 2))
               (mkSize 2 64 9 9) (mkSize 2 16 19 17)))
    (mkSize 2 16 (height (mkSize 2 16 19 17)) (width (mkSize 2 16 19 17)))
    (64 = 64 /\ 1 <= 9 /\ 1 <= 9 /\ bn_fits true 2 9 9
     /\ 2 * 9 - 1 <= height (mkSize 2 16 19 17) <= 2 * 9
     /\ 2 * 9 - 1 <= width (mkSize 2 16 19 17) <= 2 * 9).
Proof.
  apply (ConvTransposeLayer_forward_domain true 64 16 2 2 64 9 9 (mkSize 2 16 19 17)); lia.
Defined.

(** The run of the [__main__] block of base_model.py, on sizes. *)
Lemma UResNet_forward_domain_witness :
  returns_exactly_when
    (output (UResNet_forward
               (UResNet_apply (set_training true) (UResNet_init (P:=init) 2 1 16 false))
               (mkSize 32 1 192 224)))
    (mkSize 32 2 192 224)
    (1 = 1 /\ 1 <= 192 /\ 1 <= 224 /\ bn_fits true 32 (ceil_div 192 16) (ceil_div 224 16)).
Proof. apply (UResNet_forward_domain true 2 1 16 false 32 1 192 224); lia. Defined.

(** ** The counters of the batch normalisations *)

Create HintDb counts.

Lemma counters_app {P : Type} (a b : list (layer P)) :
  counters (a ++ b) = counters a ++ counters b.
Proof. apply flat_map_app. Qed.

Ltac recount :=
  repeat match goal with
         | E : _ = Some (_, ?s) |- context [counters (?mods ?s)] =>
             let H := fresh "H" in
             assert (H : counters (mods s) = map one_more (counters (mods _)))
               by (eauto with counts);
             rewrite H; clear H E
         end;
  reflexivity.

Section Counts.
Context {T P : Type} {TO : TensorOps T P}.

Lemma BatchNorm2d_counts m x y m' :
  on_bn (set_training true) m = m -> BatchNorm2d_forward m x = Some (y, m') ->
  num_batches_tracked m' = one_more (num_batches_tracked m).
Proof.
  intros Hm. assert (Tr : training m = true) by (rewrite <- Hm; reflexivity).
  unfold BatchNorm2d_forward. rewrite Tr. intros H. unbind H.
  injection H as <- <-. reflexivity.
Qed.

Lemma double_conv_counts m x y m' :
  double_conv_apply (set_training true) m = m -> double_conv_forward m x = Some (y, m') ->
  counters (double_conv_modules m') = map one_more (counters (double_conv_modules m)).
Proof.
  unfold double_conv_forward. intros Hm H.
  field Hm conv_1. field Hm conv_4.
  unbind H. injection H as <- <-.
  unfold double_conv_modules, counters. cbn [conv_0 conv_1 conv_3 conv_4 flat_map batches_tracked app map].
  now rewrite (BatchNorm2d_counts _ _ _ _ Hm0 E0), (BatchNorm2d_counts _ _ _ _ Hm1 E2).
Qed.

Hint Resolve double_conv_counts : counts.

Lemma inconv_counts m x y m' :
  inconv_apply (set_training true) m = m -> inconv_forward m x = Some (y, m') ->
  counters (inconv_modules m') = map one_more (counters (inconv_modules m)).
Proof.
  unfold inconv_forward. intros Hm H. field Hm inconv_conv.
  unbind H. injection H as <- <-.
  unfold inconv_modules. cbn [inconv_conv]. recount.
Qed.

Lemma down_counts m x y m' :
  down_apply (set_training true) m = m -> down_forward m x = Some (y, m') ->
  counters (down_modules m') = map one_more (counters (down_modules m)).
Proof.
  unfold down_forward. intros Hm H. field Hm mpconv_1.
  unbind H. injection H as <- <-.
  unfold down_modules. cbn [mpconv_0 mpconv_1]. recount.
Qed.

Lemma upsampler_counts (u : upsampler P) : counters (upsampler_modules u) = [].
Proof. now destruct u. Qed.

Lemma up_counts m x1 x2 y m' :
  up_apply (set_training true) m = m -> up_forward m x1 x2 = Some (y, m') ->
  counters (up_modules m') = map one_more (counters (up_modules m)).
Proof.
  unfold up_forward. intros Hm H. field Hm up_conv.
  unbind H. injection H as <- <-.
  unfold up_modules. cbn [up_up up_conv].
  rewrite !counters_app, !upsampler_counts. cbn [app]. recount.
Qed.

Lemma outconv_counts m x y m' :
  outconv_forward m x = Some (y, m') ->
  counters (outconv_modules m') = map one_more (counters (outconv_modules m)).
Proof.
  unfold outconv_forward. intros H. unbind H. now injection H as <- <-.
Qed.

Hint Resolve inconv_counts down_counts up_counts outconv_counts : counts.

Lemma UNet_counts m x y m' :
  UNet_apply (set_training true) m = m -> UNet_forward m x = Some (y, m') ->
  counters (UNet_modules m') = map one_more (counters (UNet_modules m)).
Proof.
  unfold UNet_forward. intros Hm H.
  field Hm inc. field Hm down1. field Hm down2. field Hm down3. field Hm down4.
  field Hm up1. field Hm up2. field Hm up3. field Hm up4.
  unbind H. injection H as <- <-.
  unfold UNet_modules. cbn [inc down1 down2 down3 down4 up1 up2 up3 up4 outc].
  rewrite !counters_app, !map_app. recount.
Qed.

Lemma Bottleneck_counts m x y m' :
  Bottleneck_apply (set_training true) m = m -> Bottleneck_forward m x = Some (y, m') ->
  counters (Bottleneck_modules m') = map one_more (counters (Bottleneck_modules m)).
Proof.
  unfold Bottleneck_forward. intros Hm H.
  field Hm b_bn1. field Hm b_bn2. field Hm b_bn3.
  unbind H. injection H as <- <-.
  unfold Bottleneck_modules.
  cbn [b_conv1 b_bn1 b_conv2 b_bn2 b_conv3 b_bn3 b_stride b_shortcut].
  rewrite !counters_app, !map_app.
  assert (S : counters match b_shortcut m with
                       | Some c => [Conv2d_layer c]
                       | None => []
                       end = []) by (now destruct (b_shortcut m)).
  rewrite S. unfold counters. cbn [flat_map batches_tracked app map].
  now rewrite (BatchNorm2d_counts _ _ _ _ Hm0 E1), (BatchNorm2d_counts _ _ _ _ Hm1 E3),
    (BatchNorm2d_counts _ _ _ _ Hm2 E5).
Qed.

Hint Resolve Bottleneck_counts : counts.

Lemma DoubleResNet_counts m x y m' :
  DoubleResNet_apply (set_training true) m = m ->
  DoubleResNet_forward m x = Some (y, m') ->
  counters (DoubleResNet_modules m') = map one_more (counters (DoubleResNet_modules m)).
Proof.
  unfold DoubleResNet_forward. intros Hm H. field Hm res1. field Hm res2.
  unbind H. injection H as <- <-.
  unfold DoubleResNet_modules. cbn [res1 res2].
  rewrite !counters_app, !map_app. recount.
Qed.

Lemma ConvTransposeLayer_counts m x o y m' :
  ConvTransposeLayer_apply (set_training true) m = m ->
  ConvTransposeLayer_forward m x o = Some (y, m') ->
  counters (ConvTransposeLayer_modules m')
  = map one_more (counters (ConvTransposeLayer_modules m)).
Proof.
  unfold ConvTransposeLayer_forward. intros Hm H. field Hm res.
  unbind H. injection H as <- <-.
  unfold ConvTransposeLayer_modules. cbn [res deconv].
  rewrite !counters_app, !map_app. recount.
Qed.

Hint Resolve DoubleResNet_counts ConvTransposeLayer_counts : counts.

Lemma UResNet_counts m x y m' :
  UResNet_apply (set_training true) m = m -> UResNet_forward m x = Some (y, m') ->
  counters (UResNet_modules m') = map one_more (counters (UResNet_modules m)).
Proof.
  unfold UResNet_forward. intros Hm H.
  field Hm bn1. field Hm bn2. field Hm bn3.
  field Hm enc_layer1. field Hm enc_layer2. field Hm enc_layer3. field Hm enc_layer4.
  field Hm dec_layer4. field Hm dec_layer3. field Hm dec_layer2. field Hm dec_layer1.
  field Hm bn10. field Hm bn11. field Hm bn12.
  unbind H. injection H as <- <-.
  unfold UResNet_modules.
  cbn [inplanes showsizes conv1 bn1 conv2 bn2 conv3 bn3
       enc_layer1 enc_layer2 enc_layer3 enc_layer4
       dec_layer4 dec_layer3 dec_layer2 dec_layer1
       nkernels conv10 bn10 conv11 bn11 conv12 bn12 conv13].
  rewrite !counters_app, !map_app.
  unfold counters at 1 10 11 20. cbn [flat_map batches_tracked app map].
  repeat match goal with
         | Hb : on_bn (set_training true) ?b = ?b,
           E : BatchNorm2d_forward ?b _ = Some (_, ?s) |- _ =>
             rewrite (BatchNorm2d_counts _ _ _ _ Hb E); clear E
         end.
  recount.
Qed.

(** X11: in training mode a forward call of a UNet, or of a UResNet, runs
    every batch normalisation of the network exactly once: after the call
    the counter of batches seen ([num_batches_tracked], a 64-bit integer)
    of each of them is one more than before the call. *)
Theorem forward_counts_one_batch :
  (forall (m : UNet P) (x y : T) (m' : UNet P),
      UNet_apply (set_training true) m = m -> UNet_forward m x = Some (y, m') ->
      counters (UNet_modules m') = map one_more (counters (UNet_modules m)))
  /\ (forall (m : UResNet P) (x y : T) (m' : UResNet P),
        UResNet_apply (set_training true) m = m -> UResNet_forward m x = Some (y, m') ->
        counters (UResNet_modules m') = map one_more (counters (UResNet_modules m))).
Proof. split; [exact UNet_counts | exact UResNet_counts]. Qed.

End Counts.

Lemma forward_counts_one_batch_witness :
  match UNet_forward (UNet_init (P:=init) 3 5) (mkSize 2 3 16 16) with
  | Some (_, m') => counters (UNet_modules m') = repeat 1 18
  | None => False
  end
  /\ match UResNet_forward (UResNet_init (P:=init) 2 1 16 false) (mkSize 2 1 64 64) with
     | Some (_, m') => counters (UResNet_modules m') = repeat 1 42
     | None => False
     end.
Proof.
  split.
  - assert (E : output (UNet_forward (UNet_init (P:=init) 3 5) (mkSize 2 3 16 16))
                = Some (mkSize 2 5 16 16)) by (vm_compute; reflexivity).
    remember (UNet_forward (UNet_init (P:=init) 3 5) (mkSize 2 3 16 16)) as r eqn:R.
    destruct r as [[y m']|]; [|discriminate E].
    rewrite (proj1 (forward_counts_one_batch (T:=Size) (P:=init))
               (UNet_init 3 5) _ _ _ eq_refl (eq_sym R)).
    reflexivity.
  - assert (E : output (UResNet_forward (UResNet_init (P:=init) 2 1 16 false)
                          (mkSize 2 1 64 64))
                = Some (mkSize 2 2 64 64)) by (vm_compute; reflexivity).
    remember (UResNet_forward (UResNet_init (P:=init) 2 1 16 false) (mkSize 2 1 64 64))
      as r eqn:R.
    destruct r as [[y m']|]; [|discriminate E].
    rewrite (proj2 (forward_counts_one_batch (T:=Size) (P:=init))
               (UResNet_init 2 1 16 false) _ _ _ eq_refl (eq_sym R)).
    reflexivity.
Defined.

(** ** What the initialisation loop and [showsizes] leave alone *)

Lemma visit_initialization_same_but_weights {P : Type} {PO : ParamOps P} (l : layer P) :
  same_but_weights l (visit initialization l).
Proof. destruct l; cbn; auto 10. Qed.

Lemma Forall2_map_r {A B : Type} (R : A -> B -> Prop) (f : A -> B) (l : list A) :
  (forall a, R a (f a)) -> Forall2 R l (map f l).
Proof. intros H. induction l; cbn; constructor; auto. Qed.

(** X12: the initialisation loop of [UResNet.__init__] writes only weights:
    layer by layer, the UResNet it leaves has the configuration the layers
    were registered with, the convolution biases their constructors left,
    and the running mean, running variance, counter of batches and mode of
    every batch normalisation as they were. *)
Theorem initialization_writes_only_weights {P : Type} {PO : ParamOps P}
  (num_classes input_channels inplanes : Z) (showsizes : bool) :
  0 < num_classes -> 0 < input_channels -> 0 < inplanes ->
  Forall2 same_but_weights
    (UResNet_modules (UResNet_layers (P:=P) num_classes input_channels inplanes showsizes))
    (UResNet_modules (UResNet_init num_classes input_channels inplanes showsizes)).
Proof.
  intros _ _ _. unfold UResNet_init. rewrite UResNet_modules_apply.
  apply Forall2_map_r. exact visit_initialization_same_but_weights.
Qed.

Lemma initialization_writes_only_weights_witness :
  Forall2 same_but_weights
    (UResNet_modules (UResNet_layers (P:=init) 2 1 16 false))
    (UResNet_modules (UResNet_init 2 1 16 false)).
Proof. apply (initialization_writes_only_weights 2 1 16 false); lia. Defined.

(** One call on each side of a comparison of two runs of the same calls. *)
Ltac same_step :=
  match goal with
  | |- option_map _ (bind ?e _) = option_map _ (bind ?e _) =>
      destruct e as [?|]; cbn [bind]; [|reflexivity]
  | |- option_map _ (match ?r with (_, _) => _ end)
       = option_map _ (match ?r with (_, _) => _ end) =>
      destruct r as [? ?]
  end.

Section Showsizes.
Context {T P : Type} {PO : ParamOps P} {TO : TensorOps T P}.

(** X13: [showsizes] has no effect on a forward call: a UResNet built with
    [showsizes=True] and one built with [showsizes=False] return the same
    tensor for the same input, and are left with the same layers in the
    same state (or both raise). *)
Theorem UResNet_forward_ignores_showsizes (num_classes input_channels inplanes : Z) (x : T) :
  0 < num_classes -> 0 < input_channels -> 0 < inplanes ->
  option_map (fun r => (fst r, UResNet_modules (snd r)))
    (UResNet_forward (UResNet_init num_classes input_channels inplanes true) x)
  = option_map (fun r => (fst r, UResNet_modules (snd r)))
      (UResNet_forward (UResNet_init num_classes input_channels inplanes false) x).
Proof.
  intros _ _ _. unfold UResNet_forward, UResNet_init, UResNet_layers.
  cbn [UResNet_apply conv1 bn1 conv2 bn2 conv3 bn3
       enc_layer1 enc_layer2 enc_layer3 enc_layer4
       dec_layer4 dec_layer3 dec_layer2 dec_layer1
       nkernels conv10 bn10 conv11 bn11 conv12 bn12 conv13].
  repeat same_step. reflexivity.
Qed.

End Showsizes.

Lemma UResNet_forward_ignores_showsizes_witness :
  option_map (fun r => (fst r, UResNet_modules (snd r)))
    (UResNet_forward (UResNet_init (P:=init) 2 1 16 true) (mkSize 2 1 64 64))
  = option_map (fun r => (fst r, UResNet_modules (snd r)))
      (UResNet_forward (UResNet_init (P:=init) 2 1 16 false) (mkSize 2 1 64 64)).
Proof. apply (UResNet_forward_ignores_showsizes 2 1 16 (mkSize 2 1 64 64)); lia. Defined.

(** ** BasicBlock *)

Lemma broadcast_keeps a b :
  match broadcast a b with
  | Some r => (r =? a) = ((b =? a) || (b =? 1))
  | None => (b =? a) || (b =? 1) = false
  end.
Proof.
  unfold broadcast.
  destruct (Z.eqb_spec a b) as [->|N].
  - now rewrite !Z.eqb_refl.
  - destruct (Z.eqb_spec a 1) as [->|N1].
    + destruct (Z.eqb_spec b 1); [lia | reflexivity].
    + destruct (Z.eqb_spec b 1) as [->|N2].
      * rewrite Z.eqb_refl. now rewrite orb_true_r.
      * destruct (Z.eqb_spec b a); [lia | reflexivity].
Qed.

(** [a += b] keeps the size of [a], and is refused unless each length of
    [b] is that of [a] or 1. *)
Lemma add__size n p h w c h0 w0 :
  add_ (mkSize n p h w) (mkSize n c h0 w0)
  = if ((c =? p) || (c =? 1)) && ((h0 =? h) || (h0 =? 1)) && ((w0 =? w) || (w0 =? 1))
    then Some (mkSize n p h w)
    else None.
Proof.
  cbn [add_ SizeInplaceOps]. unfold size_add_, size_add, Size_eqb.
  cbn [batch channels height width].
  assert (Bn : broadcast n n = Some n) by (unfold broadcast; now rewrite Z.eqb_refl).
  rewrite Bn. cbn [bind].
  pose proof (broadcast_keeps p c) as Bc.
  pose proof (broadcast_keeps h h0) as Bh.
  pose proof (broadcast_keeps w w0) as Bw.
  destruct (broadcast p c) as [rc|]; cbn [bind]; [|now rewrite Bc].
  destruct (broadcast h h0) as [rh|]; cbn [bind]; [|now rewrite Bh, andb_false_r].
  destruct (broadcast w w0) as [rw|]; cbn [bind batch channels height width];
    [|now rewrite Bw, andb_false_r].
  now rewrite Z.eqb_refl, Bc, Bh, Bw.
Qed.

Lemma strided_same l s : 1 <= s -> 1 <= l -> ((l - 1) / s + 1 = l <-> s = 1 \/ l = 1).
Proof.
  intros Hs Hl. split.
  - intros E. destruct (Z.eq_dec s 1) as [|N]; [auto|]. right. zdiv.
  - intros [->| ->]; [rewrite Z.div_1_r; lia | zdiv].
Qed.

Section BasicBlockSizes.
Context {P D : Type} {PO : ParamOps P}.
Variable mode : bool.
Variable v : visitor P.
Hypothesis Hv : keeps_config mode v.
Variable on_downsample : D -> D.
Variable downsample_forward : D -> Size -> option (Size * D).

Lemma BasicBlock_size_downsample inplanes planes stride downsample n c h w r :
  c = inplanes -> 1 <= stride -> 1 <= h -> 1 <= w ->
  bn_fits mode n ((h - 1) / stride + 1) ((w - 1) / stride + 1) ->
  match downsample with
  | Some m => exists d, downsample_forward (on_downsample m) (mkSize n c h w) = Some (r, d)
  | None => r = mkSize n c h w
  end ->
  output (BasicBlock_forward downsample_forward
            (BasicBlock_apply v on_downsample
               (BasicBlock_init inplanes planes stride downsample))
            (mkSize n c h w))
  = add_ (mkSize n planes ((h - 1) / stride + 1) ((w - 1) / stride + 1)) r.
Proof.
  intros -> Hs Hh Hw F Hd.
  pose proof (strided_bounds h stride Hs Hh) as Bh.
  pose proof (strided_bounds w stride Hs Hw) as Bw.
  unfold BasicBlock_forward, conv3x3.
  cbn [BasicBlock_apply BasicBlock_init bb_conv1 bb_bn1 bb_conv2 bb_bn2 bb_downsample
       bb_stride].
  unfold conv3x3.
  rewrite (conv2d_size mode v Hv inplanes planes 3 stride 1 false n inplanes h w) by lia.
  cbn [bind]. rewrite !window_3.
  run (BatchNorm2d_size mode v Hv planes n planes _ _ eq_refl F).
  cbn [relu SizeOps].
  rewrite (conv2d_size mode v Hv planes planes 3 1 1 false n planes) by lia.
  cbn [bind]. rewrite !window_3, !Z.div_1_r.
  replace ((h - 1) / stride + 1 - 1 + 1) with ((h - 1) / stride + 1) by lia.
  replace ((w - 1) / stride + 1 - 1 + 1) with ((w - 1) / stride + 1) by lia.
  run (BatchNorm2d_size mode v Hv planes n planes _ _ eq_refl F).
  destruct downsample as [m|]; cbn [option_map].
  - destruct Hd as [d Hd]. rewrite Hd. cbn [bind].
    destruct (add_ _ r); reflexivity.
  - subst r. cbn [bind].
    destruct (add_ _ _); reflexivity.
Qed.

Lemma BasicBlock_accepts inplanes planes stride downsample n c h w y s :
  1 <= stride ->
  BasicBlock_forward downsample_forward
    (BasicBlock_apply v on_downsample (BasicBlock_init inplanes planes stride downsample))
    (mkSize n c h w) = Some (y, s) ->
  c = inplanes /\ 1 <= h /\ 1 <= w
  /\ bn_fits mode n ((h - 1) / stride + 1) ((w - 1) / stride + 1).
Proof.
  intros Hs. unfold BasicBlock_forward.
  cbn [BasicBlock_apply BasicBlock_init bb_conv1 bb_bn1 bb_conv2 bb_bn2 bb_downsample
       bb_stride].
  unfold conv3x3.
  intros H. do 2 call H. clear H.
  destruct (conv2d_accepts mode v Hv _ _ _ _ _ _ _ _ _ _ _ E) as (Hc & _ & Hh & Hw).
  rewrite (conv2d_size mode v Hv inplanes planes 3 stride 1 false n c h w) in E by lia.
  injection E as <-. rewrite !window_3 in E0.
  destruct (BatchNorm2d_accepts mode v Hv _ _ _ _ _ _ _ E0) as (_ & F).
  repeat split; auto; lia.
Qed.

End BasicBlockSizes.

Section BasicBlockDomains.
Context {P D : Type} {PO : ParamOps P}.
Variable mode : bool.
Variable on_downsample : D -> D.
Variable downsample_forward : D -> Size -> option (Size * D).

(** X14: a [BasicBlock] without [downsample] adds its input, in place, to
    the output of its two convolutions, whose size the sum cannot change.
    Its forward returns a tensor of size (n, planes, h, w) exactly when the
    input has inplanes channels, inplanes = planes or inplanes = 1, height
    and width at least 1, the stride is 1 or the input is a single pixel,
    and, in training mode, the input has more than one value per channel;
    on every other input it raises.  So with a stride above 1 and no
    [downsample] it raises on every input larger than one pixel. *)
Theorem BasicBlock_forward_domain (inplanes planes stride n c h w : Z) :
  1 <= inplanes -> 1 <= planes -> 1 <= stride -> 1 <= n ->
  returns_exactly_when
    (output (BasicBlock_forward downsample_forward
               (BasicBlock_apply (set_training mode) on_downsample
                  (BasicBlock_init inplanes planes stride None))
               (mkSize n c h w)))
    (mkSize n planes h w)
    (c = inplanes /\ (inplanes = planes \/ inplanes = 1)
     /\ 1 <= h /\ 1 <= w /\ (stride = 1 \/ h = 1 /\ w = 1)
     /\ bn_fits mode n h w).
Proof.
  intros _ _ Hs _.
  pose proof (set_training_keeps_config (P:=P) mode) as Hv.
  assert (S : forall y,
             c = inplanes -> 1 <= h -> 1 <= w ->
             bn_fits mode n ((h - 1) / stride + 1) ((w - 1) / stride + 1) ->
             output (BasicBlock_forward downsample_forward
                       (BasicBlock_apply (set_training mode) on_downsample
                          (BasicBlock_init inplanes planes stride None))
                       (mkSize n c h w)) = Some y ->
             (inplanes = planes \/ inplanes = 1)
             /\ (h - 1) / stride + 1 = h /\ (w - 1) / stride + 1 = w
             /\ y = mkSize n planes h w).
  { intros y Hc Hh Hw F.
    rewrite (BasicBlock_size_downsample mode _ Hv on_downsample downsample_forward
               inplanes planes stride None n c h w (mkSize n c h w)
               Hc Hs Hh Hw F eq_refl).
    rewrite add__size.
    pose proof (strided_bounds h stride Hs Hh) as Bh.
    pose proof (strided_bounds w stride Hs Hw) as Bw.
    destruct (((c =? planes) || (c =? 1))
              && ((h =? (h - 1) / stride + 1) || (h =? 1))
              && ((w =? (w - 1) / stride + 1) || (w =? 1))) eqn:B; [|discriminate].
    rewrite !andb_true_iff, !orb_true_iff, !Z.eqb_eq in B.
    destruct B as ((Bc & Bh') & Bw').
    assert (Eh : (h - 1) / stride + 1 = h) by (destruct Bh' as [<-| ->]; [reflexivity|lia]).
    assert (Ew : (w - 1) / stride + 1 = w) by (destruct Bw' as [<-| ->]; [reflexivity|lia]).
    intros E. injection E as <-. rewrite Eh, Ew. subst c. auto. }
  apply accepts_exactly.
  - intros (Hc & Hp & Hh & Hw & Hr & F).
    assert (Eh : (h - 1) / stride + 1 = h) by (apply strided_same; [lia | lia | tauto]).
    assert (Ew : (w - 1) / stride + 1 = w) by (apply strided_same; [lia | lia | tauto]).
    rewrite (BasicBlock_size_downsample mode _ Hv on_downsample downsample_forward
               inplanes planes stride None n c h w (mkSize n c h w)
               Hc Hs Hh Hw); [| now rewrite Eh, Ew | reflexivity].
    rewrite add__size, Eh, Ew, !Z.eqb_refl. subst c.
    replace ((inplanes =? planes) || (inplanes =? 1)) with true; [reflexivity|].
    symmetry. rewrite orb_true_iff, !Z.eqb_eq. exact Hp.
  - intros y E. destruct (output_some _ _ E) as [st E'].
    destruct (BasicBlock_accepts mode _ Hv on_downsample downsample_forward
                _ _ _ _ _ _ _ _ _ _ Hs E') as (Hc & Hh & Hw & F).
    destruct (S y Hc Hh Hw F E) as (Hp & Eh & Ew & _).
    rewrite Eh, Ew in F.
    apply strided_same in Eh; [|lia|lia]. apply strided_same in Ew; [|lia|lia].
    repeat split; auto. destruct Eh as [?|?]; [auto|]. destruct Ew as [?|?]; auto.
Qed.

(** X15: a [BasicBlock] with a [downsample] module adds what that module
    returns for the input [x]: when [downsample(x)] has the size of the
    output of the two convolutions, (n, planes, (h - 1) // stride + 1,
    (w - 1) // stride + 1), the block returns a tensor of that size, for
    every stride and every inplanes and planes. *)
Theorem BasicBlock_forward_downsample (inplanes planes stride : Z) (downsample : D)
  (n c h w : Z) (d : D) :
  1 <= inplanes -> 1 <= planes -> 1 <= stride -> 1 <= n ->
  c = inplanes -> 1 <= h -> 1 <= w ->
  bn_fits mode n ((h - 1) / stride + 1) ((w - 1) / stride + 1) ->
  downsample_forward (on_downsample downsample) (mkSize n c h w)
  = Some (mkSize n planes ((h - 1) / stride + 1) ((w - 1) / stride + 1), d) ->
  output (BasicBlock_forward downsample_forward
            (BasicBlock_apply (set_training mode) on_downsample
               (BasicBlock_init inplanes planes stride (Some downsample)))
            (mkSize n c h w))
  = Some (mkSize n planes ((h - 1) / stride + 1) ((w - 1) / stride + 1)).
Proof.
  intros _ _ Hs _ Hc Hh Hw F Hd.
  pose proof (set_training_keeps_config (P:=P) mode) as Hv.
  rewrite (BasicBlock_size_downsample mode _ Hv on_downsample downsample_forward
             inplanes planes stride (Some downsample) n c h w _ Hc Hs Hh Hw F
             (ex_intro _ d Hd)).
  rewrite add__size, !Z.eqb_refl. reflexivity.
Qed.

End BasicBlockDomains.

Lemma BasicBlock_forward_domain_witness :
  returns_exactly_when
    (output (BasicBlock_forward (D:=Conv2d init) Conv2d_forward
               (BasicBlock_apply (set_training true) (on_conv (set_training true))
                  (BasicBlock_init (P:=init) 16 16 2 None))
               (mkSize 2 16 9 9)))
    (mkSize 2 16 9 9)
    (16 = 16 /\ (16 = 16 \/ 16 = 1) /\ 1 <= 9 /\ 1 <= 9 /\ (2 = 1 \/ 9 = 1 /\ 9 = 1)
     /\ bn_fits true 2 9 9).
Proof.
  apply (BasicBlock_forward_domain true (on_conv (set_training true)) Conv2d_forward
           16 16 2 2 16 9 9); lia.
Defined.

Lemma BasicBlock_forward_downsample_witness :
  output (BasicBlock_forward Conv2d_forward
            (BasicBlock_apply (set_training true) (on_conv (set_training true))
               (BasicBlock_init (P:=init) 16 32 2 (Some (nn_Conv2d 16 32 1 2 0 false))))
            (mkSize 2 16 9 9))
  = Some (mkSize 2 32 ((9 - 1) / 2 + 1) ((9 - 1) / 2 + 1)).
Proof.
  apply (BasicBlock_forward_downsample true (on_conv (set_training true)) Conv2d_forward
           16 32 2 (nn_Conv2d 16 32 1 2 0 false) 2 16 9 9 (nn_Conv2d 16 32 1 2 0 false));
    try lia; [discriminate | reflexivity].
Defined.
